(** * Smart-Traffic-Simulator: the simulation core of [main.py]

    A shallow embedding of the classes [Config], [Car], [SignalController],
    [MetricsCollector] and of the time-stepping part of [TrafficSimulation],
    followed by the properties of the specification.

    Numbers.  Python's [float] values (coordinates, speeds, simulated
    seconds) are embedded as exact rationals [Q]; rounding of binary
    floating point is not modelled, so an equation that the specification
    gives "within floating-point tolerance" is stated here as an exact
    equation [==] of rationals.  Python's [int] counters are [Z].

    Objects.  A Python object is a record value; a method that mutates
    [self] is a function returning the new record.  Object identity
    ([other is self]) is the field [Car.ident].  Rendering, input handling
    and persistence are not embedded. *)

From Stdlib Require Import QArith Qround Qminmax Qabs Lqa Lia ZArith.
From Stdlib Require Import Bool String List.
Import ListNotations.
Open Scope list_scope.
Open Scope Q_scope.

(** ** Comparisons of Python floats, as booleans *)

Definition Qltb (a b : Q) : bool :=
  match a ?= b with Lt => true | _ => false end.

Definition Qleb (a b : Q) : bool := Qle_bool a b.

Infix "<?" := Qltb (at level 70, no associativity) : Q_scope.
Infix "<=?" := Qleb (at level 70, no associativity) : Q_scope.

(** Python's [a % b] on floats, for a positive modulus [b]: the result
    lies in [[0, b)] and has the sign of [b]. *)
Definition Qmod (a b : Q) : Q := a - inject_Z (Qfloor (a / b)) * b.

(** Python's [int(a)]: truncation towards zero. *)
Definition Qtrunc (a : Q) : Z := Z.quot (Qnum a) (Zpos (Qden a)).

(** [sum(l)] over a list of floats. *)
Definition Qsum (l : list Q) : Q := fold_left Qplus l 0.

(** ** [class Config] (the constants the core reads) *)

Module Config.
Definition WINDOW_WIDTH : Z := 1200.
Definition WINDOW_HEIGHT : Z := 800.
Definition FPS : Q := 60.

Definition LANE_WIDTH : Z := 40.
Definition INTERSECTION_SIZE : Z := 200.

Definition CAR_WIDTH : Z := 30.
Definition CAR_HEIGHT : Z := 15.
Definition CAR_MAX_SPEED : Q := 4.0.
Definition CAR_ACCELERATION : Q := 0.10.
Definition SAFE_DISTANCE : Q := 35.

Definition BASE_SPAWN_RATE : Q := 0.02.
Definition MAIN_ROAD_MULTIPLIER : Q := 1.5.
Definition SIDE_ROAD_MULTIPLIER : Q := 1.0.

Definition FIXED_GREEN_TIME : Q := 20.
Definition FIXED_YELLOW_TIME : Q := 3.
Definition FIXED_ALL_RED_TIME : Q := 2.

Definition AI_UPDATE_INTERVAL : Q := 2.0.
Definition MIN_GREEN_TIME : Q := 12.
Definition MAX_GREEN_TIME : Q := 50.
Definition COOLDOWN_TIME : Q := 6.
Definition ANTI_STARVATION_TIME : Q := 120.
Definition PRESSURE_ALPHA : Q := 0.3.
Definition PRESSURE_BETA : Q := 0.4.
Definition HYSTERESIS_MARGIN : Q := 0.5.

(** Number of colours in [CAR_COLORS]. *)
Definition CAR_COLORS_len : nat := 5.
End Config.

(** ** Enumerations *)

Inductive SignalState : Set := GREEN | YELLOW | RED | ALL_RED.

Inductive Direction : Set := NORTH | SOUTH | EAST | WEST.

(** The two logical roads, the strings ['main'] and ['side'] of the source. *)
Inductive Road : Set := main | side.

Definition SignalState_eqb (a b : SignalState) : bool :=
  match a, b with
  | GREEN, GREEN | YELLOW, YELLOW | RED, RED | ALL_RED, ALL_RED => true
  | _, _ => false
  end.

Definition Direction_eqb (a b : Direction) : bool :=
  match a, b with
  | NORTH, NORTH | SOUTH, SOUTH | EAST, EAST | WEST, WEST => true
  | _, _ => false
  end.

(** What [Car] needs of the object passed as [signal_controller]: the
    method [get_signal_state(road)]. *)
Class SignalSource (S : Type) : Type :=
  get_signal_state : S -> Road -> SignalState.

(** ** [class Car] *)

Module Car.

Record t : Type := mk {
  ident : nat;              (* object identity *)
  x : Q;
  y : Q;
  direction : Direction;
  speed : Q;
  max_speed : Q;
  color : nat;              (* index into CAR_COLORS; 5 = AMBULANCE_COLOR *)
  is_ambulance : bool;
  spawn_time : Q;
  waiting_time : Q;
  is_stopped : bool;
  exit_time : option Q
}.

(** [Car(x, y, direction, is_ambulance, spawn_sim_time)]; the colour is
    chosen by the caller's random source (see [TrafficSimulation]). *)
Definition init (id : nat) (x0 y0 : Q) (d : Direction) (amb : bool)
    (col : nat) (spawn_sim_time : Q) : t :=
  mk id x0 y0 d 0 Config.CAR_MAX_SPEED col amb spawn_sim_time 0 false None.

Definition set_x (v : Q) (c : t) : t :=
  mk (ident c) v (y c) (direction c) (speed c) (max_speed c) (color c)
     (is_ambulance c) (spawn_time c) (waiting_time c) (is_stopped c) (exit_time c).
Definition set_y (v : Q) (c : t) : t :=
  mk (ident c) (x c) v (direction c) (speed c) (max_speed c) (color c)
     (is_ambulance c) (spawn_time c) (waiting_time c) (is_stopped c) (exit_time c).
Definition set_speed (v : Q) (c : t) : t :=
  mk (ident c) (x c) (y c) (direction c) v (max_speed c) (color c)
     (is_ambulance c) (spawn_time c) (waiting_time c) (is_stopped c) (exit_time c).
Definition set_max_speed (v : Q) (c : t) : t :=
  mk (ident c) (x c) (y c) (direction c) (speed c) v (color c)
     (is_ambulance c) (spawn_time c) (waiting_time c) (is_stopped c) (exit_time c).
Definition set_waiting_time (v : Q) (c : t) : t :=
  mk (ident c) (x c) (y c) (direction c) (speed c) (max_speed c) (color c)
     (is_ambulance c) (spawn_time c) v (is_stopped c) (exit_time c).
Definition set_is_stopped (v : bool) (c : t) : t :=
  mk (ident c) (x c) (y c) (direction c) (speed c) (max_speed c) (color c)
     (is_ambulance c) (spawn_time c) (waiting_time c) v (exit_time c).
Definition set_exit_time (v : option Q) (c : t) : t :=
  mk (ident c) (x c) (y c) (direction c) (speed c) (max_speed c) (color c)
     (is_ambulance c) (spawn_time c) (waiting_time c) (is_stopped c) v.

(** [a < v < b] *)
Definition between (a v b : Q) : bool := (a <? v) && (v <? b).

Definition should_stop_at_signal {S : Type} `{SignalSource S}
    (self : t) (signal_controller : S) : bool :=
  let cx := inject_Z (Config.WINDOW_WIDTH / 2) in
  let cy := inject_Z (Config.WINDOW_HEIGHT / 2) in
  let half := inject_Z (Config.INTERSECTION_SIZE / 2) in
  let stop_band := 50 in
  match direction self with
  | NORTH =>
      let stop_y := cy + half in
      if between (stop_y - stop_band) (y self) (stop_y + stop_band)
      then negb (SignalState_eqb (get_signal_state signal_controller main) GREEN)
      else false
  | SOUTH =>
      let stop_y := cy - half in
      if between (stop_y - stop_band) (y self) (stop_y + stop_band)
      then negb (SignalState_eqb (get_signal_state signal_controller main) GREEN)
      else false
  | EAST =>
      let stop_x := cx - half in
      if between (stop_x - stop_band) (x self) (stop_x + stop_band)
      then negb (SignalState_eqb (get_signal_state signal_controller side) GREEN)
      else false
  | WEST =>
      let stop_x := cx + half in
      if between (stop_x - stop_band) (x self) (stop_x + stop_band)
      then negb (SignalState_eqb (get_signal_state signal_controller side) GREEN)
      else false
  end.

(** The test of one candidate [other] inside the loop of [get_car_ahead]. *)
Definition is_ahead (self other : t) : bool :=
  if Nat.eqb (ident other) (ident self)
     || negb (Direction_eqb (direction other) (direction self))
  then false
  else
    let lane := inject_Z Config.LANE_WIDTH in
    match direction self with
    | NORTH =>
        (y other <? y self) && (Qabs (x other - x self) <? lane)
        && between 0 (y self - y other) Config.SAFE_DISTANCE
    | SOUTH =>
        (y self <? y other) && (Qabs (x other - x self) <? lane)
        && between 0 (y other - y self) Config.SAFE_DISTANCE
    | EAST =>
        (x self <? x other) && (Qabs (y other - y self) <? lane)
        && between 0 (x other - x self) Config.SAFE_DISTANCE
    | WEST =>
        (x other <? x self) && (Qabs (y other - y self) <? lane)
        && between 0 (x self - x other) Config.SAFE_DISTANCE
    end.

(** The first car of [cars] that qualifies, or [None]. *)
Definition get_car_ahead (self : t) (cars : list t) : option t :=
  find (is_ahead self) cars.

Definition is_some {A : Type} (o : option A) : bool :=
  match o with Some _ => true | None => false end.

Definition update {S : Type} `{SignalSource S}
    (self : t) (cars : list t) (signal_controller : S) (dt_sim : Q) : t :=
  let step_scale := dt_sim * Config.FPS in
  let old_x := x self in
  let old_y := y self in
  (* signal compliance (ambulances preempt) *)
  let should_stop := should_stop_at_signal self signal_controller in
  let should_stop := if is_ambulance self then false else should_stop in
  (* car-following *)
  let car_ahead := get_car_ahead self cars in
  let self :=
    if should_stop || is_some car_ahead then
      let v := Qmax 0 (speed self - Config.CAR_ACCELERATION * 2.0 * step_scale) in
      set_is_stopped (v <=? 1e-3) (set_speed v self)
    else
      let v := Qmin (max_speed self)
                    (speed self + Config.CAR_ACCELERATION * step_scale) in
      set_is_stopped false (set_speed v self) in
  (* integrate position *)
  let delta := speed self * step_scale in
  let self :=
    match direction self with
    | NORTH => set_y (y self - delta) self
    | SOUTH => set_y (y self + delta) self
    | EAST => set_x (x self + delta) self
    | WEST => set_x (x self - delta) self
    end in
  (* waiting time (sim-time) *)
  if is_stopped self
     && ((Qabs (x self - old_x) <? 1e-3) && (Qabs (y self - old_y) <? 1e-3))
  then set_waiting_time (waiting_time self + dt_sim) self
  else self.

Definition is_off_screen (self : t) : bool :=
  let m := 100 in
  (x self <? - m) || (inject_Z Config.WINDOW_WIDTH + m <? x self)
  || (y self <? - m) || (inject_Z Config.WINDOW_HEIGHT + m <? y self).

End Car.

(** ** [collections.deque(maxlen=n)] *)

(** [d.append(v)] on a bounded deque: the oldest entries are dropped once
    the capacity is exceeded. *)
Definition deque_append {A : Type} (maxlen : nat) (d : list A) (v : A) : list A :=
  let d' := d ++ [v] in
  skipn (length d' - maxlen) d'.

(** ** [class SignalController] *)

Module SignalController.

Record t : Type := mk {
  controller_type : string;
  main_signal : SignalState;
  side_signal : SignalState;
  (* sim-time clocks *)
  signal_timer : Q;
  current_green_time : Q;
  last_ai_update : Q;
  last_switch_time : Q;
  (* last green timestamps *)
  main_last_green : Q;
  side_last_green : Q;
  (* switching FSM *)
  switching : bool;
  switch_stage : Z;
  switch_start_time : Q;
  (* arrival_history['main'], arrival_history['side'] *)
  arrival_history_main : list Q;
  arrival_history_side : list Q
}.

Definition init (controller_type : string) (start_sim_time : Q) : t :=
  mk controller_type GREEN RED
     0 0 start_sim_time (start_sim_time - Config.COOLDOWN_TIME)
     start_sim_time start_sim_time
     false 0 start_sim_time
     [] [].

Definition set_main_signal (v : SignalState) (s : t) : t :=
  mk (controller_type s) v (side_signal s) (signal_timer s)
     (current_green_time s) (last_ai_update s) (last_switch_time s)
     (main_last_green s) (side_last_green s) (switching s) (switch_stage s)
     (switch_start_time s) (arrival_history_main s) (arrival_history_side s).
Definition set_side_signal (v : SignalState) (s : t) : t :=
  mk (controller_type s) (main_signal s) v (signal_timer s)
     (current_green_time s) (last_ai_update s) (last_switch_time s)
     (main_last_green s) (side_last_green s) (switching s) (switch_stage s)
     (switch_start_time s) (arrival_history_main s) (arrival_history_side s).
Definition set_signal_timer (v : Q) (s : t) : t :=
  mk (controller_type s) (main_signal s) (side_signal s) v
     (current_green_time s) (last_ai_update s) (last_switch_time s)
     (main_last_green s) (side_last_green s) (switching s) (switch_stage s)
     (switch_start_time s) (arrival_history_main s) (arrival_history_side s).
Definition set_current_green_time (v : Q) (s : t) : t :=
  mk (controller_type s) (main_signal s) (side_signal s) (signal_timer s)
     v (last_ai_update s) (last_switch_time s)
     (main_last_green s) (side_last_green s) (switching s) (switch_stage s)
     (switch_start_time s) (arrival_history_main s) (arrival_history_side s).
Definition set_last_ai_update (v : Q) (s : t) : t :=
  mk (controller_type s) (main_signal s) (side_signal s) (signal_timer s)
     (current_green_time s) v (last_switch_time s)
     (main_last_green s) (side_last_green s) (switching s) (switch_stage s)
     (switch_start_time s) (arrival_history_main s) (arrival_history_side s).
Definition set_last_switch_time (v : Q) (s : t) : t :=
  mk (controller_type s) (main_signal s) (side_signal s) (signal_timer s)
     (current_green_time s) (last_ai_update s) v
     (main_last_green s) (side_last_green s) (switching s) (switch_stage s)
     (switch_start_time s) (arrival_history_main s) (arrival_history_side s).
Definition set_main_last_green (v : Q) (s : t) : t :=
  mk (controller_type s) (main_signal s) (side_signal s) (signal_timer s)
     (current_green_time s) (last_ai_update s) (last_switch_time s)
     v (side_last_green s) (switching s) (switch_stage s)
     (switch_start_time s) (arrival_history_main s) (arrival_history_side s).
Definition set_side_last_green (v : Q) (s : t) : t :=
  mk (controller_type s) (main_signal s) (side_signal s) (signal_timer s)
     (current_green_time s) (last_ai_update s) (last_switch_time s)
     (main_last_green s) v (switching s) (switch_stage s)
     (switch_start_time s) (arrival_history_main s) (arrival_history_side s).
Definition set_switching (v : bool) (s : t) : t :=
  mk (controller_type s) (main_signal s) (side_signal s) (signal_timer s)
     (current_green_time s) (last_ai_update s) (last_switch_time s)
     (main_last_green s) (side_last_green s) v (switch_stage s)
     (switch_start_time s) (arrival_history_main s) (arrival_history_side s).
Definition set_switch_stage (v : Z) (s : t) : t :=
  mk (controller_type s) (main_signal s) (side_signal s) (signal_timer s)
     (current_green_time s) (last_ai_update s) (last_switch_time s)
     (main_last_green s) (side_last_green s) (switching s) v
     (switch_start_time s) (arrival_history_main s) (arrival_history_side s).
Definition set_switch_start_time (v : Q) (s : t) : t :=
  mk (controller_type s) (main_signal s) (side_signal s) (signal_timer s)
     (current_green_time s) (last_ai_update s) (last_switch_time s)
     (main_last_green s) (side_last_green s) (switching s) (switch_stage s)
     v (arrival_history_main s) (arrival_history_side s).
Definition set_arrival_history (road : Road) (v : list Q) (s : t) : t :=
  match road with
  | main =>
      mk (controller_type s) (main_signal s) (side_signal s) (signal_timer s)
         (current_green_time s) (last_ai_update s) (last_switch_time s)
         (main_last_green s) (side_last_green s) (switching s) (switch_stage s)
         (switch_start_time s) v (arrival_history_side s)
  | side =>
      mk (controller_type s) (main_signal s) (side_signal s) (signal_timer s)
         (current_green_time s) (last_ai_update s) (last_switch_time s)
         (main_last_green s) (side_last_green s) (switching s) (switch_stage s)
         (switch_start_time s) (arrival_history_main s) v
  end.

Definition arrival_history (s : t) (road : Road) : list Q :=
  match road with
  | main => arrival_history_main s
  | side => arrival_history_side s
  end.

Definition get_signal_state (self : t) (road : Road) : SignalState :=
  match road with main => main_signal self | side => side_signal self end.

#[global] Instance signal_source : SignalSource t := get_signal_state.

Definition record_arrival (self : t) (road : Road) (sim_time : Q) : t :=
  set_arrival_history road
    (deque_append 200 (arrival_history self road) sim_time) self.

Definition update_fixed_signals (self : t) : t :=
  let cycle := Config.FIXED_GREEN_TIME * 2
               + Config.FIXED_YELLOW_TIME * 2
               + Config.FIXED_ALL_RED_TIME * 2 in
  let pos := Qmod (signal_timer self) cycle in
  if pos <? Config.FIXED_GREEN_TIME then
    set_side_signal RED (set_main_signal GREEN self)
  else if pos <? Config.FIXED_GREEN_TIME + Config.FIXED_YELLOW_TIME then
    set_side_signal RED (set_main_signal YELLOW self)
  else if pos <? Config.FIXED_GREEN_TIME + Config.FIXED_YELLOW_TIME
                 + Config.FIXED_ALL_RED_TIME then
    set_side_signal ALL_RED (set_main_signal ALL_RED self)
  else if pos <? Config.FIXED_GREEN_TIME * 2 + Config.FIXED_YELLOW_TIME
                 + Config.FIXED_ALL_RED_TIME then
    set_side_signal GREEN (set_main_signal RED self)
  else if pos <? Config.FIXED_GREEN_TIME * 2 + Config.FIXED_YELLOW_TIME * 2
                 + Config.FIXED_ALL_RED_TIME then
    set_side_signal YELLOW (set_main_signal RED self)
  else
    set_side_signal ALL_RED (set_main_signal ALL_RED self).

Definition on_main_road (d : Direction) : bool :=
  match d with NORTH | SOUTH => true | EAST | WEST => false end.
Definition on_side_road (d : Direction) : bool :=
  match d with EAST | WEST => true | NORTH | SOUTH => false end.

Definition get_queue_length (cars : list Car.t) (road : Road) : Z :=
  let cx := inject_Z (Config.WINDOW_WIDTH / 2) in
  let cy := inject_Z (Config.WINDOW_HEIGHT / 2) in
  fold_left
    (fun count car =>
       match road with
       | main =>
           if on_main_road (Car.direction car)
              && (Car.is_stopped car
                  && (Qabs (Car.x car - cx) <? inject_Z Config.LANE_WIDTH * 1.5))
           then (count + 1)%Z else count
       | side =>
           if on_side_road (Car.direction car)
              && (Car.is_stopped car
                  && (Qabs (Car.y car - cy) <? inject_Z Config.LANE_WIDTH * 1.5))
           then (count + 1)%Z else count
       end)
    cars 0%Z.

Definition get_arrival_rate (self : t) (road : Road) (sim_time : Q) : Q :=
  let hist := arrival_history self road in
  if (length hist <? 2)%nat then 0
  else
    let recent := length (filter (fun t0 => sim_time - t0 <? 10.0) hist) in
    inject_Z (Z.of_nat recent) / 10.0.

Definition get_average_wait_time (cars : list Car.t) (road : Road) : Q :=
  let cx := inject_Z (Config.WINDOW_WIDTH / 2) in
  let cy := inject_Z (Config.WINDOW_HEIGHT / 2) in
  let waits :=
    fold_left
      (fun waits car =>
         match road with
         | main =>
             if on_main_road (Car.direction car)
             then if Qabs (Car.x car - cx) <? inject_Z Config.LANE_WIDTH * 2
                  then waits ++ [Car.waiting_time car] else waits
             else waits
         | side =>
             if on_side_road (Car.direction car)
             then if Qabs (Car.y car - cy) <? inject_Z Config.LANE_WIDTH * 2
                  then waits ++ [Car.waiting_time car] else waits
             else waits
         end)
      cars [] in
  match waits with
  | [] => 0
  | _ => Qsum waits / inject_Z (Z.of_nat (length waits))
  end.

Definition calculate_pressure (self : t) (cars : list Car.t) (road : Road)
    (sim_time : Q) : Q :=
  let q := get_queue_length cars road in
  let arr_rate := get_arrival_rate self road sim_time in
  let avg_wait := get_average_wait_time cars road in
  let avg_wait_norm := Qmin (avg_wait / 60.0) 1.0 in
  inject_Z q + (Config.PRESSURE_ALPHA * arr_rate * 10.0)
  + (Config.PRESSURE_BETA * avg_wait_norm * 10.0).

Definition initiate_signal_switch (self : t) (sim_time : Q) : t :=
  let self := set_switching true self in
  let self := set_switch_stage 0 self in
  let self := set_switch_start_time sim_time self in
  let self := set_last_switch_time sim_time self in
  (* record who had green last *)
  let self :=
    if SignalState_eqb (main_signal self) GREEN then
      set_main_last_green sim_time self
    else if SignalState_eqb (side_signal self) GREEN then
      set_side_last_green sim_time self
    else self in
  set_current_green_time 0 self.

Definition handle_signal_switching (self : t) (sim_time : Q) : t :=
  let elapsed := sim_time - switch_start_time self in
  if (switch_stage self =? 0)%Z then
    (* yellow *)
    let self :=
      if SignalState_eqb (main_signal self) GREEN then
        set_main_signal YELLOW self
      else if SignalState_eqb (side_signal self) GREEN then
        set_side_signal YELLOW self
      else self in
    if Config.FIXED_YELLOW_TIME <=? elapsed then
      set_switch_start_time sim_time (set_switch_stage 1 self)
    else self
  else if (switch_stage self =? 1)%Z then
    (* all red *)
    let self := set_side_signal ALL_RED (set_main_signal ALL_RED self) in
    if Config.FIXED_ALL_RED_TIME <=? elapsed then
      set_switch_start_time sim_time (set_switch_stage 2 self)
    else self
  else if (switch_stage self =? 2)%Z then
    (* grant green to the road that was not just green *)
    let self :=
      if side_last_green self <? main_last_green self then
        set_main_signal RED (set_side_signal GREEN self)
      else
        set_side_signal RED (set_main_signal GREEN self) in
    set_current_green_time 0 (set_switching false self)
  else self.

Definition make_ai_decision (self : t) (cars : list Car.t) (sim_time : Q) : t :=
  let main_p := calculate_pressure self cars main sim_time in
  let side_p := calculate_pressure self cars side sim_time in
  let active_is_main := SignalState_eqb (main_signal self) GREEN in
  let active_p := if active_is_main then main_p else side_p in
  let waiting_p := if active_is_main then side_p else main_p in
  let should_switch := false in
  let time_since_switch := sim_time - last_switch_time self in
  let should_switch :=
    if (Config.MIN_GREEN_TIME <=? current_green_time self)
       && (Config.COOLDOWN_TIME <=? time_since_switch)
    then if active_p + Config.HYSTERESIS_MARGIN <? waiting_p
         then true else should_switch
    else should_switch in
  let should_switch :=
    if Config.MAX_GREEN_TIME <=? current_green_time self
    then true else should_switch in
  if should_switch then initiate_signal_switch self sim_time else self.

Definition update_ai_signals (self : t) (cars : list Car.t) (sim_time : Q) : t :=
  if switching self then handle_signal_switching self sim_time
  else
    let self :=
      if Config.AI_UPDATE_INTERVAL <=? sim_time - last_ai_update self then
        set_last_ai_update sim_time (make_ai_decision self cars sim_time)
      else self in
    (* anti-starvation *)
    let active := if SignalState_eqb (main_signal self) GREEN then main else side in
    let waiting := match active with main => side | side => main end in
    let waiting_last :=
      match waiting with
      | main => main_last_green self
      | side => side_last_green self
      end in
    let waiting_time := sim_time - waiting_last in
    if (Config.ANTI_STARVATION_TIME <? waiting_time)
       && (Config.MIN_GREEN_TIME <? current_green_time self)
    then initiate_signal_switch self sim_time
    else self.

Definition update (self : t) (cars : list Car.t) (dt_sim sim_time : Q) : t :=
  let self := set_signal_timer (signal_timer self + dt_sim) self in
  let self := set_current_green_time (current_green_time self + dt_sim) self in
  if String.eqb (controller_type self) "fixed"%string
  then update_fixed_signals self
  else update_ai_signals self cars sim_time.


End SignalController.

(** ** [class MetricsCollector] *)

Module MetricsCollector.

Record t : Type := mk {
  total_cars_spawned : Z;
  total_cars_exited : Z;
  total_wait_time : Q;
  sim_start_time : Q;
  throughput_history : list Q      (* deque(maxlen=400) *)
}.

Definition reset (start_sim_time : Q) : t :=
  mk 0 0 0 start_sim_time [].

(** [__init__] is [self.reset(0.0)]. *)
Definition init : t := reset 0.0.

Definition record_car_spawn (self : t) : t :=
  mk (total_cars_spawned self + 1) (total_cars_exited self)
     (total_wait_time self) (sim_start_time self) (throughput_history self).

(** Mutates both the collector and the car ([car.exit_time]). *)
Definition record_car_exit (self : t) (car : Car.t) (sim_time : Q)
    : t * Car.t :=
  (mk (total_cars_spawned self)
      (total_cars_exited self + 1)
      (total_wait_time self + Car.waiting_time car)
      (sim_start_time self)
      (deque_append 400 (throughput_history self) sim_time),
   Car.set_exit_time (Some sim_time) car).

Definition get_average_wait_time (self : t) : Q :=
  if (total_cars_exited self =? 0)%Z then 0.0
  else total_wait_time self / inject_Z (total_cars_exited self).

Definition get_throughput_per_minute (self : t) (sim_time : Q) : Z :=
  Z.of_nat
    (length (filter (fun t0 => sim_time - t0 <? 60.0) (throughput_history self))).

Definition get_simulation_time (self : t) (sim_time : Q) : Q :=
  sim_time - sim_start_time self.

(** A run of the collector: the exits recorded one after the other. *)
Definition record_exits (self : t) (exits : list (Car.t * Q)) : t :=
  fold_left (fun m e => fst (record_car_exit m (fst e) (snd e))) exits self.

End MetricsCollector.

(** ** [pygame.Rect], as far as [update_cars] uses it *)

Module Rect.
Record t : Type := mk { left : Z; top : Z; width : Z; height : Z }.

(** [r.inflate(dx, dy)]: grows the rectangle around its centre. *)
Definition inflate (r : t) (dx dy : Z) : t :=
  mk (left r - dx / 2) (top r - dy / 2) (width r + dx) (height r + dy).

(** [r.collidepoint(px, py)]: the right and bottom edges are outside. *)
Definition collidepoint (r : t) (px py : Z) : bool :=
  ((left r <=? px) && (px <? left r + width r)
   && (top r <=? py) && (py <? top r + height r))%Z.
End Rect.

(** ** The module [random]: a stream of draws from [[0, 1)] and a cursor *)

Module Random.
Record t : Type := mk { draws : nat -> Q; cursor : nat }.

(** [random.random()] *)
Definition random (g : t) : Q * t :=
  (draws g (cursor g), mk (draws g) (S (cursor g))).

(** [random.choice(seq)] for a sequence of [n] elements: the index chosen. *)
Definition choice (n : nat) (g : t) : nat * t :=
  let (u, g) := random g in
  (Z.to_nat (Qfloor (u * inject_Z (Z.of_nat n))), g).
End Random.

(** ** [class TrafficSimulation]: clock, arrivals, vehicle updates *)

Module TrafficSimulation.

Record t : Type := mk {
  cars : list Car.t;
  signal_controller : SignalController.t;   (* set by start_simulation *)
  metrics : MetricsCollector.t;
  running : bool;
  simulation_speed : Q;
  incident_active : bool;
  ambulance_mode : bool;
  show_menu : bool;
  sim_time : Q;
  dt_sim : Q;
  next_ident : nat                          (* identity of the next Car object *)
}.

Definition set_cars (v : list Car.t) (s : t) : t :=
  mk v (signal_controller s) (metrics s) (running s) (simulation_speed s)
     (incident_active s) (ambulance_mode s) (show_menu s) (sim_time s)
     (dt_sim s) (next_ident s).
Definition set_signal_controller (v : SignalController.t) (s : t) : t :=
  mk (cars s) v (metrics s) (running s) (simulation_speed s)
     (incident_active s) (ambulance_mode s) (show_menu s) (sim_time s)
     (dt_sim s) (next_ident s).
Definition set_metrics (v : MetricsCollector.t) (s : t) : t :=
  mk (cars s) (signal_controller s) v (running s) (simulation_speed s)
     (incident_active s) (ambulance_mode s) (show_menu s) (sim_time s)
     (dt_sim s) (next_ident s).
Definition set_simulation_speed (v : Q) (s : t) : t :=
  mk (cars s) (signal_controller s) (metrics s) (running s) v
     (incident_active s) (ambulance_mode s) (show_menu s) (sim_time s)
     (dt_sim s) (next_ident s).
Definition set_clock (time dt : Q) (s : t) : t :=
  mk (cars s) (signal_controller s) (metrics s) (running s) (simulation_speed s)
     (incident_active s) (ambulance_mode s) (show_menu s) time dt (next_ident s).
Definition set_next_ident (v : nat) (s : t) : t :=
  mk (cars s) (signal_controller s) (metrics s) (running s) (simulation_speed s)
     (incident_active s) (ambulance_mode s) (show_menu s) (sim_time s)
     (dt_sim s) v.

(** [start_simulation(mode)] *)
Definition start_simulation (self : t) (mode : string) : t :=
  mk [] (SignalController.init mode (sim_time self))
     (MetricsCollector.reset (sim_time self))
     true (simulation_speed self) false false false
     (sim_time self) (dt_sim self) (next_ident self).

(** The SPACE key while running. *)
Definition toggle_speed (self : t) : t :=
  set_simulation_speed
    (if Qeq_bool (simulation_speed self) 1.0 then 2.0 else 1.0) self.

(** The clock of [run]: [ms] is what [clock.tick(Config.FPS)] returned. *)
Definition advance_clock (self : t) (ms : Z) : t :=
  let dt_real := inject_Z ms / 1000.0 in
  let dt := dt_real * simulation_speed self in
  set_clock (sim_time self + dt) dt self.

Definition incident_rect : Rect.t :=
  let cx := (Config.WINDOW_WIDTH / 2)%Z in
  let cy := (Config.WINDOW_HEIGHT / 2)%Z in
  Rect.mk (cx + 20) (cy - 60) 40 30.

(** The car of the live list with a given identity. *)
Definition find_car (id : nat) (l : list Car.t) : option Car.t :=
  find (fun c => Nat.eqb (Car.ident c) id) l.

(** In-place mutation of a car that the list [l] refers to. *)
Fixpoint store_car (c : Car.t) (l : list Car.t) : list Car.t :=
  match l with
  | [] => []
  | c0 :: l' =>
      if Nat.eqb (Car.ident c0) (Car.ident c) then c :: l'
      else c0 :: store_car c l'
  end.

(** [l.remove(c)] *)
Fixpoint remove_car (c : Car.t) (l : list Car.t) : list Car.t :=
  match l with
  | [] => []
  | c0 :: l' =>
      if Nat.eqb (Car.ident c0) (Car.ident c) then l'
      else c0 :: remove_car c l'
  end.

(** The body of the loop of [update_cars] for one car of the snapshot. *)
Definition update_one_car (self : t) (car : Car.t) : t :=
  (* restore base max speed *)
  let car := Car.set_max_speed Config.CAR_MAX_SPEED car in
  let car :=
    if incident_active self && negb (Car.is_ambulance car) then
      let expand := 30%Z in
      let inc := Rect.inflate incident_rect expand expand in
      if Rect.collidepoint inc (Qtrunc (Car.x car)) (Qtrunc (Car.y car))
      then Car.set_max_speed (Qmin (Car.max_speed car) 1.5) car
      else car
    else car in
  let self := set_cars (store_car car (cars self)) self in
  let car := Car.update car (cars self) (signal_controller self) (dt_sim self) in
  let self := set_cars (store_car car (cars self)) self in
  if Car.is_off_screen car then
    let (m, car) := MetricsCollector.record_car_exit (metrics self) car (sim_time self) in
    set_cars (remove_car car (cars self)) (set_metrics m self)
  else self.

(** [for car in self.cars[:]]: the snapshot is walked by identity, each
    car being read from the live list when its turn comes. *)
Definition update_cars (self : t) : t :=
  fold_left
    (fun s id =>
       match find_car id (cars s) with
       | Some car => update_one_car s car
       | None => s
       end)
    (map Car.ident (cars self)) self.

Section Arrivals.

(** [math.exp] *)
Variable exp : Q -> Q.

(** The local function [event(dt, rate_per_sec)] of [spawn_cars]. *)
Definition event (dt rate_per_sec : Q) (g : Random.t) : bool * Random.t :=
  let p := 1.0 - exp (- rate_per_sec * dt) in
  let (u, g) := Random.random g in
  (u <? p, g).

(** [self.ambulance_mode and (random.random() < 0.10)] *)
Definition draw_ambulance (self : t) (g : Random.t) : bool * Random.t :=
  if ambulance_mode self then
    let (u, g) := Random.random g in (u <? 0.10, g)
  else (false, g).

(** [Car(...)]: an ordinary car draws its colour. *)
Definition new_car (self : t) (x0 y0 : Q) (d : Direction) (amb : bool)
    (g : Random.t) : Car.t * Random.t :=
  if amb then
    (Car.init (next_ident self) x0 y0 d amb Config.CAR_COLORS_len (sim_time self), g)
  else
    let (col, g) := Random.choice Config.CAR_COLORS_len g in
    (Car.init (next_ident self) x0 y0 d amb col (sim_time self), g).

(** [self.cars.append(car)], [record_car_spawn()], [record_arrival(road, sim_time)] *)
Definition enroll_car (self : t) (car : Car.t) (road : Road) : t :=
  let self := set_cars (cars self ++ [car]) self in
  let self := set_next_ident (S (next_ident self)) self in
  let self := set_metrics (MetricsCollector.record_car_spawn (metrics self)) self in
  set_signal_controller
    (SignalController.record_arrival (signal_controller self) road (sim_time self))
    self.

Definition spawn_cars (self : t) (g : Random.t) : t * Random.t :=
  let base_per_sec := Config.BASE_SPAWN_RATE * Config.FPS in
  let main_rate := base_per_sec * Config.MAIN_ROAD_MULTIPLIER in
  let side_rate := base_per_sec * Config.SIDE_ROAD_MULTIPLIER in
  (* main road spawn (N/S) *)
  let (fire, g) := event (dt_sim self) main_rate g in
  let (self, g) :=
    if fire then
      let (i, g) := Random.choice 2 g in
      let direction := match i with O => NORTH | _ => SOUTH end in
      let (is_ambulance, g) := draw_ambulance self g in
      let cx := (Config.WINDOW_WIDTH / 2)%Z in
      let (car, g) :=
        match direction with
        | NORTH =>
            new_car self (inject_Z (cx - Config.LANE_WIDTH / 2))
                    (inject_Z (Config.WINDOW_HEIGHT + 50)) direction is_ambulance g
        | _ =>
            new_car self (inject_Z (cx + Config.LANE_WIDTH / 2))
                    (- 50) direction is_ambulance g
        end in
      (enroll_car self car main, g)
    else (self, g) in
  (* side road spawn (E/W) *)
  let (fire, g) := event (dt_sim self) side_rate g in
  if fire then
    let (i, g) := Random.choice 2 g in
    let direction := match i with O => EAST | _ => WEST end in
    let (is_ambulance, g) := draw_ambulance self g in
    let cy := (Config.WINDOW_HEIGHT / 2)%Z in
    let (car, g) :=
      match direction with
      | EAST =>
          new_car self (- 50) (inject_Z (cy - Config.LANE_WIDTH / 2))
                  direction is_ambulance g
      | _ =>
          new_car self (inject_Z (Config.WINDOW_WIDTH + 50))
                  (inject_Z (cy + Config.LANE_WIDTH / 2)) direction is_ambulance g
      end in
    (enroll_car self car side, g)
  else (self, g).

(** One iteration of the loop of [run], drawing and events left out. *)
Definition step (self : t) (ms : Z) (g : Random.t) : t * Random.t :=
  let self := advance_clock self ms in
  if show_menu self then (self, g)
  else if running self then
    let (self, g) := spawn_cars self g in
    let self := update_cars self in
    (set_signal_controller
       (SignalController.update (signal_controller self) (cars self)
                                (dt_sim self) (sim_time self))
       self, g)
  else (self, g).

(** Consecutive iterations, one per clock reading. *)
Fixpoint steps (self : t) (mss : list Z) (g : Random.t) : t * Random.t :=
  match mss with
  | [] => (self, g)
  | ms :: mss' => let (self, g) := step self ms g in steps self mss' g
  end.

End Arrivals.

End TrafficSimulation.

(** * Runs of the signal controller *)

(** The length of the fixed cycle, as [update_fixed_signals] computes it. *)
Definition fixed_cycle : Q :=
  Config.FIXED_GREEN_TIME * 2 + Config.FIXED_YELLOW_TIME * 2
  + Config.FIXED_ALL_RED_TIME * 2.

(** The pair of lights shown to the two roads. *)
Definition lights (s : SignalController.t) : SignalState * SignalState :=
  (SignalController.main_signal s, SignalController.side_signal s).

(** The states a controller can be in: it is constructed in either mode
    at any start time, and from then on only [update] (once per tick, with
    whatever vehicles, step and time) and [record_arrival] act on it. *)
Inductive reachable : SignalController.t -> Prop :=
| reachable_init : forall (controller_type : string) (start_sim_time : Q),
    reachable (SignalController.init controller_type start_sim_time)
| reachable_update : forall s (cars : list Car.t) (dt_sim sim_time : Q),
    reachable s ->
    reachable (SignalController.update s cars dt_sim sim_time)
| reachable_arrival : forall s (road : Road) (sim_time : Q),
    reachable s ->
    reachable (SignalController.record_arrival s road sim_time).

(** * The pressure score, in the words of the specification *)

(** Arrival rate: the count of history entries newer than 10 simulated
    seconds, divided by 10. *)
Definition spec_arrival_rate (hist : list Q) (sim_time : Q) : Q :=
  inject_Z (Z.of_nat (length (filter (fun t0 => sim_time - t0 <? 10) hist))) / 10.

(** pressure = queue_length + alpha (arrivals_in_last_10s / 10) 10
               + beta min(avg_wait / 60, 1) 10 *)
Definition spec_pressure (s : SignalController.t) (cars : list Car.t)
    (road : Road) (sim_time : Q) : Q :=
  inject_Z (SignalController.get_queue_length cars road)
  + Config.PRESSURE_ALPHA
    * spec_arrival_rate (SignalController.arrival_history s road) sim_time * 10
  + Config.PRESSURE_BETA
    * Qmin (SignalController.get_average_wait_time cars road / 60) 1 * 10.

(** The road that the adaptive controller treats as being served, and the
    other one. *)
Definition active_road (s : SignalController.t) : Road :=
  if SignalState_eqb (SignalController.main_signal s) GREEN then main else side.

Definition other_road (r : Road) : Road :=
  match r with main => side | side => main end.

Definition waiting_road (s : SignalController.t) : Road :=
  other_road (active_road s).

Definition last_green (s : SignalController.t) (r : Road) : Q :=
  match r with
  | main => SignalController.main_last_green s
  | side => SignalController.side_last_green s
  end.

(** A queue of [n] stopped cars on one approach, none of which has waited. *)
Fixpoint stopped_queue (d : Direction) (first_id n : nat) : list Car.t :=
  match n with
  | O => []
  | S n' =>
      let c :=
        match d with
        | NORTH => Car.init first_id 580 (inject_Z (Z.of_nat n') * 40 + 520) d false 0 0
        | SOUTH => Car.init first_id 620 (280 - inject_Z (Z.of_nat n') * 40) d false 0 0
        | EAST => Car.init first_id (280 - inject_Z (Z.of_nat n') * 40) 380 d false 0 0
        | WEST => Car.init first_id (inject_Z (Z.of_nat n') * 40 + 720) 420 d false 0 0
        end in
      Car.set_is_stopped true c :: stopped_queue d (S first_id) n'
  end.

(** The two scores that [make_ai_decision] compares. *)
Definition active_pressure (s : SignalController.t) (cars : list Car.t)
    (sim_time : Q) : Q :=
  SignalController.calculate_pressure s cars (active_road s) sim_time.

Definition waiting_pressure (s : SignalController.t) (cars : list Car.t)
    (sim_time : Q) : Q :=
  SignalController.calculate_pressure s cars (waiting_road s) sim_time.

(** Five cars queued on each road; two arrivals recorded on the side road,
    of which [fresh] tells whether the older one is still inside the window
    at time 50. *)
Definition two_queues : list Car.t :=
  stopped_queue NORTH 0 5 ++ stopped_queue EAST 5 5.

Definition controller_with_arrivals (first_arrival green_time : Q)
    : SignalController.t :=
  SignalController.set_current_green_time green_time
    (SignalController.record_arrival
       (SignalController.record_arrival (SignalController.init "ai" 0)
                                        side first_arrival)
       side 45).

(** * Runs of one vehicle *)

(** One call of [Car.update]: the vehicles around, the controller, the step. *)
Definition car_tick (S : Type) : Type := (list Car.t * S * Q)%type.

Definition car_run {S : Type} `{SignalSource S} (c : Car.t)
    (ticks : list (car_tick S)) : Car.t :=
  fold_left
    (fun c tk => Car.update c (fst (fst tk)) (snd (fst tk)) (snd tk))
    ticks c.

Definition tick_step {S : Type} (tk : car_tick S) : Q := snd tk.

(** * Runs of the simulation *)

(** Distance covered between two states of a vehicle (it moves along one
    axis). *)
Definition travelled (c c' : Car.t) : Q :=
  Qabs (Car.x c' - Car.x c) + Qabs (Car.y c' - Car.y c).

(** A running simulation with a single car on the side road, well before
    the stop line, at a given speed multiplier. *)
Definition lone_car : Car.t := Car.init 0 0 380 EAST false 0 0.

Definition one_car_simulation (multiplier : Q) : TrafficSimulation.t :=
  TrafficSimulation.mk [lone_car] (SignalController.init "fixed" 0)
    (MetricsCollector.reset 0) true multiplier false false false 0 0 1.

(** One iteration of the main loop in which no vehicle arrives. *)
Definition quiet_step (s : TrafficSimulation.t) (ms : Z) : TrafficSimulation.t :=
  let s := TrafficSimulation.update_cars (TrafficSimulation.advance_clock s ms) in
  TrafficSimulation.set_signal_controller
    (SignalController.update (TrafficSimulation.signal_controller s)
       (TrafficSimulation.cars s) (TrafficSimulation.dt_sim s)
       (TrafficSimulation.sim_time s))
    s.


(** 32 simulated milliseconds, as two ticks of 16 ms at multiplier 1.0 and
    as one tick of 16 ms at multiplier 2.0. *)
Definition run_at_1x : TrafficSimulation.t :=
  quiet_step (quiet_step (one_car_simulation 1.0) 16) 16.

Definition run_at_2x : TrafficSimulation.t :=
  quiet_step (one_car_simulation 2.0) 16.

(** The positions of the vehicles of a simulation, in list order. *)
Definition positions (s : TrafficSimulation.t) : list (Q * Q) :=
  map (fun c => (Car.x c, Car.y c)) (TrafficSimulation.cars s).

(** A vehicle that nothing makes brake in this tick. *)
Definition unobstructed {S : Type} `{SignalSource S}
    (c : Car.t) (cars : list Car.t) (sc : S) : Prop :=
  Car.get_car_ahead c cars = None
  /\ (Car.is_ambulance c = true \/ Car.should_stop_at_signal c sc = false).

(** * The controller on the simulation clock *)

(** Road [r] is shown colour [c] and the other road RED. *)
Definition shows (r : Road) (c : SignalState) (s : SignalController.t) : Prop :=
  lights s = match r with main => (c, RED) | side => (RED, c) end.

(** A controller [s] at simulated time [t] of a run: it is created at the
    current time, every tick advances the time by a positive step and
    passes the new time to [update], and arrivals are recorded in
    between. *)
Inductive clocked : SignalController.t -> Q -> Prop :=
| clocked_init : forall (controller_type : string) (start_sim_time : Q),
    clocked (SignalController.init controller_type start_sim_time) start_sim_time
| clocked_update : forall s t (cars : list Car.t) (dt_sim : Q),
    clocked s t -> 0 < dt_sim ->
    clocked (SignalController.update s cars dt_sim (t + dt_sim)) (t + dt_sim)
| clocked_arrival : forall s t (road : Road) (sim_time : Q),
    clocked s t ->
    clocked (SignalController.record_arrival s road sim_time) t.

(** The simulated time after [n] further ticks with steps [dts 0], [dts 1], ... *)
Fixpoint time_after (t : Q) (dts : nat -> Q) (n : nat) : Q :=
  match n with
  | O => t
  | S n' => time_after t dts n' + dts n'
  end.

(** The controller after [n] further ticks; tick [i] sees the vehicles
    [cars i]. *)
Fixpoint run_ticks (s : SignalController.t) (t : Q) (dts : nat -> Q)
    (cars : nat -> list Car.t) (n : nat) : SignalController.t :=
  match n with
  | O => s
  | S n' =>
      SignalController.update (run_ticks s t dts cars n') (cars n') (dts n')
                              (time_after t dts (S n'))
  end.

(** An adaptive controller in the middle of a switch: the stage, the time
    the stage began, and the two last-green timestamps. *)
Definition mid_switch (s : SignalController.t) (stage : Z) (a m d : Q) : Prop :=
  SignalController.controller_type s <> "fixed"%string
  /\ SignalController.switching s = true
  /\ SignalController.switch_stage s = stage
  /\ SignalController.switch_start_time s == a
  /\ SignalController.main_last_green s = m
  /\ SignalController.side_last_green s = d.

(** What holds of an adaptive controller at simulated time [t].  While it
    is idle one road is GREEN and the other RED, and both last-green
    timestamps lie before the start of the present green.  During a
    switch, [was] is the road that held green when the switch began: its
    timestamp is the younger one. *)
Definition clock_inv (s : SignalController.t) (t : Q) : Prop :=
  if SignalController.switching s then
    exists was : Road,
      last_green s (other_road was) < last_green s was
      /\ last_green s was <= t
      /\ ((SignalController.switch_stage s = 0%Z /\ shows was GREEN s
           /\ SignalController.switch_start_time s == t)
          \/ (SignalController.switch_stage s = 0%Z /\ shows was YELLOW s
              /\ SignalController.switch_start_time s < t)
          \/ SignalController.switch_stage s = 1%Z
          \/ SignalController.switch_stage s = 2%Z)
  else
    (shows main GREEN s \/ shows side GREEN s)
    /\ 0 <= SignalController.current_green_time s
    /\ SignalController.main_last_green s <= t - SignalController.current_green_time s
    /\ SignalController.side_last_green s <= t - SignalController.current_green_time s.

(** The switch that has just begun in state [s] at time [t0] runs to its
    end over the coming ticks: the road [was] that held green shows YELLOW
    up to tick [n1], both roads show ALL_RED up to tick [n2], and tick
    [n2 + 1] gives GREEN to the other road, whose last-green timestamp is
    the older one, and RED to [was]. *)
Definition switch_runs_to_completion (s : SignalController.t) (t0 : Q)
    (dts : nat -> Q) (cars : nat -> list Car.t) : Prop :=
  exists (was : Road) (n1 n2 : nat),
    shows was GREEN s
    /\ (1 <= n1 < n2)%nat
    /\ (forall k, (1 <= k <= n1)%nat ->
          SignalController.switching (run_ticks s t0 dts cars k) = true
          /\ shows was YELLOW (run_ticks s t0 dts cars k))
    /\ (forall k, (n1 < k <= n2)%nat ->
          SignalController.switching (run_ticks s t0 dts cars k) = true
          /\ lights (run_ticks s t0 dts cars k) = (ALL_RED, ALL_RED))
    /\ SignalController.switching (run_ticks s t0 dts cars (S n2)) = false
    /\ shows (other_road was) GREEN (run_ticks s t0 dts cars (S n2))
    /\ last_green (run_ticks s t0 dts cars (S n2)) (other_road was)
       < last_green (run_ticks s t0 dts cars (S n2)) was
    /\ SignalController.current_green_time (run_ticks s t0 dts cars (S n2)) = 0.

(** An adaptive controller run for fifty ticks of one second on an empty
    intersection: the fiftieth tick finds the green at its maximum and
    starts a switch. *)
Definition one_second : nat -> Q := fun _ => 1.

Definition no_cars : nat -> list Car.t := fun _ => [].

Definition at_max_green : SignalController.t :=
  run_ticks (SignalController.init "ai" 0) 0 one_second no_cars 50.

Definition time_at_max_green : Q := time_after 0 one_second 50.

(** A car cruising at its maximum speed on the side road, far from the
    stop line. *)
Definition cruising_car : Car.t := Car.set_speed 4.0 lone_car.

(** A random source whose every draw is 0 (a value [random.random()] can
    return). *)
Definition zero_draws (g : Random.t) : Prop :=
  forall n, Random.draws g n == 0.

(** The number of arrivals so far. *)
Definition arrivals (s : TrafficSimulation.t) : Z :=
  MetricsCollector.total_cars_spawned (TrafficSimulation.metrics s).

(** The part of the simulation state that decides whether and how a tick
    runs. *)
Definition controls (s : TrafficSimulation.t) : bool * bool * Q :=
  (TrafficSimulation.running s, TrafficSimulation.show_menu s,
   TrafficSimulation.simulation_speed s).

(** The signal that a signal source shows to a road (the method
    [get_signal_state] of whatever object is passed to a car). *)
Definition signal_of {S : Type} `{SignalSource S} (sc : S) (r : Road)
    : SignalState :=
  get_signal_state sc r.

(** * Further notions and sample inputs *)

Import SignalController.

(** No state shows GREEN to both roads. *)
Definition exclusive (s : SignalController.t) : Prop :=
  ~ (main_signal s = GREEN /\ side_signal s = GREEN).

(** A switch has just been started at time [t]. *)
Definition switch_started (s : SignalController.t) (t : Q) : Prop :=
  switching s = true /\ switch_stage s = 0%Z /\ switch_start_time s = t.

(** A vehicle that creeps: a fresh car accelerates for one tick of
    401/12000 s to speed 0.2005; braking behind another car in the next
    tick of 1/60 s leaves it at speed 0.0005. *)
Definition creeping_car : Car.t :=
  Car.update (Car.init 0 100 380 EAST false 0 0) []
             (SignalController.init "fixed" 0) (401 # 12000).

Definition car_in_front : Car.t := Car.init 1 120 380 EAST false 0 0.

(** A vehicle held at a red light for two ticks, then released. *)
Definition held_car : Car.t := Car.init 0 580 520 NORTH false 0 0.

Definition held_ticks : list (car_tick SignalController.t) :=
  [([held_car], SignalController.set_main_signal RED (SignalController.init "ai" 0), 1 # 60);
   ([held_car], SignalController.set_main_signal RED (SignalController.init "ai" 0), 1 # 60);
   ([held_car], SignalController.init "ai" 0, 1 # 60)].

(** An ambulance at rest in the stop-line window of a red light: alone it
    pulls away; with a vehicle 20 px ahead it stays put.  An ordinary car
    in its place would have stayed put in both cases. *)
Definition red_controller : SignalController.t :=
  SignalController.set_main_signal RED (SignalController.init "ai" 0).

Definition ambulance_at_line : Car.t := Car.init 0 580 520 NORTH true 5 0.

Definition car_20px_ahead : Car.t := Car.init 1 580 500 NORTH false 0 0.

(** What a tick does to an idle adaptive controller: nothing that
    matters, or the start of a switch. *)
Definition idle_tick_outcome (s s' : SignalController.t) (t : Q) : Prop :=
  controller_type s' = controller_type s
  /\ lights s' = lights s
  /\ ((switching s' = false
       /\ current_green_time s' = current_green_time s
       /\ main_last_green s' = main_last_green s
       /\ side_last_green s' = side_last_green s)
      \/ (switching s' = true /\ switch_stage s' = 0%Z
          /\ switch_start_time s' = t
          /\ ((main_signal s = GREEN /\ main_last_green s' = t
               /\ side_last_green s' = side_last_green s)
              \/ (main_signal s <> GREEN /\ side_signal s = GREEN
                  /\ side_last_green s' = t
                  /\ main_last_green s' = main_last_green s)
              \/ (main_signal s <> GREEN /\ side_signal s <> GREEN
                  /\ main_last_green s' = main_last_green s
                  /\ side_last_green s' = side_last_green s)))).


(** * Notions for the further properties *)

(** The road whose signal a direction of travel obeys. *)
Definition road_of (d : Direction) : Road :=
  match d with NORTH | SOUTH => main | EAST | WEST => side end.

(** The coordinate of the stop line a direction of travel meets. *)
Definition stop_line (d : Direction) : Q :=
  match d with
  | NORTH => 500
  | SOUTH => 300
  | EAST => 500
  | WEST => 700
  end.

(** The coordinate of a car along its axis of travel. *)
Definition along (c : Car.t) : Q :=
  match Car.direction c with
  | NORTH | SOUTH => Car.y c
  | EAST | WEST => Car.x c
  end.

(** How far [other] is in front of [c], measured in [c]'s direction of
    travel (negative when it is behind), and how far it is to the side. *)
Definition gap_ahead (c other : Car.t) : Q :=
  match Car.direction c with
  | NORTH => Car.y c - Car.y other
  | SOUTH => Car.y other - Car.y c
  | EAST => Car.x other - Car.x c
  | WEST => Car.x c - Car.x other
  end.

Definition lateral_offset (c other : Car.t) : Q :=
  match Car.direction c with
  | NORTH | SOUTH => Qabs (Car.x other - Car.x c)
  | EAST | WEST => Qabs (Car.y other - Car.y c)
  end.

(** How far [c'] has advanced past [c] in [c]'s direction of travel. *)
Definition advance (c c' : Car.t) : Q := gap_ahead c c'.

(** The stage counter of the switching sequence is one the sequence
    handles. *)
Definition stage_in_range (s : SignalController.t) : Prop :=
  SignalController.switch_stage s = 0%Z
  \/ SignalController.switch_stage s = 1%Z
  \/ SignalController.switch_stage s = 2%Z.

(** The empty run of 49 seconds that precedes [at_max_green]. *)
Definition before_max_green : SignalController.t :=
  run_ticks (SignalController.init "ai" 0) 0 one_second no_cars 49.

(** The test under which [get_queue_length] counts a car for a road. *)
Definition queued_on (road : Road) (car : Car.t) : bool :=
  match road with
  | main =>
      SignalController.on_main_road (Car.direction car)
      && (Car.is_stopped car
          && (Qabs (Car.x car - 600) <? 60))
  | side =>
      SignalController.on_side_road (Car.direction car)
      && (Car.is_stopped car
          && (Qabs (Car.y car - 400) <? 60))
  end.

(** A controller on whose side road two arrivals have been recorded. *)
Definition two_arrivals : SignalController.t :=
  SignalController.record_arrival
    (SignalController.record_arrival (SignalController.init "ai" 0) side 42)
    side 45.

(** Every vehicle that has arrived has left or is on the road. *)
Definition balanced (s : TrafficSimulation.t) : Prop :=
  MetricsCollector.total_cars_spawned (TrafficSimulation.metrics s)
  = (MetricsCollector.total_cars_exited (TrafficSimulation.metrics s)
     + Z.of_nat (length (TrafficSimulation.cars s)))%Z.

(** The point at which a vehicle of a given direction enters. *)
Definition entry_point (d : Direction) : Q * Q :=
  match d with
  | NORTH => (580, 850)
  | SOUTH => (620, - 50)
  | EAST => (- 50, 380)
  | WEST => (1250, 420)
  end.

(** A vehicle as it is enrolled at time [t]: at rest at the entry point
    of its direction, with nothing waited and not yet retired. *)
Definition fresh_car (t : Q) (c : Car.t) : Prop :=
  (Car.x c, Car.y c) = entry_point (Car.direction c)
  /\ Car.speed c = 0 /\ Car.waiting_time c = 0 /\ Car.is_stopped c = false
  /\ Car.spawn_time c = t /\ Car.max_speed c = Config.CAR_MAX_SPEED
  /\ Car.exit_time c = None /\ Car.is_off_screen c = false.


(** The identities of the vehicles on the road are pairwise different and
    older than the next one to be given out. *)
Definition idents_ok (s : TrafficSimulation.t) : Prop :=
  NoDup (map Car.ident (TrafficSimulation.cars s))
  /\ Forall (fun i => (i < TrafficSimulation.next_ident s)%nat)
            (map Car.ident (TrafficSimulation.cars s)).

Definition on_screen (c : Car.t) : Prop := Car.is_off_screen c = false.

(** The body of the loop of [update_cars] for one identity of the
    snapshot. *)
Definition update_cars_body (s : TrafficSimulation.t) (id : nat)
    : TrafficSimulation.t :=
  match TrafficSimulation.find_car id (TrafficSimulation.cars s) with
  | Some car => TrafficSimulation.update_one_car s car
  | None => s
  end.


(** * Properties *)

(** ** Arithmetic of the embedding *)

Lemma Qltb_lt (a b : Q) : (a <? b) = true <-> a < b.
Proof.
  unfold Qltb. rewrite Qlt_alt. destruct (a ?= b); split; congruence.
Qed.

Lemma Qltb_ge (a b : Q) : (a <? b) = false <-> b <= a.
Proof.
  unfold Qltb. rewrite Qle_alt, <- (Qcompare_antisym a b).
  destruct (a ?= b); simpl; split; congruence.
Qed.

Lemma Qleb_le (a b : Q) : (a <=? b) = true <-> a <= b.
Proof. apply Qle_bool_iff. Qed.

Lemma Qleb_gt (a b : Q) : (a <=? b) = false <-> b < a.
Proof.
  split; intro H.
  - apply Qnot_le_lt. intro Hle. apply Qleb_le in Hle. congruence.
  - destruct (a <=? b) eqn:E; [|reflexivity].
    apply Qleb_le in E. exfalso. apply (Qlt_not_le _ _ H E).
Qed.

#[global] Instance Qltb_comp : Proper (Qeq ==> Qeq ==> eq) Qltb.
Proof.
  intros a a' Ha b b' Hb. unfold Qltb. now rewrite Ha, Hb.
Qed.

#[global] Instance Qleb_comp' : Proper (Qeq ==> Qeq ==> eq) Qleb.
Proof. exact Qleb_comp. Qed.

#[global] Instance Qmod_comp : Proper (Qeq ==> Qeq ==> Qeq) Qmod.
Proof.
  intros a a' Ha b b' Hb. unfold Qmod.
  assert (E : Qfloor (a / b) = Qfloor (a' / b')) by (apply Qfloor_comp; now rewrite Ha, Hb).
  rewrite E, Ha, Hb. reflexivity.
Qed.


Lemma SignalState_eqb_eq (a b : SignalState) :
  SignalState_eqb a b = true <-> a = b.
Proof. destruct a, b; simpl; split; congruence. Qed.

Lemma SignalState_eqb_neq (a b : SignalState) :
  SignalState_eqb a b = false <-> a <> b.
Proof. destruct a, b; simpl; split; congruence. Qed.

(** ** The fixed schedule *)

(** The lights that [update_fixed_signals] shows depend on the state only
    through the position in the cycle. *)
Lemma update_fixed_signals_lights (s1 s2 : SignalController.t) :
  Qmod (signal_timer s1) fixed_cycle == Qmod (signal_timer s2) fixed_cycle ->
  lights (update_fixed_signals s1) = lights (update_fixed_signals s2).
Proof.
  intro H. unfold update_fixed_signals, lights. cbv zeta.
  fold fixed_cycle.
  repeat match goal with
  | |- context [Qmod (signal_timer s1) fixed_cycle <? ?c] =>
      rewrite (Qltb_comp _ _ H c c (Qeq_refl c))
  end.
  repeat match goal with
  | |- context [if ?c then _ else _] => destruct c
  end; reflexivity.
Qed.

(** The lights at a timer value given up to [==]. *)
Lemma update_fixed_signals_at (v : Q) (s : SignalController.t) :
  signal_timer s == v ->
  lights (update_fixed_signals s)
  = lights (update_fixed_signals (set_signal_timer v s)).
Proof.
  intro H. apply update_fixed_signals_lights. simpl. now rewrite H.
Qed.

(** C6. In fixed mode (green 20 s, yellow 3 s, all-red 2 s) the lights are
    a function of [signal_timer mod cycle]; at 19.9 s main is GREEN, at
    20.5 s main is YELLOW, at 23.5 s both roads are ALL_RED and at 26 s
    side is GREEN. *)
Theorem fixed_schedule_scenario :
  Config.FIXED_GREEN_TIME == 20 /\ Config.FIXED_YELLOW_TIME == 3
  /\ Config.FIXED_ALL_RED_TIME == 2
  /\ (forall s1 s2,
        Qmod (signal_timer s1) fixed_cycle == Qmod (signal_timer s2) fixed_cycle ->
        lights (update_fixed_signals s1) = lights (update_fixed_signals s2))
  /\ (forall s, signal_timer s == 19.9 ->
        lights (update_fixed_signals s) = (GREEN, RED))
  /\ (forall s, signal_timer s == 20.5 ->
        lights (update_fixed_signals s) = (YELLOW, RED))
  /\ (forall s, signal_timer s == 23.5 ->
        lights (update_fixed_signals s) = (ALL_RED, ALL_RED))
  /\ (forall s, signal_timer s == 26 ->
        lights (update_fixed_signals s) = (RED, GREEN)).
Proof.
  repeat split; try reflexivity.
  - exact update_fixed_signals_lights.
  - intros s H. rewrite (update_fixed_signals_at _ s H). reflexivity.
  - intros s H. rewrite (update_fixed_signals_at _ s H). reflexivity.
  - intros s H. rewrite (update_fixed_signals_at _ s H). reflexivity.
  - intros s H. rewrite (update_fixed_signals_at _ s H). reflexivity.
Qed.

(** The scenario on a controller built in fixed mode whose timer has
    reached 19.9 s, and again one cycle later. *)
Lemma fixed_schedule_scenario_witness :
  lights (update_fixed_signals
            (set_signal_timer 19.9 (SignalController.init "fixed" 0)))
  = (GREEN, RED)
  /\ lights (update_fixed_signals
               (set_signal_timer 69.9 (SignalController.init "fixed" 0)))
     = lights (update_fixed_signals
                 (set_signal_timer 19.9 (SignalController.init "fixed" 0))).
Proof.
  destruct fixed_schedule_scenario as (_ & _ & _ & Hmod & H199 & _).
  split.
  - apply H199. reflexivity.
  - apply Hmod. reflexivity.
Defined.

(** ** Mutual exclusion *)

Lemma initiate_signal_switch_lights s t :
  lights (initiate_signal_switch s t) = lights s.
Proof.
  unfold initiate_signal_switch, lights. simpl.
  destruct (SignalState_eqb (main_signal s) GREEN); [reflexivity|].
  destruct (SignalState_eqb (side_signal s) GREEN); reflexivity.
Qed.

Lemma make_ai_decision_lights s cars t :
  lights (make_ai_decision s cars t) = lights s.
Proof.
  unfold make_ai_decision. cbv zeta.
  match goal with
  | |- lights (if ?c then _ else _) = _ => destruct c
  end; [apply initiate_signal_switch_lights | reflexivity].
Qed.

Lemma exclusive_lights s s' : lights s' = lights s -> exclusive s -> exclusive s'.
Proof.
  unfold lights, exclusive. intros H Hs [Hm Hd].
  injection H as H1 H2. apply Hs. split; congruence.
Qed.

Lemma update_fixed_signals_exclusive s : exclusive (update_fixed_signals s).
Proof.
  unfold exclusive, update_fixed_signals. cbv zeta.
  repeat match goal with
  | |- context [if ?c then _ else _] => destruct c
  end; simpl; intros [H1 H2]; discriminate.
Qed.

Lemma handle_signal_switching_exclusive s t :
  exclusive s -> exclusive (handle_signal_switching s t).
Proof.
  unfold exclusive, handle_signal_switching. cbv zeta. intros Hs.
  destruct (switch_stage s =? 0)%Z.
  - destruct (SignalState_eqb (main_signal s) GREEN) eqn:Em.
    + destruct (_ <=? _); simpl; intros [H1 H2]; discriminate.
    + apply SignalState_eqb_neq in Em.
      destruct (SignalState_eqb (side_signal s) GREEN) eqn:Ed.
      * destruct (_ <=? _); simpl; intros [H1 H2]; discriminate.
      * destruct (_ <=? _); simpl; intros [H1 H2]; contradiction.
  - destruct (switch_stage s =? 1)%Z.
    + destruct (_ <=? _); simpl; intros [H1 H2]; discriminate.
    + destruct (switch_stage s =? 2)%Z; [|exact Hs].
      destruct (_ <? _); simpl; intros [H1 H2]; discriminate.
Qed.

Lemma update_ai_signals_exclusive s cars t :
  exclusive s -> exclusive (update_ai_signals s cars t).
Proof.
  intro Hs. unfold update_ai_signals.
  destruct (switching s).
  - now apply handle_signal_switching_exclusive.
  - cbv zeta.
    set (s1 := if Config.AI_UPDATE_INTERVAL <=? t - last_ai_update s
               then set_last_ai_update t (make_ai_decision s cars t) else s).
    assert (H1 : lights s1 = lights s).
    { subst s1. destruct (_ <=? _); [|reflexivity].
      apply (make_ai_decision_lights s cars t). }
    match goal with
    | |- exclusive (if ?c then _ else _) => destruct c
    end.
    + eapply exclusive_lights; [|exact Hs].
      rewrite initiate_signal_switch_lights. exact H1.
    + eapply exclusive_lights; [exact H1 | exact Hs].
Qed.

Lemma update_exclusive s cars dt t :
  exclusive s -> exclusive (update s cars dt t).
Proof.
  intro Hs. unfold update. cbv zeta.
  match goal with
  | |- exclusive (if ?c then _ else _) => destruct c
  end.
  - apply update_fixed_signals_exclusive.
  - apply update_ai_signals_exclusive. exact Hs.
Qed.

(** C1. In every reachable state of the controller, in fixed and in
    adaptive mode and after every update, the two roads are not both
    GREEN. *)
Theorem mutual_exclusion (s : SignalController.t) :
  reachable s ->
  ~ (main_signal s = GREEN /\ side_signal s = GREEN).
Proof.
  induction 1 as [ctype start | s cars dt t _ IH | s road t _ IH].
  - simpl. intros [_ H]. discriminate.
  - apply update_exclusive. exact IH.
  - destruct road; exact IH.
Qed.

(** Mutual exclusion after four adaptive updates that run into a forced
    switch (the green has lasted longer than the maximum). *)
Lemma mutual_exclusion_witness :
  let s0 := SignalController.init "ai" 0 in
  let s1 := update s0 [] 51 51 in
  let s2 := update s1 [] 1 52 in
  let s3 := update s2 [] 3 55 in
  let s4 := update s3 [] 1 56 in
  lights s4 = (ALL_RED, ALL_RED)
  /\ ~ (main_signal s4 = GREEN /\ side_signal s4 = GREEN).
Proof.
  cbv zeta. split.
  - reflexivity.
  - apply mutual_exclusion. repeat apply reachable_update. apply reachable_init.
Defined.

(** ** Metrics *)

Lemma record_exits_totals (exits : list (Car.t * Q)) (m : MetricsCollector.t) :
  MetricsCollector.total_cars_exited (MetricsCollector.record_exits m exits)
  = (MetricsCollector.total_cars_exited m + Z.of_nat (length exits))%Z
  /\ MetricsCollector.total_wait_time (MetricsCollector.record_exits m exits)
     = fold_left Qplus (map (fun e => Car.waiting_time (fst e)) exits)
                 (MetricsCollector.total_wait_time m).
Proof.
  revert m. induction exits as [|e exits IH]; intro m.
  - simpl. split; [lia | reflexivity].
  - unfold MetricsCollector.record_exits in *. cbn [fold_left map length].
    destruct (IH (fst (MetricsCollector.record_car_exit m (fst e) (snd e)))) as [H1 H2].
    rewrite H1, H2. simpl MetricsCollector.total_cars_exited.
    simpl MetricsCollector.total_wait_time. split; [lia | reflexivity].
Qed.

(** C10. After the exits of vehicles with waiting times [w_1 .. w_N] have
    been recorded, the average wait is [sum(w_i) / N], and it is 0 when
    no exit was recorded. *)
Theorem average_wait_after_exits (start_sim_time : Q) (exits : list (Car.t * Q)) :
  let m := MetricsCollector.record_exits (MetricsCollector.reset start_sim_time) exits in
  let waits := map (fun e => Car.waiting_time (fst e)) exits in
  MetricsCollector.get_average_wait_time m
  == match exits with
     | [] => 0
     | _ => Qsum waits / inject_Z (Z.of_nat (length exits))
     end.
Proof.
  cbv zeta. unfold MetricsCollector.get_average_wait_time.
  destruct (record_exits_totals exits (MetricsCollector.reset start_sim_time)) as [H1 H2].
  rewrite H1, H2. simpl MetricsCollector.total_cars_exited.
  simpl MetricsCollector.total_wait_time.
  destruct exits as [|e exits].
  - reflexivity.
  - replace (0 + Z.of_nat (length (e :: exits)) =? 0)%Z with false.
    + unfold Qsum. rewrite Z.add_0_l. reflexivity.
    + symmetry. apply Z.eqb_neq. simpl length. lia.
Qed.

(** ** The pressure score *)

Lemma get_arrival_rate_two (s : SignalController.t) (road : Road) (t : Q) :
  (2 <= length (arrival_history s road))%nat ->
  get_arrival_rate s road t == spec_arrival_rate (arrival_history s road) t.
Proof.
  intro H. unfold get_arrival_rate, spec_arrival_rate. cbv zeta.
  destruct (length (arrival_history s road) <? 2)%nat eqn:E.
  - apply Nat.ltb_lt in E. lia.
  - rewrite (filter_ext (fun t0 => t - t0 <? 10.0) (fun t0 => t - t0 <? 10)).
    + setoid_replace 10.0 with 10 by reflexivity. reflexivity.
    + intro t0. apply Qltb_comp; reflexivity.
Qed.

Lemma get_arrival_rate_short (s : SignalController.t) (road : Road) (t : Q) :
  (length (arrival_history s road) < 2)%nat ->
  get_arrival_rate s road t = 0.
Proof.
  intro H. unfold get_arrival_rate. cbv zeta.
  apply Nat.ltb_lt in H. rewrite H. reflexivity.
Qed.

(** The claim of C5 as the specification words it fails on a history of
    one fresh entry: the code reports rate 0, the formula 1/10. *)
Lemma pressure_formula_counterexample :
  let s := record_arrival (SignalController.init "ai" 0) main 0 in
  calculate_pressure s [] main 1 == 0
  /\ spec_pressure s [] main 1 == 0.3
  /\ ~ (forall (s : SignalController.t) cars road t,
          calculate_pressure s cars road t == spec_pressure s cars road t).
Proof.
  cbv zeta. split; [reflexivity|]. split; [reflexivity|].
  intro H.
  specialize (H (record_arrival (SignalController.init "ai" 0) main 0) [] main 1).
  vm_compute in H. discriminate.
Qed.

(** C5 (amended). For every road and every list of agents the pressure
    is [queue_length + alpha (recent / 10) 10 + beta min(avg_wait / 60, 1) 10],
    [recent] counting the history entries newer than 10 simulated seconds,
    provided the history holds at least two entries; with fewer than two
    entries the arrival term is 0. *)
Theorem pressure_formula (s : SignalController.t) (cars : list Car.t)
    (road : Road) (t : Q) :
  ((2 <= length (arrival_history s road))%nat ->
   calculate_pressure s cars road t == spec_pressure s cars road t)
  /\ ((length (arrival_history s road) < 2)%nat ->
      calculate_pressure s cars road t
      == inject_Z (get_queue_length cars road)
         + Config.PRESSURE_BETA * Qmin (get_average_wait_time cars road / 60) 1 * 10).
Proof.
  split; intro H; unfold calculate_pressure, spec_pressure; cbv zeta.
  - rewrite (get_arrival_rate_two s road t H).
    setoid_replace 60.0 with 60 by reflexivity.
    setoid_replace 1.0 with 1 by reflexivity.
    setoid_replace 10.0 with 10 by reflexivity.
    reflexivity.
  - rewrite (get_arrival_rate_short s road t H).
    setoid_replace 60.0 with 60 by reflexivity.
    setoid_replace 1.0 with 1 by reflexivity.
    setoid_replace 10.0 with 10 by reflexivity.
    ring.
Qed.

(** The formula on a history with two entries, one of them fresh, and on
    an empty one. *)
Lemma pressure_formula_witness :
  let s := record_arrival (record_arrival (SignalController.init "ai" 0) side 0) side 15 in
  calculate_pressure s (stopped_queue EAST 0 5) side 20 == 5.3
  /\ calculate_pressure s (stopped_queue NORTH 0 5) main 20 == 5.
Proof.
  cbv zeta.
  split.
  - rewrite (proj1 (pressure_formula _ _ _ _)); [reflexivity | simpl; lia].
  - rewrite (proj2 (pressure_formula _ _ _ _)); [reflexivity | simpl; lia].
Defined.

(** ** The adaptive decision loop *)

Lemma make_ai_decision_pressures (s : SignalController.t) cars t :
  make_ai_decision s cars t
  = if ((Config.MIN_GREEN_TIME <=? current_green_time s)
        && (Config.COOLDOWN_TIME <=? t - last_switch_time s)
        && (active_pressure s cars t + Config.HYSTERESIS_MARGIN
            <? waiting_pressure s cars t))
       || (Config.MAX_GREEN_TIME <=? current_green_time s)
    then initiate_signal_switch s t else s.
Proof.
  unfold make_ai_decision, active_pressure, waiting_pressure,
    waiting_road, active_road. cbv zeta.
  destruct (SignalState_eqb (main_signal s) GREEN); simpl other_road;
    destruct (Config.MIN_GREEN_TIME <=? current_green_time s);
    destruct (Config.COOLDOWN_TIME <=? t - last_switch_time s);
    destruct (Config.MAX_GREEN_TIME <=? current_green_time s);
    simpl;
    try reflexivity;
    match goal with
    | |- context [?a <? ?b] => destruct (a <? b); reflexivity
    end.
Qed.

Lemma initiate_signal_switch_started s t :
  switching (initiate_signal_switch s t) = true
  /\ switch_stage (initiate_signal_switch s t) = 0%Z
  /\ switch_start_time (initiate_signal_switch s t) = t
  /\ current_green_time (initiate_signal_switch s t) = 0.
Proof.
  unfold initiate_signal_switch. cbv zeta.
  destruct (SignalState_eqb _ GREEN); [repeat split|].
  destruct (SignalState_eqb _ GREEN); repeat split.
Qed.

(** The margin rule does not fire on near-tied scores. *)
Lemma make_ai_decision_holds (s : SignalController.t) cars t :
  current_green_time s < Config.MAX_GREEN_TIME ->
  waiting_pressure s cars t <= active_pressure s cars t + Config.HYSTERESIS_MARGIN ->
  make_ai_decision s cars t = s.
Proof.
  intros Hmax Hp. rewrite make_ai_decision_pressures.
  apply Qleb_gt in Hmax. apply Qltb_ge in Hp. rewrite Hmax, Hp.
  rewrite andb_false_r. reflexivity.
Qed.

Lemma make_ai_decision_switches (s : SignalController.t) cars t :
  Config.MIN_GREEN_TIME <= current_green_time s ->
  Config.COOLDOWN_TIME <= t - last_switch_time s ->
  active_pressure s cars t + Config.HYSTERESIS_MARGIN < waiting_pressure s cars t ->
  make_ai_decision s cars t = initiate_signal_switch s t.
Proof.
  intros Hmin Hcool Hp. rewrite make_ai_decision_pressures.
  apply Qleb_le in Hmin, Hcool. apply Qltb_lt in Hp.
  rewrite Hmin, Hcool, Hp. reflexivity.
Qed.

(** The claim of C3 as worded fails once the green has reached the
    maximum duration: with scores 5.0 and 5.3 the decision loop still
    starts a switch. *)
Lemma hysteresis_counterexample :
  let s := controller_with_arrivals 0 50 in
  active_pressure s two_queues 50 == 5.0
  /\ waiting_pressure s two_queues 50 == 5.3
  /\ switching s = false
  /\ switching (make_ai_decision s two_queues 50) = true.
Proof.
  cbv zeta. repeat split; reflexivity.
Qed.

(** C3 (amended). With hysteresis margin 0.5 and active pressure 5.0: if
    the waiting pressure is 5.3 the decision loop starts no switch as long
    as the green has lasted less than the maximum green duration; if the
    waiting pressure is 5.6, the green has lasted at least the minimum
    green duration and at least the cooldown has elapsed since the last
    switch, the decision loop starts a switch. *)
Theorem hysteresis (s : SignalController.t) (cars : list Car.t) (t : Q) :
  active_pressure s cars t == 5.0 ->
  Config.HYSTERESIS_MARGIN == 0.5
  /\ (waiting_pressure s cars t == 5.3 ->
   current_green_time s < Config.MAX_GREEN_TIME ->
   make_ai_decision s cars t = s)
  /\ (waiting_pressure s cars t == 5.6 ->
      Config.MIN_GREEN_TIME <= current_green_time s ->
      Config.COOLDOWN_TIME <= t - last_switch_time s ->
      make_ai_decision s cars t = initiate_signal_switch s t
      /\ switching (make_ai_decision s cars t) = true).
Proof.
  intros Ha. assert (Hm : Config.HYSTERESIS_MARGIN == 0.5) by reflexivity.
  split; [exact Hm|]. split.
  - intros Hw Hmax. apply make_ai_decision_holds; [exact Hmax|].
    rewrite Hw, Ha, Hm. discriminate.
  - intros Hw Hmin Hcool.
    assert (E : make_ai_decision s cars t = initiate_signal_switch s t).
    { apply make_ai_decision_switches; [exact Hmin | exact Hcool |].
      rewrite Hw, Ha, Hm. reflexivity. }
    split; [exact E | rewrite E; apply initiate_signal_switch_started].
Qed.

(** Both halves on the two queues of five: one fresh arrival on the side
    road gives 5.3 and no switch, two give 5.6 and a switch. *)
Lemma hysteresis_witness :
  make_ai_decision (controller_with_arrivals 0 20) two_queues 50
  = controller_with_arrivals 0 20
  /\ switching (make_ai_decision (controller_with_arrivals 42 20) two_queues 50)
     = true.
Proof.
  split.
  - apply (hysteresis (controller_with_arrivals 0 20) two_queues 50);
      reflexivity.
  - apply (hysteresis (controller_with_arrivals 42 20) two_queues 50);
      try reflexivity; vm_compute; discriminate.
Defined.

(** ** Anti-starvation *)

(** What the decision loop leaves untouched, whether it switches or not. *)
Lemma make_ai_decision_cases s cars t :
  make_ai_decision s cars t = s
  \/ make_ai_decision s cars t = initiate_signal_switch s t.
Proof.
  rewrite make_ai_decision_pressures.
  match goal with |- context [if ?c then _ else _] => destruct c end; auto.
Qed.

Lemma update_ai_signals_starvation s cars t :
  switching s = false ->
  Config.ANTI_STARVATION_TIME < t - last_green s (waiting_road s) ->
  Config.MIN_GREEN_TIME < current_green_time s ->
  switch_started (update_ai_signals s cars t) t.
Proof.
  intros Hidle Hwait Hmin. unfold update_ai_signals. rewrite Hidle. cbv zeta.
  destruct (Config.AI_UPDATE_INTERVAL <=? t - last_ai_update s).
  - destruct (make_ai_decision_cases s cars t) as [E | E]; rewrite E.
    + (* the decision loop did not switch: the override does *)
      simpl main_signal. simpl main_last_green. simpl side_last_green.
      simpl current_green_time.
      unfold waiting_road, active_road, last_green in Hwait.
      apply Qltb_lt in Hmin.
      destruct (SignalState_eqb (main_signal s) GREEN); simpl in Hwait;
        apply Qltb_lt in Hwait; rewrite Hwait, Hmin; simpl;
        destruct (initiate_signal_switch_started (set_last_ai_update t s) t)
          as (H1 & H2 & H3 & _); repeat split; assumption.
    + (* the decision loop switched already *)
      destruct (initiate_signal_switch_started s t) as (H1 & H2 & H3 & H4).
      match goal with |- context [if ?c then _ else _] => destruct c end.
      * destruct (initiate_signal_switch_started
                    (set_last_ai_update t (initiate_signal_switch s t)) t)
          as (G1 & G2 & G3 & _). repeat split; assumption.
      * repeat split; assumption.
  - unfold waiting_road, active_road, last_green in Hwait.
    apply Qltb_lt in Hmin.
    destruct (SignalState_eqb (main_signal s) GREEN); simpl in Hwait;
      apply Qltb_lt in Hwait; rewrite Hwait, Hmin; simpl;
      destruct (initiate_signal_switch_started s t) as (H1 & H2 & H3 & _);
      repeat split; assumption.
Qed.

(** The claim of C4 with "has satisfied the minimum" read as "has lasted
    at least the minimum": a green of exactly the minimum duration does
    not force the switch, however long the other road has waited. *)
Lemma anti_starvation_counterexample :
  let s := SignalController.init "ai" 0 in
  switching s = false
  /\ Config.ANTI_STARVATION_TIME < 121 - last_green s (waiting_road s)
  /\ Config.MIN_GREEN_TIME <= current_green_time s + 12
  /\ switching (update s [] 12 121) = false.
Proof.
  cbv zeta. repeat split; try reflexivity. vm_compute. discriminate.
Qed.

(** C4 (amended). In adaptive mode, on an update tick on which no switch
    is in progress: if the time since the last-green timestamp of the road
    that is not green exceeds the anti-starvation threshold and the current
    green duration strictly exceeds the minimum green duration, a switch is
    started in that tick, whatever the vehicles (and so the pressures)
    are and whether or not the polling interval has elapsed. *)
Theorem anti_starvation (s : SignalController.t) (cars : list Car.t)
    (dt_sim sim_time : Q) :
  controller_type s <> "fixed"%string ->
  switching s = false ->
  Config.ANTI_STARVATION_TIME < sim_time - last_green s (waiting_road s) ->
  Config.MIN_GREEN_TIME < current_green_time s + dt_sim ->
  let s' := update s cars dt_sim sim_time in
  switching s' = true /\ switch_stage s' = 0%Z /\ switch_start_time s' = sim_time.
Proof.
  intros Hmode Hidle Hwait Hmin. cbv zeta. unfold update. cbv zeta.
  simpl controller_type.
  destruct (String.eqb_spec (controller_type s) "fixed") as [E | _];
    [contradiction|].
  apply update_ai_signals_starvation; assumption.
Qed.

(** The side road has waited 130 s while main, whose queue is the longer
    one, has been green for 12.5 s: the switch starts. *)
Lemma anti_starvation_witness :
  let s := SignalController.set_current_green_time 12
             (SignalController.set_last_ai_update 129 (SignalController.init "ai" 0)) in
  waiting_pressure s (stopped_queue NORTH 0 5) 130
  < active_pressure s (stopped_queue NORTH 0 5) 130
  /\ switching (update s (stopped_queue NORTH 0 5) 0.5 130) = true.
Proof.
  cbv zeta. split.
  - reflexivity.
  - apply anti_starvation; try reflexivity; discriminate.
Defined.

(** ** Vehicles *)

Ltac car_simpl :=
  cbn [Car.ident Car.x Car.y Car.direction Car.speed Car.max_speed Car.color
       Car.is_ambulance Car.spawn_time Car.waiting_time Car.is_stopped
       Car.exit_time Car.set_x Car.set_y Car.set_speed Car.set_max_speed
       Car.set_waiting_time Car.set_is_stopped Car.set_exit_time] in *.

(** [Car.update] with its branch on braking and its branch on the
    direction taken. *)
Ltac car_update_cases c :=
  unfold Car.update; cbv zeta;
  match goal with
  | |- context [if ?b || Car.is_some ?a then _ else _] =>
      destruct (b || Car.is_some a)
  end;
  car_simpl; destruct (Car.direction c); car_simpl.

(** What one tick does to the waiting time. *)
Lemma car_update_waiting {S : Type} `{SignalSource S}
    (c : Car.t) (cars : list Car.t) (sc : S) (dt : Q) :
  let c' := Car.update c cars sc dt in
  (Car.waiting_time c' = Car.waiting_time c
   \/ (Car.waiting_time c' = Car.waiting_time c + dt
       /\ Car.is_stopped c' = true
       /\ Qabs (Car.x c' - Car.x c) < 1e-3
       /\ Qabs (Car.y c' - Car.y c) < 1e-3)).
Proof.
  cbv zeta. car_update_cases c;
    match goal with
    | |- context [if ?b then Car.set_waiting_time _ _ else _] =>
        destruct b eqn:E
    end; car_simpl; try (left; reflexivity);
    right;
    apply andb_true_iff in E; destruct E as [E1 E2];
    apply andb_true_iff in E2; destruct E2 as [E2 E3];
    apply Qltb_lt in E2, E3;
    (split; [reflexivity | split; [exact E1 | split; [exact E2 | exact E3]]]).
Qed.

Lemma car_update_waiting_le {S : Type} `{SignalSource S}
    (c : Car.t) (cars : list Car.t) (sc : S) (dt : Q) :
  0 <= dt -> Car.waiting_time c <= Car.waiting_time (Car.update c cars sc dt).
Proof.
  intro Hdt.
  destruct (car_update_waiting c cars sc dt) as [E | [E _]]; rewrite E; lra.
Qed.

Lemma car_run_waiting_le {S : Type} `{SignalSource S}
    (ticks : list (car_tick S)) (c : Car.t) :
  Forall (fun tk => 0 <= tick_step tk) ticks ->
  Car.waiting_time c <= Car.waiting_time (car_run c ticks).
Proof.
  intro Hpos. revert c. induction Hpos as [|tk ticks Htk _ IH]; intro c.
  - apply Qle_refl.
  - unfold car_run in *. cbn [fold_left].
    eapply Qle_trans; [|apply IH].
    apply car_update_waiting_le. exact Htk.
Qed.

(** The claim of C8 as worded fails on the creeping vehicle: it counts as
    stopped, its waiting time grows by the step, and yet it has moved. *)
Lemma waiting_time_counterexample :
  let c := creeping_car in
  let c' := Car.update c [c; car_in_front] (SignalController.init "fixed" 0) (1 # 60) in
  Car.speed c == 0.2005
  /\ Car.is_stopped c' = true
  /\ Car.waiting_time c' == Car.waiting_time c + (1 # 60)
  /\ Car.x c' == Car.x c + 0.0005
  /\ ~ Car.x c' == Car.x c.
Proof.
  cbv zeta. repeat split; try (vm_compute; reflexivity). vm_compute. discriminate.
Qed.

(** C8 (amended). Over every sequence of update ticks with non-negative
    steps the waiting time of a vehicle never decreases; in one tick it
    either stays as it is or grows by [dt_sim], and it grows only when
    [is_stopped] holds after the tick and the position has changed by less
    than 0.001 on each axis within the tick. *)
Theorem waiting_time_monotone {S : Type} `{SignalSource S}
    (c : Car.t) (ticks : list (car_tick S))
    (cars : list Car.t) (sc : S) (dt_sim : Q) :
  Forall (fun tk => 0 <= tick_step tk) ticks ->
  0 <= dt_sim ->
  let c' := Car.update c cars sc dt_sim in
  Car.waiting_time c <= Car.waiting_time (car_run c ticks)
  /\ Car.waiting_time c <= Car.waiting_time c'
  /\ (Car.waiting_time c' = Car.waiting_time c
      \/ Car.waiting_time c' = Car.waiting_time c + dt_sim)
  /\ (Car.waiting_time c < Car.waiting_time c' ->
      Car.is_stopped c' = true
      /\ Qabs (Car.x c' - Car.x c) < 1e-3
      /\ Qabs (Car.y c' - Car.y c) < 1e-3).
Proof.
  intros Hticks Hdt. cbv zeta.
  split; [apply car_run_waiting_le; exact Hticks|].
  split; [apply car_update_waiting_le; exact Hdt|].
  destruct (car_update_waiting c cars sc dt_sim) as [E | (E & Hs & Hx & Hy)].
  - split; [left; exact E|]. rewrite E. intro Hlt.
    exfalso. apply (Qlt_irrefl _ Hlt).
  - split; [right; exact E|]. intros _. repeat split; assumption.
Qed.

Lemma held_ticks_steps : Forall (fun tk => 0 <= tick_step tk) held_ticks.
Proof. repeat constructor; discriminate. Qed.

Lemma waiting_time_monotone_witness :
  Car.waiting_time (car_run held_car held_ticks) == 2 # 60
  /\ Car.waiting_time held_car <= Car.waiting_time (car_run held_car held_ticks).
Proof.
  split.
  - vm_compute. reflexivity.
  - exact (proj1 (waiting_time_monotone held_car held_ticks []
                    (SignalController.init "ai" 0) 0
                    held_ticks_steps (Qle_refl 0))).
Defined.

(** ** Emergency vehicles *)

Lemma car_update_speed {S : Type} `{SignalSource S}
    (c : Car.t) (cars : list Car.t) (sc : S) (dt : Q) :
  Car.speed (Car.update c cars sc dt)
  = if (if Car.is_ambulance c then false else Car.should_stop_at_signal c sc)
       || Car.is_some (Car.get_car_ahead c cars)
    then Qmax 0 (Car.speed c - Config.CAR_ACCELERATION * 2.0 * (dt * Config.FPS))
    else Qmin (Car.max_speed c)
              (Car.speed c + Config.CAR_ACCELERATION * (dt * Config.FPS)).
Proof.
  car_update_cases c;
    match goal with
    | |- context [if ?b then Car.set_waiting_time _ _ else _] => destruct b
    end; reflexivity.
Qed.

(** An emergency vehicle is updated without regard to the lights. *)
Lemma ambulance_update_any_signal {S : Type} `{SignalSource S}
    (c : Car.t) (cars : list Car.t) (sc sc' : S) (dt : Q) :
  Car.is_ambulance c = true ->
  Car.update c cars sc dt = Car.update c cars sc' dt.
Proof.
  intro Ha. unfold Car.update. rewrite Ha. reflexivity.
Qed.

(** C9. An emergency vehicle inside the stop-line window of a signal that
    is not GREEN is not slowed by the signal: with no vehicle ahead within
    the safe distance it accelerates towards its maximum speed exactly as
    under GREEN, and its update does not depend on the lights at all; a
    vehicle ahead within the safe distance still makes it brake. *)
Theorem emergency_preemption {S : Type} `{SignalSource S}
    (c : Car.t) (cars : list Car.t) (sc : S) (dt_sim : Q) :
  Car.is_ambulance c = true ->
  Car.should_stop_at_signal c sc = true ->
  0 <= dt_sim ->
  0 <= Car.speed c <= Car.max_speed c ->
  let c' := Car.update c cars sc dt_sim in
  (Car.get_car_ahead c cars = None ->
   Car.speed c' == Qmin (Car.max_speed c)
                        (Car.speed c + Config.CAR_ACCELERATION * (dt_sim * Config.FPS))
   /\ Car.speed c <= Car.speed c'
   /\ Car.is_stopped c' = false)
  /\ (forall other, Car.get_car_ahead c cars = Some other ->
      Car.speed c' == Qmax 0 (Car.speed c
                              - Config.CAR_ACCELERATION * 2.0 * (dt_sim * Config.FPS))
      /\ Car.speed c' <= Car.speed c)
  /\ (forall sc' : S, Car.update c cars sc' dt_sim = c').
Proof.
  intros Ha Hstop Hdt [Hmin Hmax]. cbv zeta.
  split; [|split].
  - intro Hnone. rewrite car_update_speed, Ha, Hnone. simpl.
    split; [reflexivity|]. split.
    + apply Q.min_glb; [exact Hmax|].
      unfold Config.CAR_ACCELERATION, Config.FPS. lra.
    + unfold Car.update. rewrite Ha, Hnone. cbv zeta. simpl orb. cbv iota.
      car_simpl. destruct (Car.direction c); reflexivity.
  - intros other Hsome. rewrite car_update_speed, Ha, Hsome. simpl.
    split; [reflexivity|].
    apply Q.max_lub; [exact Hmin|].
    unfold Config.CAR_ACCELERATION, Config.FPS. lra.
  - intro sc'. apply ambulance_update_any_signal. exact Ha.
Qed.

(** The ambulance at the red light: alone it pulls away, behind a vehicle
    20 px ahead it stays put. *)
Lemma ambulance_at_line_should_stop :
  Car.should_stop_at_signal ambulance_at_line red_controller = true.
Proof. vm_compute. reflexivity. Qed.

Lemma ambulance_at_line_speed :
  0 <= Car.speed ambulance_at_line <= Car.max_speed ambulance_at_line.
Proof. split; vm_compute; discriminate. Qed.

Lemma emergency_preemption_witness :
  Car.should_stop_at_signal ambulance_at_line red_controller = true
  /\ Car.speed (Car.update ambulance_at_line [ambulance_at_line]
                           red_controller (1 # 60)) == 0.1
  /\ Car.speed (Car.update ambulance_at_line [ambulance_at_line; car_20px_ahead]
                           red_controller (1 # 60)) == 0.
Proof.
  split; [exact ambulance_at_line_should_stop|]. split.
  - destruct (emergency_preemption ambulance_at_line [ambulance_at_line]
                red_controller (1 # 60) eq_refl ambulance_at_line_should_stop
                ltac:(discriminate) ambulance_at_line_speed) as [Hfree _].
    destruct (Hfree ltac:(vm_compute; reflexivity)) as [E _].
    rewrite E. vm_compute. reflexivity.
  - destruct (emergency_preemption ambulance_at_line
                [ambulance_at_line; car_20px_ahead]
                red_controller (1 # 60) eq_refl ambulance_at_line_should_stop
                ltac:(discriminate) ambulance_at_line_speed) as (_ & Hblocked & _).
    destruct (Hblocked car_20px_ahead ltac:(vm_compute; reflexivity)) as [E _].
    rewrite E. vm_compute. reflexivity.
Defined.

(** The same place and light without the emergency flag: the car brakes. *)
Lemma ordinary_car_stops_at_red {S : Type} `{SignalSource S}
    (c : Car.t) (cars : list Car.t) (sc : S) (dt : Q) :
  Car.is_ambulance c = false ->
  Car.should_stop_at_signal c sc = true ->
  Car.speed (Car.update c cars sc dt)
  = Qmax 0 (Car.speed c - Config.CAR_ACCELERATION * 2.0 * (dt * Config.FPS)).
Proof.
  intros Ha Hstop. rewrite car_update_speed, Ha, Hstop. reflexivity.
Qed.

(** The identity test of [get_car_ahead] never decides: a car is not
    ahead of itself by position alone. *)
Lemma is_ahead_self (c : Car.t) (other : Car.t) :
  Car.x other == Car.x c -> Car.y other == Car.y c ->
  Car.direction other = Car.direction c ->
  Car.is_ahead c other = false.
Proof.
  intros Hx Hy Hd. unfold Car.is_ahead.
  destruct (_ || _); [reflexivity|]. cbv zeta.
  assert (Hyy : (Car.y other <? Car.y c) = false)
    by (apply Qltb_ge; rewrite Hy; apply Qle_refl).
  assert (Hyy' : (Car.y c <? Car.y other) = false)
    by (apply Qltb_ge; rewrite Hy; apply Qle_refl).
  assert (Hxx : (Car.x other <? Car.x c) = false)
    by (apply Qltb_ge; rewrite Hx; apply Qle_refl).
  assert (Hxx' : (Car.x c <? Car.x other) = false)
    by (apply Qltb_ge; rewrite Hx; apply Qle_refl).
  destruct (Car.direction c); rewrite ?Hyy, ?Hyy', ?Hxx, ?Hxx'; reflexivity.
Qed.

(** ** The clock and the speed multiplier *)

(** The claim of C7 fails on a single accelerating car: 32 simulated
    milliseconds pass either as two ticks of 16 ms at multiplier 1.0 or as
    one tick of 16 ms at multiplier 2.0, and the car ends at x = 0.27648
    in the first run and at x = 0.36864 in the second. *)
Lemma speed_invariance_counterexample :
  TrafficSimulation.sim_time run_at_1x == TrafficSimulation.sim_time run_at_2x
  /\ (exists xa ya xb yb,
        positions run_at_1x = [(xa, ya)] /\ positions run_at_2x = [(xb, yb)]
        /\ xa == 0.27648 /\ xb == 0.36864 /\ ~ xa == xb).
Proof.
  split; [vm_compute; reflexivity|].
  eexists _, _, _, _.
  split; [vm_compute; reflexivity|].
  split; [vm_compute; reflexivity|].
  split; [vm_compute; reflexivity|].
  split; [vm_compute; reflexivity|].
  vm_compute. discriminate.
Qed.

Lemma advance_clock_dt (s : TrafficSimulation.t) (ms : Z) :
  TrafficSimulation.dt_sim (TrafficSimulation.advance_clock s ms)
  = inject_Z ms / 1000.0 * TrafficSimulation.simulation_speed s
  /\ TrafficSimulation.sim_time (TrafficSimulation.advance_clock s ms)
     = TrafficSimulation.sim_time s
       + inject_Z ms / 1000.0 * TrafficSimulation.simulation_speed s
  /\ TrafficSimulation.simulation_speed (TrafficSimulation.advance_clock s ms)
     = TrafficSimulation.simulation_speed s.
Proof. repeat split. Qed.

(** The distance an unobstructed vehicle covers in one tick. *)
Lemma car_update_free_travel {S : Type} `{SignalSource S}
    (c : Car.t) (cars : list Car.t) (sc : S) (dt : Q) :
  unobstructed c cars sc ->
  0 <= dt -> 0 <= Car.speed c -> 0 <= Car.max_speed c ->
  travelled c (Car.update c cars sc dt)
  == Qmin (Car.max_speed c)
          (Car.speed c + Config.CAR_ACCELERATION * (dt * Config.FPS))
     * (dt * Config.FPS).
Proof.
  intros [Hnone Hsig] Hdt Hv Hmax.
  assert (Hbrake :
    (if Car.is_ambulance c then false else Car.should_stop_at_signal c sc)
    || Car.is_some (Car.get_car_ahead c cars) = false).
  { rewrite Hnone. destruct Hsig as [Ha | Hs].
    - rewrite Ha. reflexivity.
    - rewrite Hs. destruct (Car.is_ambulance c); reflexivity. }
  unfold travelled, Car.update. cbv zeta. rewrite Hbrake. car_simpl.
  set (v := Qmin (Car.max_speed c)
                 (Car.speed c + Config.CAR_ACCELERATION * (dt * Config.FPS))).
  assert (Hv0 : 0 <= v).
  { apply Q.min_glb; [exact Hmax|].
    unfold Config.CAR_ACCELERATION, Config.FPS. lra. }
  assert (Hd : 0 <= v * (dt * Config.FPS)).
  { apply Qmult_le_0_compat; [exact Hv0|]. unfold Config.FPS. lra. }
  set (d := v * (dt * Config.FPS)) in *.
  assert (Hzero : forall a : Q, Qabs (a - a) == 0).
  { intro a. setoid_replace (a - a) with 0 by ring. reflexivity. }
  assert (Hplus : forall a : Q, Qabs (a + d - a) == d).
  { intro a. setoid_replace (a + d - a) with d by ring.
    apply Qabs_pos. exact Hd. }
  assert (Hminus : forall a : Q, Qabs (a - d - a) == d).
  { intro a. setoid_replace (a - d - a) with (- d) by ring.
    rewrite Qabs_opp. apply Qabs_pos. exact Hd. }
  destruct (Car.direction c); car_simpl; cbn [andb]; car_simpl;
    rewrite ?Hzero, ?Hplus, ?Hminus; ring.
Qed.

(** C7 (amended). For one reading of the wall clock, multiplier 2.0 gives
    twice the simulated step of multiplier 1.0, so that one tick at 2.0
    reaches the simulated time of two ticks at 1.0; and within one tick a
    vehicle that moves unobstructed at its maximum speed covers exactly
    twice the distance.  (Arrival counts and the positions of vehicles
    that accelerate or brake are not covered.) *)
Theorem speed_multiplier_scaling (s1 s2 : TrafficSimulation.t) (ms : Z) :
  TrafficSimulation.simulation_speed s1 == 1.0 ->
  TrafficSimulation.simulation_speed s2 == 2.0 ->
  TrafficSimulation.sim_time s1 == TrafficSimulation.sim_time s2 ->
  (0 <= ms)%Z ->
  let a := TrafficSimulation.advance_clock s1 ms in
  let b := TrafficSimulation.advance_clock s2 ms in
  TrafficSimulation.dt_sim b == 2 * TrafficSimulation.dt_sim a
  /\ TrafficSimulation.sim_time b
     == TrafficSimulation.sim_time (TrafficSimulation.advance_clock a ms)
  /\ (forall (c : Car.t) (cars : list Car.t) (sc : SignalController.t),
        unobstructed c cars sc ->
        0 <= Car.max_speed c ->
        Car.speed c == Car.max_speed c ->
        travelled c (Car.update c cars sc (TrafficSimulation.dt_sim b))
        == 2 * travelled c (Car.update c cars sc (TrafficSimulation.dt_sim a))).
Proof.
  intros H1 H2 Ht Hms. cbv zeta.
  destruct (advance_clock_dt s1 ms) as (Da & Ta & Sa).
  destruct (advance_clock_dt s2 ms) as (Db & Tb & _).
  destruct (advance_clock_dt (TrafficSimulation.advance_clock s1 ms) ms)
    as (_ & Taa & _).
  assert (Hq : 0 <= inject_Z ms / 1000.0).
  { apply Qle_shift_div_l; [reflexivity|].
    rewrite Qmult_0_l.
    change 0 with (inject_Z 0). rewrite <- Zle_Qle. exact Hms. }
  set (q := inject_Z ms / 1000.0) in *.
  assert (Hdt : TrafficSimulation.dt_sim (TrafficSimulation.advance_clock s2 ms)
                == 2 * TrafficSimulation.dt_sim (TrafficSimulation.advance_clock s1 ms)).
  { rewrite Da, Db, H1, H2. setoid_replace 2.0 with 2 by reflexivity.
    setoid_replace 1.0 with 1 by reflexivity. ring. }
  split; [exact Hdt|]. split.
  - rewrite Taa, Tb, Ta, Sa, H1, H2, Ht.
    setoid_replace 2.0 with 2 by reflexivity.
    setoid_replace 1.0 with 1 by reflexivity. ring.
  - intros c cars sc Hfree Hmax Hv.
    assert (Ha0 : 0 <= TrafficSimulation.dt_sim (TrafficSimulation.advance_clock s1 ms)).
    { rewrite Da, H1. setoid_replace 1.0 with 1 by reflexivity. lra. }
    assert (Hb0 : 0 <= TrafficSimulation.dt_sim (TrafficSimulation.advance_clock s2 ms)).
    { rewrite Hdt. lra. }
    assert (Hv0 : 0 <= Car.speed c) by (rewrite Hv; exact Hmax).
    rewrite (car_update_free_travel c cars sc _ Hfree Hb0 Hv0 Hmax).
    rewrite (car_update_free_travel c cars sc _ Hfree Ha0 Hv0 Hmax).
    set (da := TrafficSimulation.dt_sim (TrafficSimulation.advance_clock s1 ms)) in *.
    set (db := TrafficSimulation.dt_sim (TrafficSimulation.advance_clock s2 ms)) in *.
    rewrite (Q.min_l (Car.max_speed c)
               (Car.speed c + Config.CAR_ACCELERATION * (db * Config.FPS))).
    + rewrite (Q.min_l (Car.max_speed c)
                 (Car.speed c + Config.CAR_ACCELERATION * (da * Config.FPS))).
      * rewrite Hdt. ring.
      * rewrite Hv. unfold Config.CAR_ACCELERATION, Config.FPS. lra.
    + rewrite Hv. unfold Config.CAR_ACCELERATION, Config.FPS. lra.
Qed.

(** ** The switching sequence *)

Ltac sc_simpl :=
  cbn [controller_type main_signal side_signal signal_timer current_green_time
       last_ai_update last_switch_time main_last_green side_last_green
       switching switch_stage switch_start_time arrival_history_main
       arrival_history_side set_main_signal set_side_signal set_signal_timer
       set_current_green_time set_last_ai_update set_last_switch_time
       set_main_last_green set_side_last_green set_switching set_switch_stage
       set_switch_start_time] in *.

(** A tick of an adaptive controller that is switching is a call of
    [handle_signal_switching]. *)
Lemma update_switching (s : SignalController.t) cars dt t :
  controller_type s <> "fixed"%string ->
  switching s = true ->
  update s cars dt t
  = handle_signal_switching
      (set_current_green_time (current_green_time s + dt)
         (set_signal_timer (signal_timer s + dt) s)) t.
Proof.
  intros Hmode Hsw. unfold update. cbv zeta. sc_simpl.
  destruct (String.eqb_spec (controller_type s) "fixed") as [E | _];
    [contradiction|].
  unfold update_ai_signals. sc_simpl. rewrite Hsw. reflexivity.
Qed.

Lemma shows_green_or_yellow_yellowed (was : Road) (s : SignalController.t) :
  shows was GREEN s \/ shows was YELLOW s ->
  shows was YELLOW
    (if SignalState_eqb (main_signal s) GREEN then set_main_signal YELLOW s
     else if SignalState_eqb (side_signal s) GREEN then set_side_signal YELLOW s
     else s).
Proof.
  unfold shows, lights.
  destruct was; intros [H | H]; injection H as Hm Hd; rewrite Hm, Hd;
    cbn [SignalState_eqb]; sc_simpl; rewrite ?Hm, ?Hd; reflexivity.
Qed.

(** Stage 0: the road that was green shows yellow; the stage ends when
    the yellow time has elapsed. *)
Lemma handle_stage0 (was : Road) (s : SignalController.t) t a m d :
  mid_switch s 0 a m d ->
  shows was GREEN s \/ shows was YELLOW s ->
  let s' := handle_signal_switching s t in
  shows was YELLOW s'
  /\ (t - a < Config.FIXED_YELLOW_TIME -> mid_switch s' 0 a m d)
  /\ (Config.FIXED_YELLOW_TIME <= t - a -> mid_switch s' 1 t m d).
Proof.
  intros (Hmode & Hsw & Hst & Ha & Hm & Hd) Hl. cbv zeta.
  unfold handle_signal_switching. cbv zeta. rewrite Hst.
  cbn [Z.eqb].
  pose proof (shows_green_or_yellow_yellowed was s Hl) as Hy.
  set (s2 := if SignalState_eqb (main_signal s) GREEN then set_main_signal YELLOW s
             else if SignalState_eqb (side_signal s) GREEN
                  then set_side_signal YELLOW s else s) in *.
  assert (Hs2 : controller_type s2 = controller_type s
                /\ switching s2 = true /\ switch_stage s2 = 0%Z
                /\ switch_start_time s2 = switch_start_time s
                /\ main_last_green s2 = m /\ side_last_green s2 = d).
  { subst s2. destruct (SignalState_eqb _ GREEN); sc_simpl;
      [|destruct (SignalState_eqb _ GREEN); sc_simpl]; repeat split; assumption. }
  destruct Hs2 as (E1 & E2 & E3 & E4 & E5 & E6).
  clearbody s2.
  rewrite (Qleb_comp' _ _ (Qeq_refl Config.FIXED_YELLOW_TIME)
             (t - switch_start_time s) (t - a)) by (rewrite Ha; reflexivity).
  destruct (Config.FIXED_YELLOW_TIME <=? t - a) eqn:E.
  - apply Qleb_le in E. split; [exact Hy|]. split.
    + intro Hlt. exfalso. apply (Qlt_not_le _ _ Hlt E).
    + intros _. unfold mid_switch. sc_simpl. rewrite E1.
      repeat split; try assumption; try reflexivity.
  - apply Qleb_gt in E. split; [exact Hy|]. split.
    + intros _. unfold mid_switch. rewrite E1, E4.
      repeat split; assumption.
    + intro Hle. exfalso. apply (Qlt_not_le _ _ E Hle).
Qed.

(** Stage 1: both roads show ALL_RED; the stage ends when the all-red
    time has elapsed. *)
Lemma handle_stage1 (s : SignalController.t) t a m d :
  mid_switch s 1 a m d ->
  let s' := handle_signal_switching s t in
  lights s' = (ALL_RED, ALL_RED)
  /\ (t - a < Config.FIXED_ALL_RED_TIME -> mid_switch s' 1 a m d)
  /\ (Config.FIXED_ALL_RED_TIME <= t - a -> mid_switch s' 2 t m d).
Proof.
  intros (Hmode & Hsw & Hst & Ha & Hm & Hd). cbv zeta.
  unfold handle_signal_switching. cbv zeta. rewrite Hst.
  cbn [Z.eqb Pos.eqb].
  rewrite (Qleb_comp' _ _ (Qeq_refl Config.FIXED_ALL_RED_TIME)
             (t - switch_start_time s) (t - a)) by (rewrite Ha; reflexivity).
  destruct (Config.FIXED_ALL_RED_TIME <=? t - a) eqn:E.
  - apply Qleb_le in E. split; [reflexivity|]. split.
    + intro Hlt. exfalso. apply (Qlt_not_le _ _ Hlt E).
    + intros _. unfold mid_switch. sc_simpl.
      repeat split; try assumption; try reflexivity.
  - apply Qleb_gt in E. split; [reflexivity|]. split.
    + intros _. unfold mid_switch. sc_simpl. repeat split; assumption.
    + intro Hle. exfalso. apply (Qlt_not_le _ _ E Hle).
Qed.

(** Stage 2: the road with the older last-green timestamp gets GREEN, the
    other RED, and the controller is idle again. *)
Lemma handle_stage2 (was : Road) (s : SignalController.t) t a m d :
  mid_switch s 2 a m d ->
  last_green s (other_road was) < last_green s was ->
  let s' := handle_signal_switching s t in
  switching s' = false
  /\ shows (other_road was) GREEN s'
  /\ current_green_time s' = 0
  /\ main_last_green s' = m /\ side_last_green s' = d
  /\ controller_type s' = controller_type s.
Proof.
  intros (Hmode & Hsw & Hst & Ha & Hm & Hd) Hold. cbv zeta.
  unfold handle_signal_switching. cbv zeta. rewrite Hst.
  cbn [Z.eqb Pos.eqb].
  destruct was; cbn [other_road last_green] in Hold.
  - apply Qltb_lt in Hold. rewrite Hold. sc_simpl.
    unfold shows, lights. sc_simpl. repeat split; assumption.
  - assert (E : (side_last_green s <? main_last_green s) = false).
    { apply Qltb_ge. apply Qlt_le_weak. exact Hold. }
    rewrite E. sc_simpl. unfold shows, lights. sc_simpl.
    repeat split; assumption.
Qed.

(** The two clocks that [update] advances play no part in a switch. *)
Lemma mid_switch_timers (s : SignalController.t) v w stage a m d :
  mid_switch s stage a m d ->
  mid_switch (set_current_green_time v (set_signal_timer w s)) stage a m d.
Proof. exact (fun H => H). Qed.

Lemma tick_stage0 (was : Road) (s : SignalController.t) cars dt t a m d :
  mid_switch s 0 a m d ->
  shows was GREEN s \/ shows was YELLOW s ->
  let s' := update s cars dt t in
  shows was YELLOW s'
  /\ (t - a < Config.FIXED_YELLOW_TIME -> mid_switch s' 0 a m d)
  /\ (Config.FIXED_YELLOW_TIME <= t - a -> mid_switch s' 1 t m d).
Proof.
  intros Hmid Hl. cbv zeta.
  rewrite (update_switching s cars dt t (proj1 Hmid) (proj1 (proj2 Hmid))).
  apply handle_stage0; [apply mid_switch_timers; exact Hmid | exact Hl].
Qed.

Lemma tick_stage1 (s : SignalController.t) cars dt t a m d :
  mid_switch s 1 a m d ->
  let s' := update s cars dt t in
  lights s' = (ALL_RED, ALL_RED)
  /\ (t - a < Config.FIXED_ALL_RED_TIME -> mid_switch s' 1 a m d)
  /\ (Config.FIXED_ALL_RED_TIME <= t - a -> mid_switch s' 2 t m d).
Proof.
  intros Hmid. cbv zeta.
  rewrite (update_switching s cars dt t (proj1 Hmid) (proj1 (proj2 Hmid))).
  apply handle_stage1. apply mid_switch_timers. exact Hmid.
Qed.

Lemma tick_stage2 (was : Road) (s : SignalController.t) cars dt t a m d :
  mid_switch s 2 a m d ->
  last_green s (other_road was) < last_green s was ->
  let s' := update s cars dt t in
  switching s' = false
  /\ shows (other_road was) GREEN s'
  /\ current_green_time s' = 0
  /\ main_last_green s' = m /\ side_last_green s' = d
  /\ controller_type s' = controller_type s.
Proof.
  intros Hmid Hold. cbv zeta.
  rewrite (update_switching s cars dt t (proj1 Hmid) (proj1 (proj2 Hmid))).
  assert (Hold' : last_green
                    (set_current_green_time (current_green_time s + dt)
                       (set_signal_timer (signal_timer s + dt) s))
                    (other_road was)
                  < last_green
                      (set_current_green_time (current_green_time s + dt)
                         (set_signal_timer (signal_timer s + dt) s)) was)
    by (destruct was; exact Hold).
  exact (handle_stage2 was _ t a m d (mid_switch_timers s _ _ _ _ _ _ Hmid) Hold').
Qed.

(** *** Ticks whose steps are bounded below *)

Section Ticks.

Variables (t0 eps : Q) (dts : nat -> Q).
Hypothesis eps_pos : 0 < eps.
Hypothesis dts_lower : forall i, eps <= dts i.

Lemma time_after_lower (k m : nat) :
  inject_Z (Z.of_nat m) * eps
  <= time_after t0 dts (k + m) - time_after t0 dts k.
Proof.
  induction m as [|m IH].
  - rewrite Nat.add_0_r. change (inject_Z (Z.of_nat 0)) with 0. lra.
  - rewrite Nat.add_succ_r. cbn [time_after].
    rewrite Nat2Z.inj_succ, <- Z.add_1_r, inject_Z_plus.
    pose proof (dts_lower (k + m)) as Hd.
    change (inject_Z 1) with 1. lra.
Qed.

(** The first tick after tick [k0] at which [d] seconds have elapsed
    since tick [k0]. *)
Lemma first_reach (k0 : nat) (d : Q) :
  exists n : nat,
    (k0 < n)%nat
    /\ d <= time_after t0 dts n - time_after t0 dts k0
    /\ forall k, (k0 < k < n)%nat ->
                 time_after t0 dts k - time_after t0 dts k0 < d.
Proof.
  set (P := fun n : nat =>
              (k0 < n)%nat /\ d <= time_after t0 dts n - time_after t0 dts k0).
  assert (Hdec : forall n, P n \/ ~ P n).
  { intro n. unfold P.
    destruct (Nat.lt_ge_cases k0 n) as [Hlt | Hge].
    - destruct (Qlt_le_dec (time_after t0 dts n - time_after t0 dts k0) d)
        as [Hq | Hq].
      + right. intros [_ Hd]. apply (Qlt_not_le _ _ Hq Hd).
      + left. split; assumption.
    - right. intros [Hlt _]. lia. }
  assert (Hex : exists n, P n).
  { set (M := Z.max 1 (Qceiling (d / eps))).
    exists (k0 + Z.to_nat M)%nat. unfold P. split; [lia|].
    eapply Qle_trans; [|apply time_after_lower].
    rewrite Z2Nat.id by lia.
    apply Qle_trans with (inject_Z (Qceiling (d / eps)) * eps).
    - apply Qle_trans with (d / eps * eps).
      + setoid_replace (d / eps * eps) with d; [apply Qle_refl|].
        field. intro E. rewrite E in eps_pos. apply (Qlt_irrefl _ eps_pos).
      + apply Qmult_le_compat_r; [apply Qle_ceiling | apply Qlt_le_weak, eps_pos].
    - apply Qmult_le_compat_r; [|apply Qlt_le_weak, eps_pos].
      rewrite <- Zle_Qle. lia. }
  destruct (dec_inh_nat_subset_has_unique_least_element P Hdec Hex)
    as (n & ((Hlt & Hd) & Hleast) & _).
  exists n. split; [exact Hlt|]. split; [exact Hd|].
  intros k [Hk1 Hk2].
  apply Qnot_le_lt. intro Hle.
  assert (Hn : (n <= k)%nat) by (apply Hleast; split; assumption).
  lia.
Qed.

Variables (s : SignalController.t) (cars : nat -> list Car.t).

(** A property kept by every tick as long as less than [limit] seconds
    have elapsed since [a] holds from tick [k0] up to the tick at which
    the limit is reached, and what each of those ticks shows is
    observed. *)
Lemma hold_until (Inv Obs : SignalController.t -> Prop) (a limit : Q)
    (k0 n : nat) :
  (forall s1 k, Inv s1 ->
     Obs (update s1 (cars k) (dts k) (time_after t0 dts (S k)))
     /\ (time_after t0 dts (S k) - a < limit ->
         Inv (update s1 (cars k) (dts k) (time_after t0 dts (S k))))) ->
  Inv (run_ticks s t0 dts cars k0) ->
  (forall k, (k0 < k < n)%nat -> time_after t0 dts k - a < limit) ->
  forall k, (k0 <= k < n)%nat ->
    Inv (run_ticks s t0 dts cars k)
    /\ ((k0 < k)%nat -> Obs (run_ticks s t0 dts cars k)).
Proof.
  intros Hstep H0 Hlim k. induction k as [|k IH]; intros [Hk1 Hk2].
  - assert (k0 = 0)%nat by lia. subst k0. split; [exact H0 | lia].
  - destruct (Nat.eq_dec k0 (S k)) as [E | NE].
    + subst k0. split; [exact H0 | lia].
    + destruct IH as [IH _]; [lia|].
      cbn [run_ticks].
      destruct (Hstep _ k IH) as [Ho Hi].
      split; [|intros _; exact Ho].
      apply Hi. apply Hlim. lia.
Qed.

End Ticks.

(** *** From the start of a switch to the new green *)

Lemma mid_switch_switching (s : SignalController.t) stage a m d :
  mid_switch s stage a m d -> switching s = true.
Proof. intros (_ & H & _). exact H. Qed.

Lemma switch_run (s : SignalController.t) (t0 eps : Q) (dts : nat -> Q)
    (cars : nat -> list Car.t) (was : Road) :
  0 < eps -> (forall i, eps <= dts i) ->
  mid_switch s 0 t0 (main_last_green s) (side_last_green s) ->
  shows was GREEN s ->
  last_green s (other_road was) < last_green s was ->
  exists n1 n2 : nat,
    (1 <= n1 < n2)%nat
    /\ (forall k, (1 <= k <= n1)%nat ->
          switching (run_ticks s t0 dts cars k) = true
          /\ shows was YELLOW (run_ticks s t0 dts cars k))
    /\ (forall k, (n1 < k <= n2)%nat ->
          switching (run_ticks s t0 dts cars k) = true
          /\ lights (run_ticks s t0 dts cars k) = (ALL_RED, ALL_RED))
    /\ switching (run_ticks s t0 dts cars (S n2)) = false
    /\ shows (other_road was) GREEN (run_ticks s t0 dts cars (S n2))
    /\ current_green_time (run_ticks s t0 dts cars (S n2)) = 0
    /\ main_last_green (run_ticks s t0 dts cars (S n2)) = main_last_green s
    /\ side_last_green (run_ticks s t0 dts cars (S n2)) = side_last_green s.
Proof.
  intros Heps Hdts Hmid Hgreen Hold.
  set (m := main_last_green s) in *. set (d := side_last_green s) in *.
  set (R := run_ticks s t0 dts cars). set (T := time_after t0 dts).
  (* yellow *)
  destruct (first_reach t0 eps dts Heps Hdts 0 Config.FIXED_YELLOW_TIME)
    as (n1 & Hn1 & Hreach1 & Hbefore1).
  fold T in Hreach1, Hbefore1. change (T 0%nat) with t0 in Hreach1, Hbefore1.
  assert (Hold0 : forall k, (0 <= k < n1)%nat ->
            (mid_switch (R k) 0 t0 m d
             /\ (shows was GREEN (R k) \/ shows was YELLOW (R k)))
            /\ ((0 < k)%nat -> shows was YELLOW (R k))).
  { apply (hold_until t0 dts s cars
             (fun s1 => mid_switch s1 0 t0 m d
                        /\ (shows was GREEN s1 \/ shows was YELLOW s1))
             (shows was YELLOW) t0 Config.FIXED_YELLOW_TIME 0 n1).
    - intros s1 k [Hm1 Hl1].
      destruct (tick_stage0 was s1 (cars k) (dts k) (time_after t0 dts (S k))
                  t0 m d Hm1 Hl1) as (Hy & Hstay & _).
      split; [exact Hy|]. intro Hlt. split; [apply Hstay; exact Hlt | right; exact Hy].
    - split; [exact Hmid | left; exact Hgreen].
    - exact Hbefore1. }
  destruct n1 as [|p]; [lia|].
  destruct (Hold0 p ltac:(lia)) as [[Hmp Hlp] _].
  destruct (tick_stage0 was (R p) (cars p) (dts p) (T (S p)) t0 m d Hmp Hlp)
    as (Hy1 & _ & Hadv1).
  specialize (Hadv1 Hreach1).
  change (update (R p) (cars p) (dts p) (T (S p))) with (R (S p)) in Hy1, Hadv1.
  (* all red *)
  destruct (first_reach t0 eps dts Heps Hdts (S p) Config.FIXED_ALL_RED_TIME)
    as (n2 & Hn2 & Hreach2 & Hbefore2).
  fold T in Hreach2, Hbefore2.
  assert (Hold1 : forall k, (S p <= k < n2)%nat ->
            mid_switch (R k) 1 (T (S p)) m d
            /\ ((S p < k)%nat -> lights (R k) = (ALL_RED, ALL_RED))).
  { apply (hold_until t0 dts s cars
             (fun s1 => mid_switch s1 1 (T (S p)) m d)
             (fun s1 => lights s1 = (ALL_RED, ALL_RED))
             (T (S p)) Config.FIXED_ALL_RED_TIME (S p) n2).
    - intros s1 k Hm1.
      destruct (tick_stage1 s1 (cars k) (dts k) (time_after t0 dts (S k))
                  (T (S p)) m d Hm1) as (Hr & Hstay & _).
      split; [exact Hr | exact Hstay].
    - exact Hadv1.
    - exact Hbefore2. }
  destruct n2 as [|q]; [lia|].
  destruct (Hold1 q ltac:(lia)) as [Hmq _].
  destruct (tick_stage1 (R q) (cars q) (dts q) (T (S q)) (T (S p)) m d Hmq)
    as (Hr2 & _ & Hadv2).
  specialize (Hadv2 Hreach2).
  change (update (R q) (cars q) (dts q) (T (S q))) with (R (S q)) in Hr2, Hadv2.
  (* new green *)
  assert (Hold' : last_green (R (S q)) (other_road was) < last_green (R (S q)) was).
  { destruct Hadv2 as (_ & _ & _ & _ & Em & Ed).
    destruct was; cbn [other_road last_green] in *; rewrite Em, Ed; exact Hold. }
  destruct (tick_stage2 was (R (S q)) (cars (S q)) (dts (S q)) (T (S (S q)))
              (T (S q)) m d Hadv2 Hold') as (Hidle & Hnew & Hcgt & Hm' & Hd' & _).
  fold (run_ticks s t0 dts cars (S (S q))) in Hidle, Hnew, Hcgt, Hm', Hd'.
  fold R in Hidle, Hnew, Hcgt, Hm', Hd'.
  exists (S p), (S q). split; [lia|].
  split; [|split; [|split; [|split; [|split; [|split]]]]].
  - intros k Hk. destruct (Nat.eq_dec k (S p)) as [-> | NE].
    + split; [exact (mid_switch_switching _ _ _ _ _ Hadv1) | exact Hy1].
    + destruct (Hold0 k ltac:(lia)) as [[Hm0 _] Hy0].
      split; [exact (mid_switch_switching _ _ _ _ _ Hm0) | apply Hy0; lia].
  - intros k Hk. destruct (Nat.eq_dec k (S q)) as [-> | NE].
    + split; [exact (mid_switch_switching _ _ _ _ _ Hadv2) | exact Hr2].
    + destruct (Hold1 k ltac:(lia)) as [Hm1 Hr1].
      split; [exact (mid_switch_switching _ _ _ _ _ Hm1) | apply Hr1; lia].
  - exact Hidle.
  - exact Hnew.
  - exact Hcgt.
  - exact Hm'.
  - exact Hd'.
Qed.

(** *** The controller on the clock of a run *)

Lemma initiate_effect (s : SignalController.t) (t : Q) :
  let s' := initiate_signal_switch s t in
  switching s' = true /\ switch_stage s' = 0%Z /\ switch_start_time s' = t
  /\ current_green_time s' = 0 /\ lights s' = lights s
  /\ controller_type s' = controller_type s
  /\ ((main_signal s = GREEN /\ main_last_green s' = t
       /\ side_last_green s' = side_last_green s)
      \/ (main_signal s <> GREEN /\ side_signal s = GREEN
          /\ side_last_green s' = t /\ main_last_green s' = main_last_green s)
      \/ (main_signal s <> GREEN /\ side_signal s <> GREEN
          /\ main_last_green s' = main_last_green s
          /\ side_last_green s' = side_last_green s)).
Proof.
  cbv zeta. unfold initiate_signal_switch, lights. cbv zeta. sc_simpl.
  destruct (SignalState_eqb (main_signal s) GREEN) eqn:Em.
  - apply SignalState_eqb_eq in Em. sc_simpl.
    repeat split. left. repeat split. exact Em.
  - apply SignalState_eqb_neq in Em.
    destruct (SignalState_eqb (side_signal s) GREEN) eqn:Ed.
    + apply SignalState_eqb_eq in Ed. sc_simpl.
      repeat split. right. left. repeat split; assumption.
    + apply SignalState_eqb_neq in Ed. sc_simpl.
      repeat split. right. right. repeat split; assumption.
Qed.

Lemma idle_outcome_initiate (s s1 : SignalController.t) (t : Q) :
  controller_type s1 = controller_type s -> lights s1 = lights s ->
  main_last_green s1 = main_last_green s ->
  side_last_green s1 = side_last_green s ->
  idle_tick_outcome s (initiate_signal_switch s1 t) t.
Proof.
  intros Hc Hl Hm Hd.
  destruct (initiate_effect s1 t) as (H1 & H2 & H3 & _ & H5 & H6 & H7).
  unfold lights in Hl. injection Hl as Hlm Hld.
  unfold idle_tick_outcome. rewrite H6, H5, Hc.
  split; [reflexivity|]. split; [unfold lights; congruence|].
  right. split; [exact H1|]. split; [exact H2|]. split; [exact H3|].
  rewrite <- Hlm, <- Hld, <- Hm, <- Hd. exact H7.
Qed.

Lemma update_ai_signals_idle (s : SignalController.t) cars t :
  switching s = false ->
  idle_tick_outcome s (update_ai_signals s cars t) t.
Proof.
  intro Hidle. unfold update_ai_signals. rewrite Hidle. cbv zeta.
  destruct (Config.AI_UPDATE_INTERVAL <=? t - last_ai_update s).
  - destruct (make_ai_decision_cases s cars t) as [E | E]; rewrite E; clear E.
    + match goal with
      | |- context [if ?c then initiate_signal_switch _ _ else _] => destruct c
      end.
      * exact (idle_outcome_initiate s (set_last_ai_update t s) t
                 eq_refl eq_refl eq_refl eq_refl).
      * unfold idle_tick_outcome, lights. sc_simpl. repeat split.
        left. repeat split. exact Hidle.
    + destruct (initiate_effect s t) as (H1 & H2 & H3 & H4 & H5 & H6 & H7).
      cbv zeta in *. unfold lights in H5.
      generalize dependent (initiate_signal_switch s t). intros s2 H1 H2 H3 H4 H5 H6 H7.
      match goal with
      | |- context [if ?c then initiate_signal_switch _ _ else _] =>
          destruct c eqn:Ec
      end.
      * exfalso. apply andb_true_iff in Ec. destruct Ec as [_ Ec].
        sc_simpl. rewrite H4 in Ec. vm_compute in Ec. discriminate.
      * unfold idle_tick_outcome, lights. sc_simpl.
        split; [exact H6|]. split; [exact H5|].
        right. repeat split; assumption.
  - match goal with
    | |- context [if ?c then initiate_signal_switch _ _ else _] => destruct c
    end.
    + exact (idle_outcome_initiate s s t eq_refl eq_refl eq_refl eq_refl).
    + unfold idle_tick_outcome. repeat split. left. repeat split. exact Hidle.
Qed.

Lemma update_adaptive (s : SignalController.t) cars dt t :
  controller_type s <> "fixed"%string ->
  update s cars dt t
  = update_ai_signals
      (set_current_green_time (current_green_time s + dt)
         (set_signal_timer (signal_timer s + dt) s)) cars t.
Proof.
  intros Hmode. unfold update. cbv zeta. sc_simpl.
  destruct (String.eqb_spec (controller_type s) "fixed") as [E | _];
    [contradiction | reflexivity].
Qed.

Lemma handle_signal_switching_controller_type (s : SignalController.t) t :
  controller_type (handle_signal_switching s t) = controller_type s.
Proof.
  unfold handle_signal_switching. cbv zeta.
  repeat match goal with
  | |- context [if ?c then _ else _] => destruct c
  end; reflexivity.
Qed.

Lemma update_controller_type (s : SignalController.t) cars dt t :
  controller_type (update s cars dt t) = controller_type s.
Proof.
  destruct (String.eqb_spec (controller_type s) "fixed") as [E | NE].
  - unfold update. cbv zeta. sc_simpl. rewrite E. cbn [String.eqb Ascii.eqb Bool.eqb].
    unfold update_fixed_signals. cbv zeta.
    repeat match goal with
    | |- context [if ?c then _ else _] => destruct c
    end; sc_simpl; exact E.
  - rewrite (update_adaptive s cars dt t NE).
    destruct (switching s) eqn:Hsw.
    + unfold update_ai_signals. sc_simpl. rewrite Hsw.
      exact (handle_signal_switching_controller_type
               (set_current_green_time (current_green_time s + dt)
                  (set_signal_timer (signal_timer s + dt) s)) t).
    + exact (proj1 (update_ai_signals_idle
               (set_current_green_time (current_green_time s + dt)
                  (set_signal_timer (signal_timer s + dt) s)) cars t Hsw)).
Qed.

Lemma mid_switch_last_green (s : SignalController.t) stage a m d (r : Road) :
  mid_switch s stage a m d ->
  last_green s r = match r with main => m | side => d end.
Proof.
  intros (_ & _ & _ & _ & Hm & Hd). destruct r; assumption.
Qed.

(** A controller in the middle of a switch satisfies the invariant of
    the clock as soon as its stage does. *)
Lemma clock_inv_mid (s' : SignalController.t) (was : Road) stage a m d t' :
  mid_switch s' stage a m d ->
  match other_road was with main => m | side => d end
  < match was with main => m | side => d end ->
  match was with main => m | side => d end <= t' ->
  (stage = 0%Z /\ shows was GREEN s' /\ a == t')
  \/ (stage = 0%Z /\ shows was YELLOW s' /\ a < t')
  \/ stage = 1%Z \/ stage = 2%Z ->
  clock_inv s' t'.
Proof.
  intros Hmid Hold Hle Hstage. unfold clock_inv.
  rewrite (mid_switch_switching _ _ _ _ _ Hmid).
  exists was.
  rewrite (mid_switch_last_green _ _ _ _ _ (other_road was) Hmid).
  rewrite (mid_switch_last_green _ _ _ _ _ was Hmid).
  destruct Hmid as (_ & _ & Hst & Ha & _ & _).
  split; [exact Hold|]. split; [exact Hle|].
  rewrite Hst, Ha. exact Hstage.
Qed.

Lemma clock_inv_update (s : SignalController.t) (t : Q) cars dt :
  controller_type s <> "fixed"%string ->
  0 < dt ->
  clock_inv s t ->
  clock_inv (update s cars dt (t + dt)) (t + dt).
Proof.
  intros Hmode Hdt Hinv. unfold clock_inv in Hinv.
  destruct (switching s) eqn:Hsw.
  - (* a switch is in progress *)
    destruct Hinv as (was & Hold & Hle & Hstage).
    set (m := main_last_green s) in *. set (d := side_last_green s) in *.
    assert (Hold' : match other_road was with main => m | side => d end
                    < match was with main => m | side => d end)
      by (destruct was; exact Hold).
    assert (Hle' : match was with main => m | side => d end <= t + dt)
      by (destruct was; cbn [last_green] in Hle; fold m d in Hle; lra).
    destruct Hstage as [(Hst & Hg & Hstart) | [(Hst & Hy & Hstart) | [Hst | Hst]]].
    + assert (Hmid : mid_switch s 0 t m d) by (repeat split; assumption).
      destruct (tick_stage0 was s cars dt (t + dt) t m d Hmid (or_introl Hg))
        as (Hy' & Hstay & Hadv).
      destruct (Qlt_le_dec (t + dt - t) Config.FIXED_YELLOW_TIME) as [Hlt | Hge].
      * apply (clock_inv_mid _ was 0 t m d); try assumption; [apply Hstay; exact Hlt|].
        right. left. repeat split; [exact Hy' | lra].
      * apply (clock_inv_mid _ was 1 (t + dt) m d); try assumption;
          [apply Hadv; exact Hge|]. right. right. left. reflexivity.
    + assert (Hmid : mid_switch s 0 (switch_start_time s) m d)
        by (repeat split; try assumption; reflexivity).
      destruct (tick_stage0 was s cars dt (t + dt) (switch_start_time s) m d
                  Hmid (or_intror Hy)) as (Hy' & Hstay & Hadv).
      destruct (Qlt_le_dec (t + dt - switch_start_time s) Config.FIXED_YELLOW_TIME)
        as [Hlt | Hge].
      * apply (clock_inv_mid _ was 0 (switch_start_time s) m d); try assumption;
          [apply Hstay; exact Hlt|].
        right. left. repeat split; [exact Hy' | lra].
      * apply (clock_inv_mid _ was 1 (t + dt) m d); try assumption;
          [apply Hadv; exact Hge|]. right. right. left. reflexivity.
    + assert (Hmid : mid_switch s 1 (switch_start_time s) m d)
        by (repeat split; try assumption; reflexivity).
      destruct (tick_stage1 s cars dt (t + dt) (switch_start_time s) m d Hmid)
        as (_ & Hstay & Hadv).
      destruct (Qlt_le_dec (t + dt - switch_start_time s) Config.FIXED_ALL_RED_TIME)
        as [Hlt | Hge].
      * apply (clock_inv_mid _ was 1 (switch_start_time s) m d); try assumption;
          [apply Hstay; exact Hlt|]. right. right. left. reflexivity.
      * apply (clock_inv_mid _ was 2 (t + dt) m d); try assumption;
          [apply Hadv; exact Hge|]. right. right. right. reflexivity.
    + assert (Hmid : mid_switch s 2 (switch_start_time s) m d)
        by (repeat split; try assumption; reflexivity).
      destruct (tick_stage2 was s cars dt (t + dt) (switch_start_time s) m d
                  Hmid Hold) as (Hidle & Hnew & Hcgt & Hm' & Hd' & _).
      unfold clock_inv. rewrite Hidle, Hcgt, Hm', Hd'.
      split; [|split; [apply Qle_refl|]].
      * destruct was; cbn [other_road] in Hnew; [right | left]; exact Hnew.
      * destruct was; cbn [other_road last_green] in *; fold m d in Hold, Hle;
          split; lra.
  - (* idle *)
    destruct Hinv as (Hgreen & Hcgt & Hm & Hd).
    rewrite (update_adaptive s cars dt (t + dt) Hmode).
    set (s1 := set_current_green_time (current_green_time s + dt)
                 (set_signal_timer (signal_timer s + dt) s)).
    destruct (update_ai_signals_idle s1 cars (t + dt) Hsw)
      as (Hc & Hl & [(Hi & Hg' & Hm' & Hd') | (Hs' & Hst & Hstart & Hwho)]).
    + unfold clock_inv. rewrite Hi, Hg', Hm', Hd'.
      subst s1. sc_simpl.
      split; [|split; [lra | split; lra]].
      unfold shows in *. rewrite Hl. exact Hgreen.
    + unfold clock_inv. rewrite Hs'.
      assert (Hl' : lights (update_ai_signals s1 cars (t + dt)) = lights s)
        by (rewrite Hl; reflexivity).
      subst s1. sc_simpl.
      destruct Hgreen as [Hg | Hg].
      * (* main was green *)
        unfold shows, lights in Hg. injection Hg as Hgm Hgd.
        destruct Hwho as [(_ & Em & Ed) | [(Hn & _) | (Hn & _)]];
          try contradiction.
        exists main. cbn [other_road last_green]. rewrite Em, Ed.
        split; [lra|]. split; [apply Qle_refl|].
        left. split; [exact Hst|]. split.
        -- unfold shows. rewrite Hl'. unfold lights. congruence.
        -- rewrite Hstart. reflexivity.
      * (* side was green *)
        unfold shows, lights in Hg. injection Hg as Hgm Hgd.
        destruct Hwho as [(Hn & _) | [(_ & _ & Ed & Em) | (_ & Hn & _)]];
          try congruence.
        exists side. cbn [other_road last_green]. rewrite Em, Ed.
        split; [lra|]. split; [apply Qle_refl|].
        left. split; [exact Hst|]. split.
        -- unfold shows. rewrite Hl'. unfold lights. congruence.
        -- rewrite Hstart. reflexivity.
Qed.

(** The invariant holds along every run of an adaptive controller. *)
Lemma clocked_clock_inv (s : SignalController.t) (t : Q) :
  clocked s t -> controller_type s <> "fixed"%string -> clock_inv s t.
Proof.
  induction 1 as [ctype start | s t cars dt _ IH Hdt | s t road t' _ IH];
    intro Hmode.
  - unfold clock_inv. cbn. split; [left; reflexivity|].
    split; [discriminate|]. split; lra.
  - rewrite update_controller_type in Hmode.
    apply clock_inv_update; [exact Hmode | exact Hdt | exact (IH Hmode)].
  - destruct road; exact (IH Hmode).
Qed.

Lemma clocked_run_ticks (s : SignalController.t) (t : Q) (dts : nat -> Q)
    (cars : nat -> list Car.t) (n : nat) :
  clocked s t -> (forall i, 0 < dts i) ->
  clocked (run_ticks s t dts cars n) (time_after t dts n).
Proof.
  intros Hs Hdts. induction n as [|n IH].
  - exact Hs.
  - cbn [run_ticks time_after]. apply clocked_update; [exact IH | apply Hdts].
Qed.

(** C2. In adaptive mode, in any run on the simulation clock, a switch
    that has just been initiated (stage 0, begun at the present time)
    runs yellow, then all-red, then the grant, to the end, whatever the
    vehicles (and so the pressures) of the ticks in between are, provided
    the steps of the ticks are bounded below by a positive [eps]; the
    grant gives GREEN to the road whose last-green timestamp is the older
    one and RED to the road that held green when the switch began. *)
Theorem switch_completes (s : SignalController.t) (t0 eps : Q)
    (dts : nat -> Q) (cars : nat -> list Car.t) :
  clocked s t0 ->
  controller_type s <> "fixed"%string ->
  switching s = true ->
  switch_stage s = 0%Z ->
  switch_start_time s == t0 ->
  0 < eps ->
  (forall i, eps <= dts i) ->
  switch_runs_to_completion s t0 dts cars.
Proof.
  intros Hclk Hmode Hsw Hst Hstart Heps Hdts.
  pose proof (clocked_clock_inv s t0 Hclk Hmode) as Hinv.
  unfold clock_inv in Hinv. rewrite Hsw in Hinv.
  destruct Hinv as (was & Hold & _ & Hstage).
  assert (Hg : shows was GREEN s).
  { destruct Hstage as [(_ & Hg & _) | [(_ & _ & Hlt) | [E | E]]].
    - exact Hg.
    - exfalso. rewrite Hstart in Hlt. apply (Qlt_irrefl _ Hlt).
    - rewrite Hst in E. discriminate.
    - rewrite Hst in E. discriminate. }
  assert (Hmid : mid_switch s 0 t0 (main_last_green s) (side_last_green s))
    by (repeat split; assumption).
  destruct (switch_run s t0 eps dts cars was Heps Hdts Hmid Hg Hold)
    as (n1 & n2 & Hn & Hyel & Hred & Hidle & Hnew & Hcgt & Hm & Hd).
  exists was, n1, n2.
  split; [exact Hg|]. split; [exact Hn|]. split; [exact Hyel|].
  split; [exact Hred|]. split; [exact Hidle|]. split; [exact Hnew|].
  split; [|exact Hcgt].
  destruct was; cbn [other_road last_green] in *; rewrite Hm, Hd; exact Hold.
Qed.

Lemma at_max_green_clocked : clocked at_max_green time_at_max_green.
Proof.
  apply clocked_run_ticks; [apply clocked_init | intro i; reflexivity].
Qed.

Lemma at_max_green_adaptive : controller_type at_max_green <> "fixed"%string.
Proof. vm_compute. discriminate. Qed.

Lemma at_max_green_started :
  switching at_max_green = true /\ switch_stage at_max_green = 0%Z
  /\ switch_start_time at_max_green == time_at_max_green.
Proof. repeat split; vm_compute; reflexivity. Qed.

(** The switch started at second 50 of the empty run completes. *)
Lemma switch_completes_witness :
  switch_runs_to_completion at_max_green time_at_max_green one_second no_cars.
Proof.
  exact (switch_completes at_max_green time_at_max_green 1 one_second no_cars
           at_max_green_clocked at_max_green_adaptive
           (proj1 at_max_green_started)
           (proj1 (proj2 at_max_green_started))
           (proj2 (proj2 at_max_green_started))
           eq_refl
           (fun _ => Qle_refl 1)).
Defined.

Lemma cruising_car_unobstructed :
  unobstructed cruising_car [cruising_car] (SignalController.init "fixed" 0).
Proof. split; [vm_compute; reflexivity | right; vm_compute; reflexivity]. Qed.

(** One clock reading of 16 ms at the two multipliers, and the cruising
    car: 3.84 px at 1.0, 7.68 px at 2.0. *)
Lemma speed_multiplier_scaling_witness :
  let a := TrafficSimulation.advance_clock (one_car_simulation 1.0) 16 in
  let b := TrafficSimulation.advance_clock (one_car_simulation 2.0) 16 in
  TrafficSimulation.dt_sim b == 2 * TrafficSimulation.dt_sim a
  /\ travelled cruising_car
       (Car.update cruising_car [cruising_car] (SignalController.init "fixed" 0)
                   (TrafficSimulation.dt_sim b))
     == 2 * travelled cruising_car
              (Car.update cruising_car [cruising_car]
                          (SignalController.init "fixed" 0)
                          (TrafficSimulation.dt_sim a)).
Proof.
  cbv zeta.
  destruct (speed_multiplier_scaling (one_car_simulation 1.0)
              (one_car_simulation 2.0) 16
              ltac:(reflexivity) ltac:(reflexivity) ltac:(reflexivity)
              ltac:(discriminate)) as (Hdt & _ & Htravel).
  split; [exact Hdt|].
  apply Htravel.
  - exact cruising_car_unobstructed.
  - discriminate.
  - reflexivity.
Defined.

(** ** Arrivals *)

Section ArrivalCounts.

(** Of [math.exp] only this is used: it is below 1 on negative
    arguments. *)
Variable exp : Q -> Q.
Hypothesis exp_below_1 : forall x, x < 0 -> exp x < 1.

Lemma choice_draws (n : nat) (g : Random.t) :
  Random.draws (snd (Random.choice n g)) = Random.draws g.
Proof. reflexivity. Qed.

Lemma event_zero_draws (dt rate : Q) (g : Random.t) :
  zero_draws g -> 0 < dt -> 0 < rate ->
  fst (TrafficSimulation.event exp dt rate g) = true
  /\ Random.draws (snd (TrafficSimulation.event exp dt rate g)) = Random.draws g.
Proof.
  intros Hz Hdt Hrate. unfold TrafficSimulation.event. cbv zeta.
  cbn [Random.random fst snd Random.draws].
  split; [|reflexivity].
  apply Qltb_lt. rewrite (Hz (Random.cursor g)).
  assert (Hneg : - rate * dt < 0).
  { setoid_replace (- rate * dt) with (- (rate * dt)) by ring.
    assert (0 < rate * dt) by (apply Qmult_lt_0_compat; assumption). lra. }
  pose proof (exp_below_1 _ Hneg) as He.
  setoid_replace 1.0 with 1 by reflexivity. lra.
Qed.

Lemma draw_ambulance_draws (s : TrafficSimulation.t) (g : Random.t) :
  Random.draws (snd (TrafficSimulation.draw_ambulance s g)) = Random.draws g.
Proof.
  unfold TrafficSimulation.draw_ambulance.
  destruct (TrafficSimulation.ambulance_mode s); reflexivity.
Qed.

Lemma new_car_draws (s : TrafficSimulation.t) x0 y0 d amb (g : Random.t) :
  Random.draws (snd (TrafficSimulation.new_car s x0 y0 d amb g)) = Random.draws g.
Proof.
  unfold TrafficSimulation.new_car. destruct amb; reflexivity.
Qed.

Lemma enroll_car_effect (s : TrafficSimulation.t) (car : Car.t) (road : Road) :
  arrivals (TrafficSimulation.enroll_car s car road) = (arrivals s + 1)%Z
  /\ controls (TrafficSimulation.enroll_car s car road) = controls s
  /\ TrafficSimulation.dt_sim (TrafficSimulation.enroll_car s car road)
     = TrafficSimulation.dt_sim s.
Proof. repeat split. Qed.

(** With all draws 0 both events of [spawn_cars] fire, whatever cars are
    then built. *)
Lemma spawn_cars_zero_draws (s : TrafficSimulation.t) (g : Random.t) :
  zero_draws g -> 0 < TrafficSimulation.dt_sim s ->
  arrivals (fst (TrafficSimulation.spawn_cars exp s g)) = (arrivals s + 2)%Z
  /\ controls (fst (TrafficSimulation.spawn_cars exp s g)) = controls s
  /\ TrafficSimulation.dt_sim (fst (TrafficSimulation.spawn_cars exp s g))
     = TrafficSimulation.dt_sim s
  /\ zero_draws (snd (TrafficSimulation.spawn_cars exp s g)).
Proof.
  intros Hz Hdt. unfold TrafficSimulation.spawn_cars. cbv zeta.
  set (main_rate := Config.BASE_SPAWN_RATE * Config.FPS * Config.MAIN_ROAD_MULTIPLIER).
  set (side_rate := Config.BASE_SPAWN_RATE * Config.FPS * Config.SIDE_ROAD_MULTIPLIER).
  assert (Hmr : 0 < main_rate) by reflexivity.
  assert (Hsr : 0 < side_rate) by reflexivity.
  destruct (event_zero_draws (TrafficSimulation.dt_sim s) main_rate g Hz Hdt Hmr)
    as [Hf1 Hd1].
  destruct (TrafficSimulation.event exp (TrafficSimulation.dt_sim s) main_rate g)
    as [fire1 g1]. cbn [fst snd] in Hf1, Hd1. subst fire1.
  pose proof (choice_draws 2 g1) as Hd2.
  destruct (Random.choice 2 g1) as [i1 g2]. cbn [snd] in Hd2.
  pose proof (draw_ambulance_draws s g2) as Hd3.
  destruct (TrafficSimulation.draw_ambulance s g2) as [amb1 g3]. cbn [snd] in Hd3.
  set (c1 := match match i1 with O => NORTH | _ => SOUTH end with
             | NORTH => _ | _ => _ end).
  assert (Hd4 : Random.draws (snd c1) = Random.draws g3).
  { subst c1. destruct i1; apply new_car_draws. }
  destruct c1 as [car1 g4]. cbn [snd] in Hd4.
  set (s1 := TrafficSimulation.enroll_car s car1 main).
  destruct (enroll_car_effect s car1 main) as (Ha1 & Hc1 & Hdt1).
  fold s1 in Ha1, Hc1, Hdt1.
  assert (Hz4 : zero_draws g4).
  { intro n. rewrite Hd4, Hd3, Hd2, Hd1. apply Hz. }
  assert (Hdt' : 0 < TrafficSimulation.dt_sim s1) by (rewrite Hdt1; exact Hdt).
  destruct (event_zero_draws (TrafficSimulation.dt_sim s1) side_rate g4 Hz4 Hdt' Hsr)
    as [Hf5 Hd5].
  destruct (TrafficSimulation.event exp (TrafficSimulation.dt_sim s1) side_rate g4)
    as [fire2 g5]. cbn [fst snd] in Hf5, Hd5. subst fire2.
  pose proof (choice_draws 2 g5) as Hd6.
  destruct (Random.choice 2 g5) as [i2 g6]. cbn [snd] in Hd6.
  pose proof (draw_ambulance_draws s1 g6) as Hd7.
  destruct (TrafficSimulation.draw_ambulance s1 g6) as [amb2 g7]. cbn [snd] in Hd7.
  set (c2 := match match i2 with O => EAST | _ => WEST end with
             | EAST => _ | _ => _ end).
  assert (Hd8 : Random.draws (snd c2) = Random.draws g7).
  { subst c2. destruct i2; apply new_car_draws. }
  destruct c2 as [car2 g8]. cbn [fst snd] in *.
  destruct (enroll_car_effect s1 car2 side) as (Ha2 & Hc2 & Hdt2).
  rewrite Ha2, Hc2, Hdt2, Ha1, Hc1, Hdt1.
  split; [lia|]. split; [reflexivity|]. split; [reflexivity|].
  intro n. rewrite Hd8, Hd7, Hd6, Hd5. apply Hz4.
Qed.

Lemma update_one_car_keeps (s : TrafficSimulation.t) (car : Car.t) :
  arrivals (TrafficSimulation.update_one_car s car) = arrivals s
  /\ controls (TrafficSimulation.update_one_car s car) = controls s.
Proof.
  unfold TrafficSimulation.update_one_car. cbv zeta.
  match goal with
  | |- context [if Car.is_off_screen ?c then _ else _] =>
      destruct (Car.is_off_screen c)
  end; split; reflexivity.
Qed.

Lemma update_cars_keeps (s : TrafficSimulation.t) :
  arrivals (TrafficSimulation.update_cars s) = arrivals s
  /\ controls (TrafficSimulation.update_cars s) = controls s.
Proof.
  unfold TrafficSimulation.update_cars.
  generalize (map Car.ident (TrafficSimulation.cars s)). intro ids.
  revert s. induction ids as [|id ids IH]; intro s; [split; reflexivity|].
  cbn [fold_left].
  destruct (TrafficSimulation.find_car id (TrafficSimulation.cars s)) as [car|].
  - destruct (IH (TrafficSimulation.update_one_car s car)) as [Ha Hc].
    destruct (update_one_car_keeps s car) as [Ha' Hc'].
    rewrite Ha, Hc, Ha', Hc'. split; reflexivity.
  - apply IH.
Qed.

(** With all draws 0 every tick of a running simulation spawns one
    vehicle on each road. *)
Lemma step_zero_draws (s : TrafficSimulation.t) (ms : Z) (g : Random.t) :
  zero_draws g ->
  TrafficSimulation.running s = true ->
  TrafficSimulation.show_menu s = false ->
  0 < TrafficSimulation.simulation_speed s ->
  (0 < ms)%Z ->
  arrivals (fst (TrafficSimulation.step exp s ms g)) = (arrivals s + 2)%Z
  /\ controls (fst (TrafficSimulation.step exp s ms g)) = controls s
  /\ zero_draws (snd (TrafficSimulation.step exp s ms g)).
Proof.
  intros Hz Hrun Hmenu Hspeed Hms. unfold TrafficSimulation.step. cbv zeta.
  set (s0 := TrafficSimulation.advance_clock s ms).
  assert (Hrun0 : TrafficSimulation.running s0 = true) by exact Hrun.
  assert (Hmenu0 : TrafficSimulation.show_menu s0 = false) by exact Hmenu.
  assert (Hdt : 0 < TrafficSimulation.dt_sim s0).
  { subst s0. rewrite (proj1 (advance_clock_dt s ms)).
    apply Qmult_lt_0_compat; [|exact Hspeed].
    apply Qlt_shift_div_l; [reflexivity|]. rewrite Qmult_0_l.
    change 0 with (inject_Z 0). rewrite <- Zlt_Qlt. exact Hms. }
  rewrite Hmenu0, Hrun0.
  destruct (spawn_cars_zero_draws s0 g Hz Hdt) as (Ha & Hc & _ & Hz').
  destruct (TrafficSimulation.spawn_cars exp s0 g) as [s1 g1].
  cbn [fst snd] in *.
  destruct (update_cars_keeps s1) as [Ha2 Hc2].
  split; [|split; [|exact Hz']].
  - change (arrivals (TrafficSimulation.update_cars s1) = (arrivals s + 2)%Z).
    rewrite Ha2, Ha. reflexivity.
  - change (controls (TrafficSimulation.update_cars s1) = controls s).
    rewrite Hc2, Hc. reflexivity.
Qed.

(** The number of arrivals follows the number of ticks, not the
    simulated time. *)
Lemma steps_zero_draws (mss : list Z) (s : TrafficSimulation.t) (g : Random.t) :
  zero_draws g ->
  TrafficSimulation.running s = true ->
  TrafficSimulation.show_menu s = false ->
  0 < TrafficSimulation.simulation_speed s ->
  Forall (fun ms => (0 < ms)%Z) mss ->
  arrivals (fst (TrafficSimulation.steps exp s mss g))
  = (arrivals s + 2 * Z.of_nat (length mss))%Z.
Proof.
  intros Hz Hrun Hmenu Hspeed Hmss. revert s g Hz Hrun Hmenu Hspeed.
  induction Hmss as [|ms mss Hms _ IH]; intros s g Hz Hrun Hmenu Hspeed.
  - cbn. lia.
  - cbn [TrafficSimulation.steps].
    destruct (step_zero_draws s ms g Hz Hrun Hmenu Hspeed Hms) as (Ha & Hc & Hz').
    destruct (TrafficSimulation.step exp s ms g) as [s1 g1]. cbn [fst snd] in *.
    unfold controls in Hc. injection Hc as Hc1 Hc2 Hc3.
    rewrite IH; [|exact Hz' | congruence | congruence | rewrite Hc3; exact Hspeed].
    rewrite Ha. cbn [length]. lia.
Qed.

(** Two ticks at multiplier 1.0 and one tick at multiplier 2.0 span the
    same simulated time and read the same random source, and spawn four
    and two vehicles. *)
Lemma arrivals_follow_ticks (s1 s2 : TrafficSimulation.t) (ms : Z) (g : Random.t) :
  zero_draws g -> (0 < ms)%Z ->
  controls s1 = (true, false, 1.0) -> controls s2 = (true, false, 2.0) ->
  arrivals s1 = arrivals s2 ->
  arrivals (fst (TrafficSimulation.steps exp s1 [ms; ms] g))
  = (arrivals (fst (TrafficSimulation.steps exp s2 [ms] g)) + 2)%Z.
Proof.
  intros Hz Hms H1 H2 Ha.
  unfold controls in H1, H2. injection H1 as R1 M1 V1. injection H2 as R2 M2 V2.
  rewrite (steps_zero_draws [ms; ms] s1 g Hz R1 M1);
    [|rewrite V1; reflexivity | repeat constructor; exact Hms].
  rewrite (steps_zero_draws [ms] s2 g Hz R2 M2);
    [|rewrite V2; reflexivity | repeat constructor; exact Hms].
  rewrite Ha. cbn [length]. lia.
Qed.

End ArrivalCounts.

(** * Further properties *)

(** ** Vehicles: kinematics *)

Lemma car_update_frame {S : Type} `{SignalSource S}
    (c : Car.t) (cars : list Car.t) (sc : S) (dt : Q) :
  let c' := Car.update c cars sc dt in
  Car.ident c' = Car.ident c /\ Car.direction c' = Car.direction c
  /\ Car.max_speed c' = Car.max_speed c /\ Car.is_ambulance c' = Car.is_ambulance c
  /\ Car.spawn_time c' = Car.spawn_time c /\ Car.color c' = Car.color c
  /\ Car.exit_time c' = Car.exit_time c.
Proof.
  cbv zeta. unfold Car.update. cbv zeta.
  match goal with
  | |- context [if ?b || Car.is_some ?a then _ else _] =>
      destruct (b || Car.is_some a)
  end; car_simpl; destruct (Car.direction c) eqn:Ed; car_simpl;
    match goal with
    | |- context [if ?b then Car.set_waiting_time _ _ else _] => destruct b
    end; car_simpl; rewrite ?Ed; repeat split; reflexivity.
Qed.

(** The position after a tick: the new speed times the step scale, along
    the axis of travel. *)
Lemma car_update_position {S : Type} `{SignalSource S}
    (c : Car.t) (cars : list Car.t) (sc : S) (dt : Q) :
  let c' := Car.update c cars sc dt in
  let delta := Car.speed c' * (dt * Config.FPS) in
  match Car.direction c with
  | NORTH => Car.x c' = Car.x c /\ Car.y c' = Car.y c - delta
  | SOUTH => Car.x c' = Car.x c /\ Car.y c' = Car.y c + delta
  | EAST => Car.y c' = Car.y c /\ Car.x c' = Car.x c + delta
  | WEST => Car.y c' = Car.y c /\ Car.x c' = Car.x c - delta
  end.
Proof.
  cbv zeta. car_update_cases c;
    match goal with
    | |- context [if ?b then Car.set_waiting_time _ _ else _] => destruct b
    end; car_simpl; split; reflexivity.
Qed.

Lemma car_update_speed_bounds {S : Type} `{SignalSource S}
    (c : Car.t) (cars : list Car.t) (sc : S) (dt : Q) :
  0 <= dt -> 0 <= Car.speed c -> 0 <= Car.max_speed c ->
  0 <= Car.speed (Car.update c cars sc dt)
  /\ Car.speed (Car.update c cars sc dt) <= Qmax (Car.speed c) (Car.max_speed c)
  /\ (Car.speed c <= Car.max_speed c ->
      Car.speed (Car.update c cars sc dt) <= Car.max_speed c).
Proof.
  intros Hdt Hv Hmax. rewrite car_update_speed.
  assert (Hs : 0 <= dt * Config.FPS) by (unfold Config.FPS; lra).
  set (scale := dt * Config.FPS) in *.
  destruct (_ || _).
  - assert (Hb : Qmax 0 (Car.speed c - Config.CAR_ACCELERATION * 2.0 * scale)
                 <= Car.speed c).
    { apply Q.max_lub; [exact Hv|]. unfold Config.CAR_ACCELERATION. lra. }
    split; [apply Q.le_max_l|]. split.
    + eapply Qle_trans; [exact Hb | apply Q.le_max_l].
    + intro Hle. eapply Qle_trans; [exact Hb | exact Hle].
  - split; [|split].
    + apply Q.min_glb; [exact Hmax|]. unfold Config.CAR_ACCELERATION. lra.
    + eapply Qle_trans; [apply Q.le_min_l | apply Q.le_max_r].
    + intros _. apply Q.le_min_l.
Qed.

(** X1. Over every run of ticks with non-negative steps a vehicle whose
    speed starts within [[0, max_speed]] keeps it there. *)
Theorem car_run_speed_bounds {S : Type} `{SignalSource S}
    (ticks : list (car_tick S)) (c : Car.t) :
  Forall (fun tk => 0 <= tick_step tk) ticks ->
  0 <= Car.speed c <= Car.max_speed c ->
  0 <= Car.speed (car_run c ticks) <= Car.max_speed (car_run c ticks)
  /\ Car.max_speed (car_run c ticks) = Car.max_speed c.
Proof.
  intro Hpos. revert c. induction Hpos as [|tk ticks Htk _ IH]; intros c [Hv Hmax].
  - split; [split; assumption | reflexivity].
  - unfold car_run in *. cbn [fold_left].
    set (c1 := Car.update c (fst (fst tk)) (snd (fst tk)) (snd tk)).
    assert (Hm0 : 0 <= Car.max_speed c) by (eapply Qle_trans; eassumption).
    destruct (car_update_speed_bounds c (fst (fst tk)) (snd (fst tk)) (snd tk)
                Htk Hv Hm0) as (H1 & _ & H3).
    destruct (car_update_frame c (fst (fst tk)) (snd (fst tk)) (snd tk))
      as (_ & _ & Hms & _).
    fold c1 in H1, H3, Hms.
    destruct (IH c1) as [Hb He].
    + rewrite Hms. split; [exact H1 | apply H3; exact Hmax].
    + split; [exact Hb | rewrite He; exact Hms].
Qed.

Lemma held_car_speed : 0 <= Car.speed held_car <= Car.max_speed held_car.
Proof. split; vm_compute; discriminate. Qed.

Lemma car_run_speed_bounds_witness :
  0 <= Car.speed (car_run held_car held_ticks)
       <= Car.max_speed (car_run held_car held_ticks).
Proof.
  pose proof (car_run_speed_bounds held_ticks held_car held_ticks_steps
                held_car_speed) as [Hb _].
  exact Hb.
Defined.

(** X2. A tick never moves a vehicle sideways or backwards and never
    changes its identity, direction, emergency flag or spawn time: with a
    non-negative step and speed it advances along its direction of travel
    by the new speed times the step scale, which is at most the larger of
    its old speed and its maximum speed times the step scale. *)
Theorem car_update_forward {S : Type} `{SignalSource S}
    (c : Car.t) (cars : list Car.t) (sc : S) (dt_sim : Q) :
  0 <= dt_sim -> 0 <= Car.speed c -> 0 <= Car.max_speed c ->
  let c' := Car.update c cars sc dt_sim in
  Car.ident c' = Car.ident c /\ Car.direction c' = Car.direction c
  /\ Car.is_ambulance c' = Car.is_ambulance c
  /\ Car.spawn_time c' = Car.spawn_time c
  /\ lateral_offset c c' == 0
  /\ advance c c' == Car.speed c' * (dt_sim * Config.FPS)
  /\ 0 <= advance c c'
     <= Qmax (Car.speed c) (Car.max_speed c) * (dt_sim * Config.FPS).
Proof.
  intros Hdt Hv Hmax. cbv zeta.
  destruct (car_update_frame c cars sc dt_sim) as (Hid & Hdir & _ & Hamb & Hsp & _).
  destruct (car_update_speed_bounds c cars sc dt_sim Hdt Hv Hmax) as (H0 & Hup & _).
  pose proof (car_update_position c cars sc dt_sim) as Hpos. cbv zeta in Hpos.
  set (c' := Car.update c cars sc dt_sim) in *.
  assert (Hs : 0 <= dt_sim * Config.FPS) by (unfold Config.FPS; lra).
  set (scale := dt_sim * Config.FPS) in *.
  assert (Hadv : advance c c' == Car.speed c' * scale).
  { unfold advance, gap_ahead.
    destruct (Car.direction c); destruct Hpos as [_ E]; rewrite E; ring. }
  split; [exact Hid|]. split; [exact Hdir|]. split; [exact Hamb|].
  split; [exact Hsp|]. split; [|split; [exact Hadv|]].
  - unfold lateral_offset.
    destruct (Car.direction c); destruct Hpos as [E _]; rewrite E;
      match goal with
      | |- Qabs (?a - ?a) == 0 => setoid_replace (a - a) with 0 by ring
      end; reflexivity.
  - rewrite Hadv. split.
    + apply Qmult_le_0_compat; assumption.
    + apply Qmult_le_compat_r; assumption.
Qed.

Lemma car_update_forward_witness :
  advance held_car
    (Car.update held_car [held_car] (SignalController.init "ai" 0) (1 # 60))
  == 0.1.
Proof.
  assert (H0 : 0 <= 1 # 60) by discriminate.
  destruct (car_update_forward held_car [held_car] (SignalController.init "ai" 0)
              (1 # 60) H0 (proj1 held_car_speed)
              (Qle_trans _ _ _ (proj1 held_car_speed) (proj2 held_car_speed)))
    as (_ & _ & _ & _ & _ & E & _).
  rewrite E. vm_compute. reflexivity.
Defined.

(** ** Vehicles: what they react to *)

Lemma Direction_eqb_eq (a b : Direction) : Direction_eqb a b = true <-> a = b.
Proof. destruct a, b; simpl; split; congruence. Qed.

Lemma between_spec (a v b : Q) : Car.between a v b = true <-> a < v < b.
Proof.
  unfold Car.between. rewrite andb_true_iff, !Qltb_lt. reflexivity.
Qed.

(** The loop test of [get_car_ahead], in terms of the gap. *)
Lemma is_ahead_spec (c other : Car.t) :
  Car.is_ahead c other = true
  <-> Car.ident other <> Car.ident c
      /\ Car.direction other = Car.direction c
      /\ lateral_offset c other < inject_Z Config.LANE_WIDTH
      /\ 0 < gap_ahead c other < Config.SAFE_DISTANCE.
Proof.
  unfold Car.is_ahead, lateral_offset, gap_ahead.
  destruct (Nat.eqb_spec (Car.ident other) (Car.ident c)) as [Ei | Ni].
  - cbn [orb]. split; [discriminate | intros (Hn & _); contradiction].
  - cbn [orb].
    destruct (Direction_eqb (Car.direction other) (Car.direction c)) eqn:Ed.
    + apply Direction_eqb_eq in Ed. cbn [negb]. cbv zeta.
      destruct (Car.direction c);
        rewrite !andb_true_iff, !Qltb_lt, between_spec;
        (split;
         [intros [[H1 H2] H3]; repeat split; try assumption; apply H3
         |intros (_ & _ & H2 & H3); repeat split; try assumption; lra]).
    + cbn [negb]. split; [discriminate|].
      intros (_ & Hd & _).
      apply Direction_eqb_eq in Hd. congruence.
Qed.

(** X3. [get_car_ahead] returns a car of the list that is another car,
    travels in the same direction, is less than a lane width to the side
    and strictly between 0 and the safe distance in front; it returns
    [None] exactly when no car of the list is such a car. *)
Theorem get_car_ahead_spec (c : Car.t) (cars : list Car.t) :
  (forall other, Car.get_car_ahead c cars = Some other ->
     In other cars
     /\ Car.ident other <> Car.ident c
     /\ Car.direction other = Car.direction c
     /\ lateral_offset c other < inject_Z Config.LANE_WIDTH
     /\ 0 < gap_ahead c other < Config.SAFE_DISTANCE)
  /\ (Car.get_car_ahead c cars = None
      <-> forall other, In other cars ->
            ~ (Car.ident other <> Car.ident c
               /\ Car.direction other = Car.direction c
               /\ lateral_offset c other < inject_Z Config.LANE_WIDTH
               /\ 0 < gap_ahead c other < Config.SAFE_DISTANCE)).
Proof.
  unfold Car.get_car_ahead. split.
  - intros other Hf. apply find_some in Hf. destruct Hf as [Hin Ha].
    split; [exact Hin|]. apply is_ahead_spec. exact Ha.
  - split.
    + intros Hn other Hin Hq.
      pose proof (find_none _ _ Hn other Hin) as Hf.
      apply is_ahead_spec in Hq. congruence.
    + intro Hall. destruct (find (Car.is_ahead c) cars) as [o|] eqn:Hf;
        [|reflexivity].
      apply find_some in Hf. destruct Hf as [Hin Ha].
      exfalso. apply (Hall o Hin). apply is_ahead_spec. exact Ha.
Qed.

Lemma get_car_ahead_spec_witness :
  gap_ahead ambulance_at_line car_20px_ahead == 20
  /\ Car.direction car_20px_ahead = Car.direction ambulance_at_line.
Proof.
  destruct (proj1 (get_car_ahead_spec ambulance_at_line
                     [ambulance_at_line; car_20px_ahead])
              car_20px_ahead ltac:(vm_compute; reflexivity))
    as (_ & _ & Hd & _ & _).
  split; [vm_compute; reflexivity | exact Hd].
Defined.

Lemma between_band (lo v hi l : Q) :
  lo == l - 50 -> hi == l + 50 ->
  (Car.between lo v hi = true <-> Qabs (v - l) < 50).
Proof.
  intros Hlo Hhi. rewrite between_spec, Qabs_Qlt_condition, Hlo, Hhi.
  split; intros [H1 H2]; split; lra.
Qed.

(** X4. A vehicle is told to stop for a signal exactly when it is
    strictly within 50 px of the stop line of its approach and the signal
    of its own road (main for north- and southbound, side for east- and
    westbound traffic) is not GREEN; the other road's signal plays no
    part. *)
Theorem should_stop_at_signal_spec {S : Type} `{SignalSource S}
    (c : Car.t) (sc : S) :
  Car.should_stop_at_signal c sc = true
  <-> Qabs (along c - stop_line (Car.direction c)) < 50
      /\ signal_of sc (road_of (Car.direction c)) <> GREEN.
Proof.
  unfold Car.should_stop_at_signal, along, stop_line, road_of, signal_of.
  cbv zeta.
  destruct (Car.direction c);
    match goal with
    | |- (if Car.between ?a ?v ?b then _ else _) = true <-> Qabs (_ - ?l) < 50 /\ _ =>
        pose proof (between_band a v b l
                      ltac:(vm_compute; reflexivity) ltac:(vm_compute; reflexivity))
          as Hband;
        destruct (Car.between a v b)
    end;
    rewrite <- Hband, ?negb_true_iff, ?SignalState_eqb_neq;
    (split;
     [intro Hs; first [discriminate Hs | split; [reflexivity | exact Hs]]
     |intros [Hw Hs]; first [discriminate Hw | exact Hs]]).
Qed.

Lemma should_stop_at_signal_spec_witness :
  Qabs (along ambulance_at_line - stop_line NORTH) < 50
  /\ signal_of red_controller main <> GREEN.
Proof.
  exact (proj1 (should_stop_at_signal_spec ambulance_at_line red_controller)
           ambulance_at_line_should_stop).
Defined.

(** ** The fixed schedule: period and countdown *)

Lemma Qfloor_unique (x : Q) (z : Z) :
  inject_Z z <= x -> x < inject_Z (z + 1) -> Qfloor x = z.
Proof.
  intros H1 H2.
  pose proof (Qfloor_le x) as F1. pose proof (Qlt_floor x) as F2.
  assert (A : (z < Qfloor x + 1)%Z).
  { rewrite Zlt_Qlt. eapply Qle_lt_trans; eassumption. }
  assert (B : (Qfloor x < z + 1)%Z).
  { rewrite Zlt_Qlt. eapply Qle_lt_trans; eassumption. }
  lia.
Qed.

Lemma Qmod_range (a b : Q) : 0 < b -> 0 <= Qmod a b < b.
Proof.
  intro Hb. unfold Qmod.
  pose proof (Qfloor_le (a / b)) as F1. pose proof (Qlt_floor (a / b)) as F2.
  rewrite inject_Z_plus in F2. change (inject_Z 1) with 1 in F2.
  set (k := inject_Z (Qfloor (a / b))) in *.
  assert (Ha : a == a / b * b).
  { field. intro E. rewrite E in Hb. apply (Qlt_irrefl _ Hb). }
  assert (G1 : k * b <= a / b * b)
    by (apply Qmult_le_compat_r; [exact F1 | apply Qlt_le_weak, Hb]).
  assert (G2 : a / b * b < (k + 1) * b)
    by (apply Qmult_lt_compat_r; assumption).
  rewrite <- Ha in G1, G2. split; lra.
Qed.

(** A position [r] in [[0, b)] that differs from [a] by a whole number of
    periods is the remainder of [a]. *)
Lemma Qmod_unique (a b r : Q) (k : Z) :
  0 < b -> 0 <= r < b -> a == inject_Z k * b + r -> Qmod a b == r.
Proof.
  intros Hb [Hr1 Hr2] Ha. unfold Qmod.
  assert (Hnz : ~ b == 0) by (intro E; rewrite E in Hb; apply (Qlt_irrefl _ Hb)).
  assert (Hq : a / b == inject_Z k + r / b) by (rewrite Ha; field; exact Hnz).
  assert (Hrb1 : 0 <= r / b).
  { apply Qle_shift_div_l; [exact Hb | lra]. }
  assert (Hrb2 : r / b < 1).
  { apply Qlt_shift_div_r; [exact Hb | lra]. }
  assert (E : Qfloor (a / b) = k).
  { apply Qfloor_unique; rewrite Hq.
    - lra.
    - rewrite inject_Z_plus. change (inject_Z 1) with 1. lra. }
  rewrite E, Ha. ring.
Qed.

Lemma Qmod_decompose (a b : Q) :
  a == inject_Z (Qfloor (a / b)) * b + Qmod a b.
Proof. unfold Qmod. ring. Qed.

Lemma Qmod_add_periods (a b : Q) (k : Z) :
  0 < b -> Qmod (a + inject_Z k * b) b == Qmod a b.
Proof.
  intro Hb.
  apply (Qmod_unique _ b _ (Qfloor (a / b) + k)); [exact Hb | apply Qmod_range, Hb|].
  rewrite inject_Z_plus. rewrite (Qmod_decompose a b) at 1. ring.
Qed.



Lemma fixed_cycle_pos : 0 < fixed_cycle.
Proof. reflexivity. Qed.



Lemma update_fixed (s : SignalController.t) cars dt t :
  controller_type s = "fixed"%string ->
  update s cars dt t
  = update_fixed_signals
      (set_current_green_time (current_green_time s + dt)
         (set_signal_timer (signal_timer s + dt) s)).
Proof.
  intro Hmode. unfold update. cbv zeta. sc_simpl. rewrite Hmode. reflexivity.
Qed.



Lemma update_fixed_signals_frame (s : SignalController.t) :
  signal_timer (update_fixed_signals s) = signal_timer s
  /\ controller_type (update_fixed_signals s) = controller_type s
  /\ switching (update_fixed_signals s) = switching s
  /\ switch_stage (update_fixed_signals s) = switch_stage s.
Proof.
  unfold update_fixed_signals. cbv zeta.
  repeat match goal with
  | |- context [if ?c then _ else _] => destruct c
  end; repeat split.
Qed.

Lemma update_fixed_lights (s : SignalController.t) cars dt t :
  controller_type s = "fixed"%string ->
  lights (update s cars dt t)
  = lights (update_fixed_signals (set_signal_timer (signal_timer s + dt) s))
  /\ signal_timer (update s cars dt t) = signal_timer s + dt
  /\ controller_type (update s cars dt t) = "fixed"%string.
Proof.
  intro Hmode. rewrite (update_fixed s cars dt t Hmode).
  destruct (update_fixed_signals_frame
              (set_current_green_time (current_green_time s + dt)
                 (set_signal_timer (signal_timer s + dt) s))) as (Ht & Hc & _).
  split; [|split].
  - apply update_fixed_signals_lights. reflexivity.
  - exact Ht.
  - rewrite Hc. exact Hmode.
Qed.

(** X5. In fixed mode the lights after an update are those of the
    schedule at [signal_timer + dt_sim]: they do not depend on the vehicles
    or on the simulated time passed in, and a step longer by any whole
    number of 50 s cycles ends on the same lights. *)
Theorem fixed_update_periodic (s : SignalController.t)
    (cars cars' : list Car.t) (dt_sim sim_time sim_time' : Q) (k : Z) :
  controller_type s = "fixed"%string ->
  lights (update s cars (dt_sim + inject_Z k * fixed_cycle) sim_time)
  = lights (update s cars' dt_sim sim_time').
Proof.
  intro Hmode.
  rewrite (proj1 (update_fixed_lights s cars _ sim_time Hmode)).
  rewrite (proj1 (update_fixed_lights s cars' _ sim_time' Hmode)).
  apply update_fixed_signals_lights. sc_simpl.
  setoid_replace (signal_timer s + (dt_sim + inject_Z k * fixed_cycle))
    with (signal_timer s + dt_sim + inject_Z k * fixed_cycle) by ring.
  apply Qmod_add_periods. exact fixed_cycle_pos.
Qed.

Lemma fixed_update_periodic_witness :
  lights (update (SignalController.init "fixed" 0) two_queues
                 (21 + inject_Z 3 * fixed_cycle) 171)
  = lights (update (SignalController.init "fixed" 0) [] 21 21).
Proof.
  exact (fixed_update_periodic (SignalController.init "fixed" 0) two_queues []
           21 171 21 3 eq_refl).
Defined.



(** ** The controller: stages and the minimum green *)

Lemma handle_signal_switching_stage (s : SignalController.t) t :
  stage_in_range s -> stage_in_range (handle_signal_switching s t).
Proof.
  unfold stage_in_range, handle_signal_switching. cbv zeta.
  intros [E | [E | E]]; rewrite E; cbn [Z.eqb Pos.eqb];
    repeat match goal with
    | |- context [if ?c then _ else _] => destruct c
    end; sc_simpl; auto.
Qed.

Lemma update_ai_signals_idle_stage (s : SignalController.t) cars t :
  switching s = false ->
  switch_stage (update_ai_signals s cars t) = switch_stage s
  \/ switch_stage (update_ai_signals s cars t) = 0%Z.
Proof.
  intro Hidle. unfold update_ai_signals. rewrite Hidle. cbv zeta.
  match goal with
  | |- context [if ?c then initiate_signal_switch ?s2 _ else _] =>
      destruct c; [right; apply initiate_signal_switch_started|]
  end.
  destruct (_ <=? _); [|left; reflexivity].
  sc_simpl.
  destruct (make_ai_decision_cases s cars t) as [E | E]; rewrite E.
  - left. reflexivity.
  - right. apply initiate_signal_switch_started.
Qed.

Lemma update_stage (s : SignalController.t) cars dt t :
  stage_in_range s -> stage_in_range (update s cars dt t).
Proof.
  intro Hs.
  destruct (String.eqb_spec (controller_type s) "fixed") as [E | NE].
  - rewrite (update_fixed s cars dt t E). unfold stage_in_range.
    rewrite (proj2 (proj2 (proj2 (update_fixed_signals_frame _)))). exact Hs.
  - rewrite (update_adaptive s cars dt t NE).
    set (s1 := set_current_green_time _ _).
    assert (Hs1 : stage_in_range s1) by exact Hs.
    destruct (switching s) eqn:Hsw.
    + unfold update_ai_signals. change (switching s1) with (switching s).
      rewrite Hsw. apply handle_signal_switching_stage. exact Hs1.
    + destruct (update_ai_signals_idle_stage s1 cars t Hsw) as [E | E];
        unfold stage_in_range; rewrite E; [exact Hs1 | left; reflexivity].
Qed.

(** X7. In every reachable state the stage counter is 0, 1 or 2, so the
    branch of [handle_signal_switching] that does nothing (and would leave
    the controller switching for ever) is never taken; and a fixed-mode
    controller is never switching. *)
Theorem reachable_stage (s : SignalController.t) :
  reachable s ->
  (switch_stage s = 0%Z \/ switch_stage s = 1%Z \/ switch_stage s = 2%Z)
  /\ (controller_type s = "fixed"%string ->
      switching s = false /\ switch_stage s = 0%Z).
Proof.
  induction 1 as [ctype start | s cars dt t _ [IH1 IH2] | s road t _ IH].
  - split; [left; reflexivity | intros _; split; reflexivity].
  - split; [apply update_stage; exact IH1|].
    rewrite update_controller_type. intro Hmode.
    rewrite (update_fixed s cars dt t Hmode).
    destruct (update_fixed_signals_frame
                (set_current_green_time (current_green_time s + dt)
                   (set_signal_timer (signal_timer s + dt) s)))
      as (_ & _ & Hsw & Hst).
    rewrite Hsw, Hst. exact (IH2 Hmode).
  - destruct road; exact IH.
Qed.

Lemma reachable_stage_witness : switch_stage at_max_green = 0%Z
  \/ switch_stage at_max_green = 1%Z \/ switch_stage at_max_green = 2%Z.
Proof.
  assert (Hr : forall n, reachable
                 (run_ticks (SignalController.init "ai" 0) 0 one_second no_cars n)).
  { induction n as [|n IH]; [apply reachable_init|].
    cbn [run_ticks]. apply reachable_update. exact IH. }
  exact (proj1 (reachable_stage at_max_green (Hr 50%nat))).
Defined.

Lemma update_ai_signals_min_green (s : SignalController.t) cars t :
  switching s = false ->
  switching (update_ai_signals s cars t) = true ->
  Config.MIN_GREEN_TIME <= current_green_time s.
Proof.
  intros Hidle Hsw. unfold update_ai_signals in Hsw. rewrite Hidle in Hsw.
  cbv zeta in Hsw.
  assert (Hdec : switching (make_ai_decision s cars t) = true ->
                 Config.MIN_GREEN_TIME <= current_green_time s).
  { rewrite make_ai_decision_pressures.
    destruct (Config.MIN_GREEN_TIME <=? current_green_time s) eqn:E1;
      [intros _; apply Qleb_le; exact E1|].
    cbn [andb orb].
    destruct (Config.MAX_GREEN_TIME <=? current_green_time s) eqn:E2.
    - intros _. apply Qleb_le in E2.
      unfold Config.MAX_GREEN_TIME, Config.MIN_GREEN_TIME in *. lra.
    - rewrite Hidle. discriminate. }
  destruct (Config.AI_UPDATE_INTERVAL <=? t - last_ai_update s).
  - destruct (switching (make_ai_decision s cars t)) eqn:Hd;
      [apply Hdec; reflexivity|].
    match type of Hsw with
    | context [if ?c then initiate_signal_switch _ _ else _] =>
        destruct c eqn:Ec
    end.
    + apply andb_true_iff in Ec. destruct Ec as [_ Ec]. sc_simpl.
      apply Qltb_lt in Ec.
      destruct (make_ai_decision_cases s cars t) as [E | E].
      * rewrite E in Ec. apply Qlt_le_weak. exact Ec.
      * rewrite E in Hd.
        rewrite (proj1 (initiate_signal_switch_started s t)) in Hd. discriminate.
    + sc_simpl. congruence.
  - match type of Hsw with
    | context [if ?c then initiate_signal_switch _ _ else _] =>
        destruct c eqn:Ec
    end.
    + apply andb_true_iff in Ec. destruct Ec as [_ Ec].
      apply Qltb_lt in Ec. apply Qlt_le_weak. exact Ec.
    + congruence.
Qed.

(** X8. The minimum green is always honoured: a tick of an idle adaptive
    controller starts a switch only if the green, this tick included, has
    lasted at least the minimum green time. *)
Theorem minimum_green_honoured (s : SignalController.t) (cars : list Car.t)
    (dt_sim sim_time : Q) :
  controller_type s <> "fixed"%string ->
  switching s = false ->
  switching (update s cars dt_sim sim_time) = true ->
  Config.MIN_GREEN_TIME <= current_green_time s + dt_sim.
Proof.
  intros Hmode Hidle Hsw.
  rewrite (update_adaptive s cars dt_sim sim_time Hmode) in Hsw.
  exact (update_ai_signals_min_green
           (set_current_green_time (current_green_time s + dt_sim)
              (set_signal_timer (signal_timer s + dt_sim) s))
           cars sim_time Hidle Hsw).
Qed.

Lemma before_max_green_facts :
  controller_type before_max_green <> "fixed"%string
  /\ switching before_max_green = false
  /\ switching (update before_max_green [] 1 50) = true.
Proof.
  split; [vm_compute; discriminate|]. split; vm_compute; reflexivity.
Qed.

Lemma minimum_green_honoured_witness :
  Config.MIN_GREEN_TIME <= current_green_time before_max_green + 1.
Proof.
  exact (minimum_green_honoured before_max_green [] 1 50
           (proj1 before_max_green_facts)
           (proj1 (proj2 before_max_green_facts))
           (proj2 (proj2 before_max_green_facts))).
Defined.

(** X9. On the clock of a run, an adaptive controller that is not in the
    middle of a switch shows GREEN to exactly one road and RED to the
    other, and its green-time counter is not negative. *)
Theorem idle_serves_one_road (s : SignalController.t) (t : Q) :
  clocked s t ->
  controller_type s <> "fixed"%string ->
  switching s = false ->
  (lights s = (GREEN, RED) \/ lights s = (RED, GREEN))
  /\ 0 <= current_green_time s.
Proof.
  intros Hclk Hmode Hidle.
  pose proof (clocked_clock_inv s t Hclk Hmode) as Hinv.
  unfold clock_inv in Hinv. rewrite Hidle in Hinv.
  destruct Hinv as (Hg & Hc & _). split; [exact Hg | exact Hc].
Qed.

Lemma idle_serves_one_road_witness :
  lights before_max_green = (GREEN, RED) \/ lights before_max_green = (RED, GREEN).
Proof.
  refine (proj1 (idle_serves_one_road before_max_green (time_after 0 one_second 49)
                   _ (proj1 before_max_green_facts)
                   (proj1 (proj2 before_max_green_facts)))).
  apply clocked_run_ticks; [apply clocked_init | intro i; reflexivity].
Defined.

(** ** Bounded histories *)

Lemma deque_append_length {A : Type} (n : nat) (d : list A) (v : A) :
  length (deque_append n d v) = Nat.min (length d + 1) n.
Proof.
  unfold deque_append. cbv zeta. rewrite length_skipn, length_app. cbn [length].
  lia.
Qed.



Lemma handle_signal_switching_history (s : SignalController.t) t r :
  arrival_history (handle_signal_switching s t) r = arrival_history s r.
Proof.
  unfold handle_signal_switching. cbv zeta.
  repeat match goal with
  | |- context [if ?c then _ else _] => destruct c
  end; destruct r; reflexivity.
Qed.

Lemma initiate_signal_switch_history (s : SignalController.t) t r :
  arrival_history (initiate_signal_switch s t) r = arrival_history s r.
Proof.
  unfold initiate_signal_switch. cbv zeta.
  repeat match goal with
  | |- context [if ?c then _ else _] => destruct c
  end; destruct r; reflexivity.
Qed.

Lemma update_history (s : SignalController.t) cars dt t r :
  arrival_history (update s cars dt t) r = arrival_history s r.
Proof.
  unfold update. cbv zeta.
  set (s1 := set_current_green_time _ _).
  assert (H1 : arrival_history s1 r = arrival_history s r) by (destruct r; reflexivity).
  rewrite <- H1. clearbody s1.
  destruct (String.eqb _ _).
  - unfold update_fixed_signals. cbv zeta.
    repeat match goal with
    | |- context [if ?c then _ else _] => destruct c
    end; destruct r; reflexivity.
  - unfold update_ai_signals.
    destruct (switching s1); [apply handle_signal_switching_history|].
    cbv zeta.
    match goal with
    | |- context [if ?c then initiate_signal_switch ?s2 _ else _] =>
        assert (H2 : arrival_history s2 r = arrival_history s1 r);
        [|destruct c; [rewrite initiate_signal_switch_history|]; exact H2]
    end.
    destruct (_ <=? _); [|reflexivity].
    destruct (make_ai_decision_cases s1 cars t) as [E | E]; rewrite E.
    + destruct r; reflexivity.
    + rewrite <- (initiate_signal_switch_history s1 t r). destruct r; reflexivity.
Qed.

Lemma record_arrival_history (s : SignalController.t) (road r : Road) (t : Q) :
  arrival_history (record_arrival s road t) r
  = match road, r with
    | main, main | side, side => deque_append 200 (arrival_history s road) t
    | _, _ => arrival_history s r
    end.
Proof. destruct road, r; reflexivity. Qed.

Lemma reachable_history_length (s : SignalController.t) (r : Road) :
  reachable s -> (length (arrival_history s r) <= 200)%nat.
Proof.
  induction 1 as [ctype start | s cars dt t _ IH | s road t _ IH].
  - destruct r; cbn; lia.
  - rewrite update_history. exact IH.
  - rewrite record_arrival_history.
    destruct road, r; try exact IH; rewrite deque_append_length; lia.
Qed.



(** ** The terms of the pressure score *)

Lemma filter_length_le {A : Type} (f : A -> bool) (l : list A) :
  (length (filter f l) <= length l)%nat.
Proof.
  induction l as [|a l IH]; [apply Nat.le_refl|].
  cbn [filter]. destruct (f a); cbn [length]; lia.
Qed.

Lemma filter_none {A : Type} (f : A -> bool) (l : list A) :
  (forall a, In a l -> f a = false) -> filter f l = [].
Proof.
  induction l as [|a l IH]; intro H; [reflexivity|].
  cbn [filter]. rewrite (H a (or_introl eq_refl)).
  apply IH. intros b Hb. apply H. right. exact Hb.
Qed.

Lemma get_arrival_rate_range (s : SignalController.t) (road : Road) (t : Q) :
  reachable s ->
  0 <= get_arrival_rate s road t <= 20
  /\ ((forall e, In e (arrival_history s road) -> 10 <= t - e) ->
      get_arrival_rate s road t == 0).
Proof.
  intro Hr. pose proof (reachable_history_length s road Hr) as Hlen.
  unfold get_arrival_rate. cbv zeta.
  destruct (length (arrival_history s road) <? 2)%nat.
  - split; [split; discriminate | intros _; reflexivity].
  - set (recent := filter (fun t0 => t - t0 <? 10.0) (arrival_history s road)).
    assert (Hle : (length recent <= 200)%nat).
    { eapply Nat.le_trans; [apply filter_length_le | exact Hlen]. }
    assert (H0 : 0 <= inject_Z (Z.of_nat (length recent))).
    { change 0 with (inject_Z 0). rewrite <- Zle_Qle. lia. }
    assert (H200 : inject_Z (Z.of_nat (length recent)) <= 200).
    { change 200 with (inject_Z 200). rewrite <- Zle_Qle. lia. }
    split; [split|].
    + apply Qle_shift_div_l; [reflexivity | lra].
    + apply Qle_shift_div_r; [reflexivity|].
      setoid_replace (20 * 10.0) with 200 by reflexivity. exact H200.
    + intro Hold. subst recent. rewrite filter_none; [reflexivity|].
      intros e He. apply Qltb_ge.
      setoid_replace 10.0 with 10 by reflexivity. apply Hold. exact He.
Qed.

(** X11. The arrival rate of a road is the number of its recorded
    arrivals of the last 10 s divided by 10, hence never negative and, in
    every reachable state, at most 20 per second (the history holds 200
    entries); it is 0 when no recorded arrival is younger than 10 s. *)
Theorem arrival_rate_bounds (s : SignalController.t) (road : Road) (t : Q) :
  reachable s ->
  0 <= get_arrival_rate s road t <= 20
  /\ ((forall e, In e (arrival_history s road) -> 10 <= t - e) ->
      get_arrival_rate s road t == 0).
Proof.
  intro Hr. destruct (get_arrival_rate_range s road t Hr) as [Hb H0].
  split; [exact Hb | exact H0].
Qed.

Lemma two_arrivals_reachable : reachable two_arrivals.
Proof. repeat apply reachable_arrival. apply reachable_init. Qed.

Lemma arrival_rate_bounds_witness :
  0 <= get_arrival_rate two_arrivals side 50 <= 20.
Proof.
  exact (proj1 (arrival_rate_bounds two_arrivals side 50 two_arrivals_reachable)).
Defined.

Lemma Qsum_from_nonneg (l : list Q) (acc : Q) :
  0 <= acc -> Forall (fun w => 0 <= w) l -> 0 <= fold_left Qplus l acc.
Proof.
  intros Hacc Hl. revert acc Hacc.
  induction Hl as [|w l Hw _ IH]; intros acc Hacc; [exact Hacc|].
  cbn [fold_left]. apply IH. lra.
Qed.

Lemma get_average_wait_time_nonneg (cars : list Car.t) (road : Road) :
  Forall (fun c => 0 <= Car.waiting_time c) cars ->
  0 <= get_average_wait_time cars road.
Proof.
  intro Hcars. unfold get_average_wait_time. cbv zeta.
  match goal with
  | |- context [fold_left ?f cars []] => set (step := f)
  end.
  assert (Hw : forall acc, Forall (fun w => 0 <= w) acc ->
                 Forall (fun w => 0 <= w) (fold_left step cars acc)).
  { induction Hcars as [|c cars Hc _ IH]; intros acc Hacc; [exact Hacc|].
    cbn [fold_left]. apply IH. subst step. cbv beta.
    destruct road;
      repeat match goal with
      | |- context [if ?b then _ else _] => destruct b
      end; try exact Hacc;
      (apply Forall_app; split; [exact Hacc | constructor; [exact Hc | constructor]]). }
  specialize (Hw [] (Forall_nil _)).
  destruct (fold_left step cars []) as [|w ws] eqn:E; [apply Qle_refl|].
  apply Qle_shift_div_l.
  - change 0 with (inject_Z 0). rewrite <- Zlt_Qlt. cbn [length]. lia.
  - rewrite Qmult_0_l. apply Qsum_from_nonneg; [apply Qle_refl | exact Hw].
Qed.

Lemma get_queue_length_filter (cars : list Car.t) (road : Road) :
  get_queue_length cars road = Z.of_nat (length (filter (queued_on road) cars)).
Proof.
  unfold get_queue_length. cbv zeta.
  change (inject_Z (Config.WINDOW_WIDTH / 2)) with (inject_Z 600).
  change (inject_Z (Config.WINDOW_HEIGHT / 2)) with (inject_Z 400).
  match goal with
  | |- fold_left ?f cars 0%Z = _ => set (step := f)
  end.
  assert (G : forall count,
             fold_left step cars count
             = (count + Z.of_nat (length (filter (queued_on road) cars)))%Z).
  { induction cars as [|c cars IH]; intro count; [cbn; lia|].
    cbn [fold_left filter]. rewrite IH.
    assert (E : step count c = if queued_on road c then (count + 1)%Z else count).
    { subst step. cbv beta. unfold queued_on.
      destruct road;
        (rewrite (Qltb_comp _ _ (Qeq_refl _) (inject_Z Config.LANE_WIDTH * 1.5) 60)
           by reflexivity); reflexivity. }
    rewrite E. destruct (queued_on road c); cbn [length]; lia. }
  rewrite G. lia.
Qed.

(** X12. A road's pressure is at least its queue length and at most the
    queue length plus 3 times the arrival rate plus 4 (the wait term is
    capped), as long as no vehicle has a negative waiting time; in a
    reachable state that is at most the queue length plus 64. *)
Theorem pressure_bounds (s : SignalController.t) (cars : list Car.t)
    (road : Road) (t : Q) :
  reachable s ->
  Forall (fun c => 0 <= Car.waiting_time c) cars ->
  inject_Z (get_queue_length cars road) <= calculate_pressure s cars road t
  /\ calculate_pressure s cars road t
     <= inject_Z (get_queue_length cars road) + 3 * get_arrival_rate s road t + 4
  /\ calculate_pressure s cars road t <= inject_Z (get_queue_length cars road) + 64.
Proof.
  intros Hr Hcars.
  destruct (get_arrival_rate_range s road t Hr) as [[R0 R20] _].
  pose proof (get_average_wait_time_nonneg cars road Hcars) as Hw.
  unfold calculate_pressure. cbv zeta.
  set (q := inject_Z (get_queue_length cars road)).
  set (rate := get_arrival_rate s road t) in *.
  set (avg := get_average_wait_time cars road) in *.
  assert (N0 : 0 <= Qmin (avg / 60.0) 1.0).
  { apply Q.min_glb; [|discriminate].
    apply Qle_shift_div_l; [reflexivity | lra]. }
  assert (N1 : Qmin (avg / 60.0) 1.0 <= 1).
  { eapply Qle_trans; [apply Q.le_min_r | discriminate]. }
  set (norm := Qmin (avg / 60.0) 1.0) in *.
  unfold Config.PRESSURE_ALPHA, Config.PRESSURE_BETA.
  repeat split; lra.
Qed.

Lemma pressure_bounds_witness :
  inject_Z (get_queue_length two_queues side)
  <= calculate_pressure two_arrivals two_queues side 50.
Proof.
  refine (proj1 (pressure_bounds two_arrivals two_queues side 50
                   two_arrivals_reachable _)).
  unfold two_queues. repeat constructor; discriminate.
Defined.

Lemma queued_on_stopped (c : Car.t) :
  (Nat.b2n (queued_on main c) + Nat.b2n (queued_on side c)
   <= Nat.b2n (Car.is_stopped c))%nat.
Proof.
  unfold queued_on, on_main_road, on_side_road.
  destruct (Car.direction c); destruct (Car.is_stopped c); cbn [andb Nat.b2n];
    repeat match goal with
    | |- context [?a <? ?b] => destruct (a <? b)
    end; cbn [Nat.b2n]; lia.
Qed.

Lemma filter_length_b2n {A : Type} (f : A -> bool) (a : A) (l : list A) :
  length (filter f (a :: l)) = (Nat.b2n (f a) + length (filter f l))%nat.
Proof. cbn [filter]. destruct (f a); reflexivity. Qed.

(** X13. Queue lengths count stopped vehicles only, and no vehicle for
    both roads: each is non-negative, the two together are at most the
    number of stopped vehicles, and a road on which no vehicle is stopped
    has queue length 0. *)
Theorem queue_length_bounds (cars : list Car.t) :
  (0 <= get_queue_length cars main)%Z
  /\ (0 <= get_queue_length cars side)%Z
  /\ (get_queue_length cars main + get_queue_length cars side
      <= Z.of_nat (length (filter Car.is_stopped cars)))%Z
  /\ (Z.of_nat (length (filter Car.is_stopped cars)) <= Z.of_nat (length cars))%Z
  /\ ((forall c, In c cars -> Car.is_stopped c = false) ->
      get_queue_length cars main = 0%Z /\ get_queue_length cars side = 0%Z).
Proof.
  rewrite !get_queue_length_filter.
  assert (Hsum : (length (filter (queued_on main) cars)
                  + length (filter (queued_on side) cars)
                  <= length (filter Car.is_stopped cars))%nat).
  { induction cars as [|c cars IH]; [apply Nat.le_refl|].
    rewrite !filter_length_b2n. pose proof (queued_on_stopped c). lia. }
  pose proof (filter_length_le Car.is_stopped cars) as Hle.
  split; [lia|]. split; [lia|]. split; [lia|]. split; [lia|].
  intro Hnone. rewrite (filter_none Car.is_stopped cars Hnone) in Hsum.
  cbn [length] in Hsum. split; lia.
Qed.

Lemma queue_length_bounds_witness :
  get_queue_length [held_car; lone_car] main = 0%Z.
Proof.
  refine (proj1 (proj2 (proj2 (proj2 (proj2
            (queue_length_bounds [held_car; lone_car])))) _)).
  intros c [<- | [<- | []]]; reflexivity.
Defined.

(** ** Throughput *)

Lemma record_exits_history (exits : list (Car.t * Q)) (m : MetricsCollector.t) :
  (length (MetricsCollector.throughput_history m) <= 400)%nat ->
  length (MetricsCollector.throughput_history (MetricsCollector.record_exits m exits))
  = Nat.min (length (MetricsCollector.throughput_history m) + length exits) 400.
Proof.
  revert m. induction exits as [|e exits IH]; intros m Hm.
  - cbn. lia.
  - unfold MetricsCollector.record_exits in *. cbn [fold_left].
    rewrite IH.
    + cbn [MetricsCollector.record_car_exit fst MetricsCollector.throughput_history].
      rewrite deque_append_length. cbn [length]. lia.
    + cbn [MetricsCollector.record_car_exit fst MetricsCollector.throughput_history].
      rewrite deque_append_length. lia.
Qed.

(** X14. After any number of recorded exits since a reset, the exit
    counter equals the number of exits, and the throughput per minute is
    between 0 and the smaller of that number and 400, the capacity of the
    exit history. *)
Theorem throughput_bounds (start_sim_time sim_time : Q) (exits : list (Car.t * Q)) :
  let m := MetricsCollector.record_exits (MetricsCollector.reset start_sim_time) exits in
  MetricsCollector.total_cars_exited m = Z.of_nat (length exits)
  /\ (0 <= MetricsCollector.get_throughput_per_minute m sim_time
      <= Z.min (MetricsCollector.total_cars_exited m) 400)%Z.
Proof.
  cbv zeta.
  destruct (record_exits_totals exits (MetricsCollector.reset start_sim_time))
    as [Hn _].
  pose proof (record_exits_history exits (MetricsCollector.reset start_sim_time)
                ltac:(cbn; lia)) as Hh.
  cbn [MetricsCollector.reset MetricsCollector.throughput_history
       MetricsCollector.total_cars_exited length] in Hn, Hh.
  rewrite Hn. split; [lia|].
  unfold MetricsCollector.get_throughput_per_minute.
  match goal with
  | |- context [filter ?f ?l] => pose proof (filter_length_le f l) as Hf
  end.
  rewrite Hh in Hf. lia.
Qed.

(** ** The simulation: vehicles entering and leaving *)

Lemma store_car_length (c : Car.t) (l : list Car.t) :
  length (TrafficSimulation.store_car c l) = length l.
Proof.
  induction l as [|c0 l IH]; [reflexivity|].
  cbn [TrafficSimulation.store_car]. destruct (Nat.eqb _ _); cbn [length]; congruence.
Qed.

Lemma store_car_idents (c : Car.t) (l : list Car.t) :
  map Car.ident (TrafficSimulation.store_car c l) = map Car.ident l.
Proof.
  induction l as [|c0 l IH]; [reflexivity|].
  cbn [TrafficSimulation.store_car].
  destruct (Nat.eqb_spec (Car.ident c0) (Car.ident c)) as [E | NE]; cbn [map].
  - rewrite E. reflexivity.
  - rewrite IH. reflexivity.
Qed.

Lemma remove_car_length (c : Car.t) (l : list Car.t) :
  In (Car.ident c) (map Car.ident l) ->
  S (length (TrafficSimulation.remove_car c l)) = length l.
Proof.
  induction l as [|c0 l IH]; intro Hin; [destruct Hin|].
  cbn [TrafficSimulation.remove_car].
  destruct (Nat.eqb_spec (Car.ident c0) (Car.ident c)) as [E | NE];
    [reflexivity|].
  cbn [length]. rewrite IH; [reflexivity|].
  destruct Hin as [H | H]; [contradiction | exact H].
Qed.

Lemma find_car_some (id : nat) (l : list Car.t) (c : Car.t) :
  TrafficSimulation.find_car id l = Some c ->
  Car.ident c = id /\ In c l.
Proof.
  unfold TrafficSimulation.find_car. intro H. apply find_some in H.
  destruct H as [Hin He]. apply Nat.eqb_eq in He. split; assumption.
Qed.

(** A property that the loop body of [update_cars] keeps for every car of
    the live list is kept by the loop. *)
Lemma update_cars_invariant (I : TrafficSimulation.t -> Prop) :
  (forall s car id, I s ->
     TrafficSimulation.find_car id (TrafficSimulation.cars s) = Some car ->
     I (TrafficSimulation.update_one_car s car)) ->
  forall s, I s -> I (TrafficSimulation.update_cars s).
Proof.
  intros Hbody s. unfold TrafficSimulation.update_cars.
  generalize (map Car.ident (TrafficSimulation.cars s)). intro ids.
  revert s. induction ids as [|id ids IH]; intros s Hs; [exact Hs|].
  cbn [fold_left].
  destruct (TrafficSimulation.find_car id (TrafficSimulation.cars s)) as [car|] eqn:E.
  - apply IH. exact (Hbody s car id Hs E).
  - apply IH. exact Hs.
Qed.

(** The loop body of [update_cars], with the car after its update named. *)
Lemma update_one_car_cases (s : TrafficSimulation.t) (car : Car.t) :
  exists car1 car2 : Car.t,
    Car.ident car1 = Car.ident car /\ Car.speed car1 = Car.speed car
    /\ Car.max_speed car1 <= Config.CAR_MAX_SPEED /\ 0 <= Car.max_speed car1
    /\ car2 = Car.update car1
                (TrafficSimulation.store_car car1 (TrafficSimulation.cars s))
                (TrafficSimulation.signal_controller s)
                (TrafficSimulation.dt_sim s)
    /\ ((Car.is_off_screen car2 = false
         /\ TrafficSimulation.update_one_car s car
            = TrafficSimulation.set_cars
                (TrafficSimulation.store_car car2
                   (TrafficSimulation.store_car car1 (TrafficSimulation.cars s)))
                s)
        \/ (Car.is_off_screen car2 = true
            /\ TrafficSimulation.update_one_car s car
               = TrafficSimulation.set_cars
                   (TrafficSimulation.remove_car
                      (Car.set_exit_time (Some (TrafficSimulation.sim_time s)) car2)
                      (TrafficSimulation.store_car car2
                         (TrafficSimulation.store_car car1
                            (TrafficSimulation.cars s))))
                   (TrafficSimulation.set_metrics
                      (fst (MetricsCollector.record_car_exit
                              (TrafficSimulation.metrics s) car2
                              (TrafficSimulation.sim_time s)))
                      s))).
Proof.
  unfold TrafficSimulation.update_one_car. cbv zeta.
  set (car0 := Car.set_max_speed Config.CAR_MAX_SPEED car).
  set (car1 := if TrafficSimulation.incident_active s && negb (Car.is_ambulance car0)
               then _ else car0).
  assert (H1 : Car.ident car1 = Car.ident car /\ Car.speed car1 = Car.speed car
               /\ Car.max_speed car1 <= Config.CAR_MAX_SPEED
               /\ 0 <= Car.max_speed car1).
  { subst car1.
    destruct (_ && _); [|repeat split; [apply Qle_refl | discriminate]].
    cbv zeta. destruct (Rect.collidepoint _ _ _);
      [|repeat split; [apply Qle_refl | discriminate]].
    car_simpl. repeat split.
    - apply Q.le_min_l.
    - apply Q.min_glb; discriminate. }
  clearbody car1. destruct H1 as (Hi & Hv & Hm & Hm0).
  exists car1.
  eexists. split; [exact Hi|]. split; [exact Hv|]. split; [exact Hm|].
  split; [exact Hm0|]. split; [reflexivity|].
  cbn [TrafficSimulation.cars TrafficSimulation.set_cars
       TrafficSimulation.signal_controller TrafficSimulation.dt_sim
       TrafficSimulation.metrics TrafficSimulation.sim_time
       TrafficSimulation.set_metrics].
  match goal with
  | |- context [if Car.is_off_screen ?c then _ else _] =>
      destruct (Car.is_off_screen c)
  end; [right | left]; split; reflexivity.
Qed.

Lemma new_car_fresh (s : TrafficSimulation.t) (d : Direction) (amb : bool)
    (g : Random.t) :
  fresh_car (TrafficSimulation.sim_time s)
    (fst (TrafficSimulation.new_car s (fst (entry_point d)) (snd (entry_point d))
            d amb g))
  /\ Car.ident
       (fst (TrafficSimulation.new_car s (fst (entry_point d)) (snd (entry_point d))
               d amb g))
     = TrafficSimulation.next_ident s.
Proof.
  unfold TrafficSimulation.new_car, fresh_car.
  destruct amb; cbn [fst]; destruct d; repeat split.
Qed.

Lemma enroll_car_cars (s : TrafficSimulation.t) (car : Car.t) (road : Road) :
  TrafficSimulation.cars (TrafficSimulation.enroll_car s car road)
  = TrafficSimulation.cars s ++ [car]
  /\ MetricsCollector.total_cars_exited
       (TrafficSimulation.metrics (TrafficSimulation.enroll_car s car road))
     = MetricsCollector.total_cars_exited (TrafficSimulation.metrics s)
  /\ TrafficSimulation.sim_time (TrafficSimulation.enroll_car s car road)
     = TrafficSimulation.sim_time s
  /\ TrafficSimulation.next_ident (TrafficSimulation.enroll_car s car road)
     = S (TrafficSimulation.next_ident s).
Proof. repeat split. Qed.

Section Spawning.

Variable exp : Q -> Q.

(** What [spawn_cars] does, whichever events fire: the vehicles [new] it
    appends. *)
Lemma spawn_cars_cases (s : TrafficSimulation.t) (g : Random.t) :
  let s' := fst (TrafficSimulation.spawn_cars exp s g) in
  exists new : list Car.t,
    TrafficSimulation.cars s' = TrafficSimulation.cars s ++ new
    /\ (length new <= 2)%nat
    /\ arrivals s' = (arrivals s + Z.of_nat (length new))%Z
    /\ MetricsCollector.total_cars_exited (TrafficSimulation.metrics s')
       = MetricsCollector.total_cars_exited (TrafficSimulation.metrics s)
    /\ Forall (fresh_car (TrafficSimulation.sim_time s)) new
    /\ controls s' = controls s
    /\ TrafficSimulation.dt_sim s' = TrafficSimulation.dt_sim s
    /\ TrafficSimulation.sim_time s' = TrafficSimulation.sim_time s
    /\ map Car.ident new
       = seq (TrafficSimulation.next_ident s) (length new)
    /\ TrafficSimulation.next_ident s'
       = (TrafficSimulation.next_ident s + length new)%nat.
Proof.
  cbv zeta. unfold TrafficSimulation.spawn_cars. cbv zeta.
  destruct (TrafficSimulation.event exp (TrafficSimulation.dt_sim s) _ g)
    as [fire1 g1].
  (* the main road *)
  match goal with
  | |- context [match (if fire1 then ?A else ?B) with pair _ _ => _ end] =>
      set (main_part := if fire1 then A else B)
  end.
  assert (Hmain : exists (s1 : TrafficSimulation.t) (g4 : Random.t) (new1 : list Car.t),
            main_part = (s1, g4)
            /\ TrafficSimulation.cars s1 = TrafficSimulation.cars s ++ new1
            /\ (length new1 <= 1)%nat
            /\ arrivals s1 = (arrivals s + Z.of_nat (length new1))%Z
            /\ MetricsCollector.total_cars_exited (TrafficSimulation.metrics s1)
               = MetricsCollector.total_cars_exited (TrafficSimulation.metrics s)
            /\ Forall (fresh_car (TrafficSimulation.sim_time s)) new1
            /\ controls s1 = controls s
            /\ TrafficSimulation.dt_sim s1 = TrafficSimulation.dt_sim s
            /\ TrafficSimulation.sim_time s1 = TrafficSimulation.sim_time s
            /\ map Car.ident new1
               = seq (TrafficSimulation.next_ident s) (length new1)
            /\ TrafficSimulation.next_ident s1
               = (TrafficSimulation.next_ident s + length new1)%nat).
  { subst main_part. destruct fire1.
    - destruct (Random.choice 2 g1) as [i g0].
      destruct (TrafficSimulation.draw_ambulance s g0) as [amb g2].
      destruct i as [|i].
      + pose proof (new_car_fresh s NORTH amb g2) as [Hf Hi].
        change (fst (entry_point NORTH)) with (inject_Z (Config.WINDOW_WIDTH / 2
                  - Config.LANE_WIDTH / 2)) in Hf, Hi.
        change (snd (entry_point NORTH)) with (inject_Z (Config.WINDOW_HEIGHT + 50))
          in Hf, Hi.
        destruct (TrafficSimulation.new_car s _ _ NORTH amb g2) as [car g3].
        cbn [fst] in Hf, Hi.
        exists (TrafficSimulation.enroll_car s car main), g3, [car].
        cbn [map seq length]. rewrite Hi.
        repeat split;
          [cbn; lia | constructor; [exact Hf | constructor]
          | cbn [TrafficSimulation.next_ident TrafficSimulation.enroll_car
                 TrafficSimulation.set_signal_controller TrafficSimulation.set_metrics
                 TrafficSimulation.set_next_ident TrafficSimulation.set_cars]; lia].
      + pose proof (new_car_fresh s SOUTH amb g2) as [Hf Hi].
        change (fst (entry_point SOUTH)) with (inject_Z (Config.WINDOW_WIDTH / 2
                  + Config.LANE_WIDTH / 2)) in Hf, Hi.
        change (snd (entry_point SOUTH)) with (- 50) in Hf, Hi.
        destruct (TrafficSimulation.new_car s _ _ SOUTH amb g2) as [car g3].
        cbn [fst] in Hf, Hi.
        exists (TrafficSimulation.enroll_car s car main), g3, [car].
        cbn [map seq length]. rewrite Hi.
        repeat split;
          [cbn; lia | constructor; [exact Hf | constructor]
          | cbn [TrafficSimulation.next_ident TrafficSimulation.enroll_car
                 TrafficSimulation.set_signal_controller TrafficSimulation.set_metrics
                 TrafficSimulation.set_next_ident TrafficSimulation.set_cars]; lia].
    - exists s, g1, []. rewrite app_nil_r. cbn [length map seq].
      repeat split; try lia. constructor. }
  destruct Hmain
    as (s1 & g4 & new1 & Hmp & Hc1 & Hl1 & Ha1 & He1 & Hf1 & Hk1 & Hd1 & Ht1 & Hi1 & Hn1).
  rewrite Hmp. clear Hmp main_part.
  (* the side road *)
  assert (Htail : forall car : Car.t,
            fresh_car (TrafficSimulation.sim_time s1) car ->
            Car.ident car = TrafficSimulation.next_ident s1 ->
            exists new : list Car.t,
              TrafficSimulation.cars (TrafficSimulation.enroll_car s1 car side)
              = TrafficSimulation.cars s ++ new
              /\ (length new <= 2)%nat
              /\ arrivals (TrafficSimulation.enroll_car s1 car side)
                 = (arrivals s + Z.of_nat (length new))%Z
              /\ MetricsCollector.total_cars_exited
                   (TrafficSimulation.metrics (TrafficSimulation.enroll_car s1 car side))
                 = MetricsCollector.total_cars_exited (TrafficSimulation.metrics s)
              /\ Forall (fresh_car (TrafficSimulation.sim_time s)) new
              /\ controls (TrafficSimulation.enroll_car s1 car side) = controls s
              /\ TrafficSimulation.dt_sim (TrafficSimulation.enroll_car s1 car side)
                 = TrafficSimulation.dt_sim s
              /\ TrafficSimulation.sim_time (TrafficSimulation.enroll_car s1 car side)
                 = TrafficSimulation.sim_time s
              /\ map Car.ident new
                 = seq (TrafficSimulation.next_ident s) (length new)
              /\ TrafficSimulation.next_ident (TrafficSimulation.enroll_car s1 car side)
                 = (TrafficSimulation.next_ident s + length new)%nat).
  { intros car Hf2 Hi2.
    destruct (enroll_car_cars s1 car side) as (Hc2 & He2 & Ht2 & Hn2).
    destruct (enroll_car_effect s1 car side) as (Ha2 & Hk2 & Hd2).
    exists (new1 ++ [car]).
    rewrite Hc2, Hc1, Ha2, Ha1, He2, He1, Hk2, Hk1, Hd2, Hd1, Ht2, Ht1, Hn2, Hn1.
    rewrite length_app, <- app_assoc, map_app, seq_app, Hi1. cbn [length map seq].
    rewrite Hi2, Hn1.
    repeat split; try lia.
    apply Forall_app. split; [exact Hf1|].
    constructor; [rewrite <- Ht1; exact Hf2 | constructor]. }
  destruct (TrafficSimulation.event exp (TrafficSimulation.dt_sim s1) _ g4)
    as [fire2 g5].
  destruct fire2.
  - destruct (Random.choice 2 g5) as [i g6].
    destruct (TrafficSimulation.draw_ambulance s1 g6) as [amb g7].
    destruct i as [|i].
    + pose proof (new_car_fresh s1 EAST amb g7) as [Hf Hi].
      change (fst (entry_point EAST)) with (- 50) in Hf, Hi.
      change (snd (entry_point EAST))
        with (inject_Z (Config.WINDOW_HEIGHT / 2 - Config.LANE_WIDTH / 2)) in Hf, Hi.
      destruct (TrafficSimulation.new_car s1 _ _ EAST amb g7) as [car g8].
      cbn [fst] in *. apply Htail; assumption.
    + pose proof (new_car_fresh s1 WEST amb g7) as [Hf Hi].
      change (fst (entry_point WEST)) with (inject_Z (Config.WINDOW_WIDTH + 50))
        in Hf, Hi.
      change (snd (entry_point WEST))
        with (inject_Z (Config.WINDOW_HEIGHT / 2 + Config.LANE_WIDTH / 2)) in Hf, Hi.
      destruct (TrafficSimulation.new_car s1 _ _ WEST amb g7) as [car g8].
      cbn [fst] in *. apply Htail; assumption.
  - cbn [fst]. exists new1.
    repeat split; try assumption. lia.
Qed.

End Spawning.



Lemma update_one_car_balanced (s : TrafficSimulation.t) (car : Car.t) (id : nat) :
  balanced s ->
  TrafficSimulation.find_car id (TrafficSimulation.cars s) = Some car ->
  balanced (TrafficSimulation.update_one_car s car).
Proof.
  intros Hb Hfind. apply find_car_some in Hfind. destruct Hfind as [Hid Hin].
  destruct (update_one_car_cases s car)
    as (car1 & car2 & Hi1 & _ & _ & _ & Hc2 & [[_ E] | [_ E]]); rewrite E;
    unfold balanced in *;
    cbn [TrafficSimulation.cars TrafficSimulation.metrics TrafficSimulation.set_cars
         TrafficSimulation.set_metrics].
  - rewrite !store_car_length. exact Hb.
  - cbn [MetricsCollector.record_car_exit fst MetricsCollector.total_cars_spawned
         MetricsCollector.total_cars_exited].
    assert (Hlen : S (length (TrafficSimulation.remove_car
                                (Car.set_exit_time
                                   (Some (TrafficSimulation.sim_time s)) car2)
                                (TrafficSimulation.store_car car2
                                   (TrafficSimulation.store_car car1
                                      (TrafficSimulation.cars s)))))
                   = length (TrafficSimulation.cars s)).
    { rewrite remove_car_length; [rewrite !store_car_length; reflexivity|].
      rewrite !store_car_idents. car_simpl.
      replace (Car.ident car2) with (Car.ident car).
      - apply in_map. exact Hin.
      - rewrite Hc2. rewrite (proj1 (car_update_frame car1 _ _ _)).
        symmetry. exact Hi1. }
    lia.
Qed.


Section Runs.

Variable exp : Q -> Q.

Lemma step_balanced (s : TrafficSimulation.t) (ms : Z) (g : Random.t) :
  balanced s -> balanced (fst (TrafficSimulation.step exp s ms g)).
Proof.
  intro Hb. unfold TrafficSimulation.step. cbv zeta.
  set (s0 := TrafficSimulation.advance_clock s ms).
  assert (Hb0 : balanced s0) by exact Hb.
  destruct (TrafficSimulation.show_menu s0); [exact Hb0|].
  destruct (TrafficSimulation.running s0); [|exact Hb0].
  destruct (spawn_cars_cases exp s0 g) as (new & Hc & _ & Ha & He & _).
  destruct (TrafficSimulation.spawn_cars exp s0 g) as [s1 g1]. cbn [fst] in *.
  assert (Hb1 : balanced s1).
  { unfold balanced, arrivals in *. rewrite Ha, He, Hc, length_app. lia. }
  apply (update_cars_invariant balanced) in Hb1;
    [exact Hb1 | intros s2 car id; apply update_one_car_balanced].
Qed.

Lemma steps_balanced (mss : list Z) (s : TrafficSimulation.t) (g : Random.t) :
  balanced s -> balanced (fst (TrafficSimulation.steps exp s mss g)).
Proof.
  revert s g. induction mss as [|ms mss IH]; intros s g Hb; [exact Hb|].
  cbn [TrafficSimulation.steps].
  pose proof (step_balanced s ms g Hb) as H1.
  destruct (TrafficSimulation.step exp s ms g) as [s1 g1]. apply IH. exact H1.
Qed.

(** X15. Vehicles are conserved: along every run of the main loop since
    [start_simulation], whatever the clock readings and random draws, the
    number of vehicles spawned equals the number retired plus the number
    on the road; in particular no more vehicles have exited than were
    spawned. *)
Theorem vehicles_conserved (sim : TrafficSimulation.t) (mode : string)
    (mss : list Z) (g : Random.t) :
  let s := fst (TrafficSimulation.steps exp
                  (TrafficSimulation.start_simulation sim mode) mss g) in
  MetricsCollector.total_cars_spawned (TrafficSimulation.metrics s)
  = (MetricsCollector.total_cars_exited (TrafficSimulation.metrics s)
     + Z.of_nat (length (TrafficSimulation.cars s)))%Z
  /\ (MetricsCollector.total_cars_exited (TrafficSimulation.metrics s)
      <= MetricsCollector.total_cars_spawned (TrafficSimulation.metrics s))%Z.
Proof.
  cbv zeta.
  assert (Hb : balanced (fst (TrafficSimulation.steps exp
                                (TrafficSimulation.start_simulation sim mode) mss g))).
  { apply steps_balanced. reflexivity. }
  unfold balanced in Hb. split; [exact Hb | lia].
Qed.

(** X16. One call of [spawn_cars] appends at most two vehicles to the end
    of the list and counts each as an arrival; every appended vehicle is at
    rest at the entry point of its direction (50 px outside the window, so
    not off-screen), has waited nothing and carries the current simulated
    time as its spawn time. *)
Theorem spawn_cars_entry (s : TrafficSimulation.t) (g : Random.t) :
  let s' := fst (TrafficSimulation.spawn_cars exp s g) in
  exists new : list Car.t,
    TrafficSimulation.cars s' = TrafficSimulation.cars s ++ new
    /\ (length new <= 2)%nat
    /\ MetricsCollector.total_cars_spawned (TrafficSimulation.metrics s')
       = (MetricsCollector.total_cars_spawned (TrafficSimulation.metrics s)
          + Z.of_nat (length new))%Z
    /\ Forall (fun c =>
                 (Car.x c, Car.y c) = entry_point (Car.direction c)
                 /\ Car.speed c = 0 /\ Car.waiting_time c = 0
                 /\ Car.spawn_time c = TrafficSimulation.sim_time s
                 /\ Car.is_off_screen c = false) new.
Proof.
  cbv zeta.
  destruct (spawn_cars_cases exp s g) as (new & Hc & Hl & Ha & _ & Hf & _).
  exists new. split; [exact Hc|]. split; [exact Hl|]. split; [exact Ha|].
  eapply Forall_impl; [|exact Hf].
  intros c (H1 & H2 & H3 & _ & H5 & _ & _ & H8). repeat split; assumption.
Qed.



End Runs.

(** ** The simulation: retiring vehicles *)

Lemma store_car_In (c c' : Car.t) (l : list Car.t) :
  NoDup (map Car.ident l) ->
  In c' (TrafficSimulation.store_car c l) ->
  c' = c \/ (In c' l /\ Car.ident c' <> Car.ident c).
Proof.
  induction l as [|c0 l IH]; intros Hnd Hin; [destruct Hin|].
  cbn [map] in Hnd. inversion Hnd as [|i rest Hnotin Hnd']. subst.
  cbn [TrafficSimulation.store_car] in Hin.
  destruct (Nat.eqb_spec (Car.ident c0) (Car.ident c)) as [E | NE].
  - destruct Hin as [<- | Hin]; [left; reflexivity|].
    right. split; [right; exact Hin|].
    intro E'. apply Hnotin. rewrite E, <- E'. apply in_map. exact Hin.
  - destruct Hin as [<- | Hin]; [right; split; [left; reflexivity | exact NE]|].
    destruct (IH Hnd' Hin) as [-> | [H1 H2]];
      [left; reflexivity | right; split; [right; exact H1 | exact H2]].
Qed.

Lemma remove_car_In (c c' : Car.t) (l : list Car.t) :
  NoDup (map Car.ident l) ->
  In c' (TrafficSimulation.remove_car c l) ->
  In c' l /\ Car.ident c' <> Car.ident c.
Proof.
  induction l as [|c0 l IH]; intros Hnd Hin; [destruct Hin|].
  cbn [map] in Hnd. inversion Hnd as [|i rest Hnotin Hnd']. subst.
  cbn [TrafficSimulation.remove_car] in Hin.
  destruct (Nat.eqb_spec (Car.ident c0) (Car.ident c)) as [E | NE].
  - split; [right; exact Hin|].
    intro E'. apply Hnotin. rewrite E, <- E'. apply in_map. exact Hin.
  - destruct Hin as [<- | Hin]; [split; [left; reflexivity | exact NE]|].
    destruct (IH Hnd' Hin) as [H1 H2]. split; [right; exact H1 | exact H2].
Qed.

Lemma remove_car_idents_In (c : Car.t) (l : list Car.t) (i : nat) :
  In i (map Car.ident (TrafficSimulation.remove_car c l)) ->
  In i (map Car.ident l).
Proof.
  induction l as [|c0 l IH]; intro Hin; [destruct Hin|].
  cbn [TrafficSimulation.remove_car] in Hin.
  destruct (Nat.eqb _ _); [right; exact Hin|].
  destruct Hin as [<- | Hin]; [left; reflexivity | right; apply IH; exact Hin].
Qed.

Lemma remove_car_NoDup (c : Car.t) (l : list Car.t) :
  NoDup (map Car.ident l) ->
  NoDup (map Car.ident (TrafficSimulation.remove_car c l)).
Proof.
  induction l as [|c0 l IH]; intro Hnd; [constructor|].
  cbn [map] in Hnd. inversion Hnd as [|i rest Hnotin Hnd']. subst.
  cbn [TrafficSimulation.remove_car].
  destruct (Nat.eqb _ _); [exact Hnd'|].
  cbn [map]. constructor; [|apply IH; exact Hnd'].
  intro Hin. apply Hnotin. eapply remove_car_idents_In. exact Hin.
Qed.

(** One round of the loop of [update_cars]: the vehicle with identity
    [id] is on screen afterwards or gone, the others are as before. *)
Lemma update_cars_body_spec (s : TrafficSimulation.t) (id : nat) :
  idents_ok s ->
  idents_ok (update_cars_body s id)
  /\ (forall c, In c (TrafficSimulation.cars (update_cars_body s id)) ->
        (Car.ident c = id /\ on_screen c)
        \/ (Car.ident c <> id /\ In c (TrafficSimulation.cars s))).
Proof.
  intros [Hnd Hlt]. unfold update_cars_body.
  destruct (TrafficSimulation.find_car id (TrafficSimulation.cars s)) as [car|] eqn:Hfind.
  - apply find_car_some in Hfind. destruct Hfind as [Hid Hin].
    destruct (update_one_car_cases s car)
      as (car1 & car2 & Hi1 & _ & _ & _ & Hc2 & Hcases).
    assert (Hi2 : Car.ident car2 = id).
    { rewrite Hc2, (proj1 (car_update_frame car1 _ _ _)), Hi1. exact Hid. }
    assert (Hnd1 : NoDup (map Car.ident
                     (TrafficSimulation.store_car car1 (TrafficSimulation.cars s))))
      by (rewrite store_car_idents; exact Hnd).
    assert (Hstored : forall c,
              In c (TrafficSimulation.store_car car2
                      (TrafficSimulation.store_car car1 (TrafficSimulation.cars s))) ->
              c = car2 \/ (Car.ident c <> id /\ In c (TrafficSimulation.cars s))).
    { intros c Hc. destruct (store_car_In _ _ _ Hnd1 Hc) as [-> | [Hc1 Hne]];
        [left; reflexivity|].
      rewrite Hi2 in Hne.
      destruct (store_car_In _ _ _ Hnd Hc1) as [-> | [Hc0 _]].
      - exfalso. apply Hne. rewrite Hi1. exact Hid.
      - right. split; assumption. }
    destruct Hcases as [[Hon E] | [Hoff E]]; rewrite E;
      unfold idents_ok;
      cbn [TrafficSimulation.cars TrafficSimulation.next_ident
           TrafficSimulation.set_cars TrafficSimulation.set_metrics].
    + rewrite !store_car_idents. split; [split; assumption|].
      intros c Hc. destruct (Hstored c Hc) as [-> | H];
        [left; split; assumption | right; exact H].
    + split; [split|].
      * apply remove_car_NoDup. rewrite !store_car_idents. exact Hnd.
      * rewrite Forall_forall in *. intros i Hi. apply Hlt.
        apply remove_car_idents_In in Hi. rewrite !store_car_idents in Hi. exact Hi.
      * intros c Hc. apply remove_car_In in Hc;
          [|rewrite !store_car_idents; exact Hnd].
        destruct Hc as [Hc Hne]. car_simpl. rewrite Hi2 in Hne.
        destruct (Hstored c Hc) as [-> | H]; [contradiction | right; exact H].
  - split; [split; assumption|].
    intros c Hc. right. split; [|exact Hc].
    unfold TrafficSimulation.find_car in Hfind.
    pose proof (find_none _ _ Hfind c Hc) as Hn. cbv beta in Hn.
    apply Nat.eqb_neq. exact Hn.
Qed.

Lemma update_cars_loop (ids done : list nat) (s : TrafficSimulation.t) :
  idents_ok s ->
  (forall c, In c (TrafficSimulation.cars s) -> In (Car.ident c) done -> on_screen c) ->
  let s' := fold_left update_cars_body ids s in
  idents_ok s'
  /\ (forall c, In c (TrafficSimulation.cars s') ->
        In (Car.ident c) (done ++ ids) -> on_screen c)
  /\ (forall c, In c (TrafficSimulation.cars s') ->
        In (Car.ident c) (map Car.ident (TrafficSimulation.cars s))).
Proof.
  revert done s. induction ids as [|id ids IH]; intros done s Hok Hdone; cbv zeta.
  - rewrite app_nil_r. split; [exact Hok|]. split; [exact Hdone|].
    intros c Hc. apply in_map. exact Hc.
  - cbn [fold_left].
    destruct (update_cars_body_spec s id Hok) as [Hok1 Hcars1].
    destruct (IH (done ++ [id]) (update_cars_body s id) Hok1) as (H1 & H2 & H3).
    + intros c Hc Hin. destruct (Hcars1 c Hc) as [[_ Hon] | [Hne Hc0]];
        [exact Hon|].
      apply Hdone; [exact Hc0|].
      apply in_app_or in Hin. destruct Hin as [Hin | [Hin | []]];
        [exact Hin | exfalso; apply Hne; symmetry; exact Hin].
    + split; [exact H1|]. split.
      * intros c Hc Hin. apply H2; [exact Hc|].
        rewrite <- app_assoc. exact Hin.
      * intros c Hc. specialize (H3 c Hc).
        apply in_map_iff in H3. destruct H3 as (c1 & E & Hc1). rewrite <- E.
        destruct (Hcars1 c1 Hc1) as [[Hi _] | [_ Hc0]].
        -- unfold update_cars_body in Hc1.
           destruct (TrafficSimulation.find_car id (TrafficSimulation.cars s))
             as [car|] eqn:Hfind.
           ++ apply find_car_some in Hfind. destruct Hfind as [E' Hin'].
              rewrite Hi, <- E'. apply in_map. exact Hin'.
           ++ apply in_map. exact Hc1.
        -- apply in_map. exact Hc0.
Qed.

Lemma update_cars_on_screen (s : TrafficSimulation.t) :
  idents_ok s ->
  idents_ok (TrafficSimulation.update_cars s)
  /\ Forall on_screen (TrafficSimulation.cars (TrafficSimulation.update_cars s)).
Proof.
  intro Hok.
  destruct (update_cars_loop (map Car.ident (TrafficSimulation.cars s)) [] s Hok)
    as (H1 & H2 & H3); [intros c _ []|].
  change (fold_left update_cars_body (map Car.ident (TrafficSimulation.cars s)) s)
    with (TrafficSimulation.update_cars s) in *.
  split; [exact H1|]. apply Forall_forall. intros c Hc.
  apply H2; [exact Hc | apply H3; exact Hc].
Qed.

Section Retiring.

Variable exp : Q -> Q.

Lemma spawn_cars_idents_ok (s : TrafficSimulation.t) (g : Random.t) :
  idents_ok s -> Forall on_screen (TrafficSimulation.cars s) ->
  idents_ok (fst (TrafficSimulation.spawn_cars exp s g))
  /\ Forall on_screen (TrafficSimulation.cars (fst (TrafficSimulation.spawn_cars exp s g))).
Proof.
  intros [Hnd Hlt] Hon.
  destruct (spawn_cars_cases exp s g)
    as (new & Hc & _ & _ & _ & Hf & _ & _ & _ & Hi & Hn).
  unfold idents_ok. rewrite Hc, Hn, map_app, Hi. split; [split|].
  - apply NoDup_app; [exact Hnd | apply seq_NoDup|].
    intros i H1 H2. apply in_seq in H2.
    rewrite Forall_forall in Hlt. specialize (Hlt i H1). lia.
  - apply Forall_app. split.
    + eapply Forall_impl; [|exact Hlt]. cbv beta. intros; lia.
    + apply Forall_forall. intros i H. apply in_seq in H. lia.
  - apply Forall_app. split; [exact Hon|].
    eapply Forall_impl; [|exact Hf]. intros c Hfc. apply Hfc.
Qed.

Lemma step_on_screen (s : TrafficSimulation.t) (ms : Z) (g : Random.t) :
  idents_ok s -> Forall on_screen (TrafficSimulation.cars s) ->
  idents_ok (fst (TrafficSimulation.step exp s ms g))
  /\ Forall on_screen (TrafficSimulation.cars (fst (TrafficSimulation.step exp s ms g))).
Proof.
  intros Hok Hon. unfold TrafficSimulation.step. cbv zeta.
  set (s0 := TrafficSimulation.advance_clock s ms).
  assert (Hok0 : idents_ok s0) by exact Hok.
  assert (Hon0 : Forall on_screen (TrafficSimulation.cars s0)) by exact Hon.
  destruct (TrafficSimulation.show_menu s0); [split; assumption|].
  destruct (TrafficSimulation.running s0); [|split; assumption].
  destruct (spawn_cars_idents_ok s0 g Hok0 Hon0) as [Hok1 _].
  destruct (TrafficSimulation.spawn_cars exp s0 g) as [s1 g1]. cbn [fst] in *.
  exact (update_cars_on_screen s1 Hok1).
Qed.

(** X18. Vehicles are retired as soon as they leave: along every run of
    the main loop since [start_simulation], whatever the clock readings
    and random draws, no vehicle on the road is off-screen (more than
    100 px outside the window) at the end of a tick. *)
Theorem no_vehicle_off_screen (sim : TrafficSimulation.t) (mode : string)
    (mss : list Z) (g : Random.t) :
  Forall (fun c => Car.is_off_screen c = false)
    (TrafficSimulation.cars
       (fst (TrafficSimulation.steps exp
               (TrafficSimulation.start_simulation sim mode) mss g))).
Proof.
  assert (G : forall s g0, idents_ok s ->
             Forall on_screen (TrafficSimulation.cars s) ->
             Forall on_screen
               (TrafficSimulation.cars (fst (TrafficSimulation.steps exp s mss g0)))).
  { induction mss as [|ms mss' IH]; intros s g0 Hok Hon; [exact Hon|].
    cbn [TrafficSimulation.steps].
    destruct (step_on_screen s ms g0 Hok Hon) as [H1 H2].
    destruct (TrafficSimulation.step exp s ms g0) as [s1 g1]. cbn [fst] in *.
    apply IH; assumption. }
  apply G; [split; constructor | constructor].
Qed.

End Retiring.


(** ** Vehicles held in place *)

(** X19. A vehicle at rest that has to brake in a tick (an ordinary
    vehicle told to stop for its signal, or any vehicle with another one
    within the safe distance ahead) stays where it is, counts as stopped,
    and its waiting time grows by exactly the step. *)
Theorem held_vehicle_waits {S : Type} `{SignalSource S}
    (c : Car.t) (cars : list Car.t) (sc : S) (dt_sim : Q) :
  (Car.is_ambulance c = false /\ Car.should_stop_at_signal c sc = true)
  \/ Car.get_car_ahead c cars <> None ->
  Car.speed c == 0 ->
  0 <= dt_sim ->
  let c' := Car.update c cars sc dt_sim in
  Car.waiting_time c' = Car.waiting_time c + dt_sim
  /\ Car.is_stopped c' = true
  /\ Car.speed c' == 0
  /\ Car.x c' == Car.x c /\ Car.y c' == Car.y c.
Proof.
  intros Hbrake Hv Hdt. cbv zeta.
  assert (Hb : (if Car.is_ambulance c then false else Car.should_stop_at_signal c sc)
               || Car.is_some (Car.get_car_ahead c cars) = true).
  { destruct Hbrake as [[Ha Hs] | Hahead].
    - rewrite Ha, Hs. reflexivity.
    - destruct (Car.get_car_ahead c cars); [apply orb_true_r | contradiction]. }
  assert (Hs : 0 <= dt_sim * Config.FPS) by (unfold Config.FPS; lra).
  assert (Hv' : Qmax 0 (Car.speed c - Config.CAR_ACCELERATION * 2.0
                                      * (dt_sim * Config.FPS)) == 0).
  { apply Q.max_l. rewrite Hv. unfold Config.CAR_ACCELERATION. lra. }
  unfold Car.update. cbv zeta. rewrite Hb. car_simpl.
  set (v := Qmax 0 (Car.speed c - Config.CAR_ACCELERATION * 2.0
                                  * (dt_sim * Config.FPS))) in *.
  assert (Hst : (v <=? 1e-3) = true) by (apply Qleb_le; rewrite Hv'; discriminate).
  rewrite Hst.
  assert (Hd : v * (dt_sim * Config.FPS) == 0) by (rewrite Hv'; ring).
  set (d := v * (dt_sim * Config.FPS)) in *.
  assert (Hsame : forall a : Q, (Qabs (a - a) <? 1e-3) = true).
  { intro a. apply Qltb_lt. setoid_replace (a - a) with 0 by ring. reflexivity. }
  assert (Hplus : forall a : Q, (Qabs (a + d - a) <? 1e-3) = true).
  { intro a. apply Qltb_lt. setoid_replace (a + d - a) with 0 by (rewrite Hd; ring).
    reflexivity. }
  assert (Hminus : forall a : Q, (Qabs (a - d - a) <? 1e-3) = true).
  { intro a. apply Qltb_lt. setoid_replace (a - d - a) with 0 by (rewrite Hd; ring).
    reflexivity. }
  destruct (Car.direction c); car_simpl;
    rewrite ?Hsame, ?Hplus, ?Hminus; cbn [andb]; car_simpl;
    (split; [reflexivity|]); (split; [reflexivity|]); (split; [exact Hv'|]);
    split; rewrite ?Hd; ring.
Qed.

Lemma held_vehicle_waits_witness :
  Car.waiting_time (Car.update held_car [held_car] red_controller (1 # 60))
  = Car.waiting_time held_car + (1 # 60).
Proof.
  refine (proj1 (held_vehicle_waits held_car [held_car] red_controller (1 # 60)
                   (or_introl (conj eq_refl _)) _ _)).
  - vm_compute. reflexivity.
  - reflexivity.
  - discriminate.
Defined.
